(** * immers-client: the activity client and the state derivers

    A shallow embedding of [Activities] (source/activities.js) and of
    the static derivers and presence operations of [ImmersClient],
    followed by the properties of the design document that were checked
    against them. *)

From Stdlib Require Import ZArith String Ascii List Bool Lia Permutation Sorted.
From Stdlib Require Import DecimalString.
From Stdlib Require OrderedTypeEx.
From stdpp Require Import base tactics option list strings.

Local Open Scope string_scope.
Local Open Scope list_scope.

(** ** JavaScript values *)

Module JS.

(** The data this code handles is what [JSON.parse] produces, plus
    [undefined].  Numbers are restricted to integers.  Strings are
    sequences of code units below 256.  An object is the list of its
    own properties in insertion order; the first binding of a key is
    the one a property read sees. *)
#[warnings="-register-all"]
Inductive value : Type :=
| VUndef
| VNull
| VBool (b : bool)
| VNum (n : Z)
| VStr (s : string)
| VArr (xs : list value)
| VObj (fields : list (string * value)).

Inductive error : Type :=
| TypeError
| SyntaxError
| Error (msg : string).

Inductive Result (A : Type) : Type :=
| Ok (a : A)
| Throw (e : error).
Arguments Ok {A} a.
Arguments Throw {A} e.

Definition rbind {A B} (r : Result A) (k : A -> Result B) : Result B :=
  match r with
  | Ok a => k a
  | Throw e => Throw e
  end.

(** ToBoolean. *)
Definition truthy (v : value) : bool :=
  match v with
  | VUndef | VNull => false
  | VBool b => b
  | VNum n => negb (n =? 0)%Z
  | VStr s => negb (s =? EmptyString)%string
  | VArr _ | VObj _ => true
  end.

Fixpoint assoc (k : string) (fields : list (string * value)) : option value :=
  match fields with
  | [] => None
  | (k', v) :: rest => if (k =? k')%string then Some v else assoc k rest
  end.

(** [v.k]: reading a property of [undefined] or [null] throws.  None
    of the property names this program reads is defined on the
    prototypes of strings, numbers, booleans or arrays, so on those
    the read gives [undefined]. *)
Definition get (v : value) (k : string) : Result value :=
  match v with
  | VUndef | VNull => Throw TypeError
  | VObj fields => Ok (default VUndef (assoc k fields))
  | _ => Ok VUndef
  end.

(** [v?.k] *)
Definition get_opt (v : value) (k : string) : value :=
  match v with
  | VObj fields => default VUndef (assoc k fields)
  | _ => VUndef
  end.

(** [a ?? b] *)
Definition nullish (a b : value) : value :=
  match a with
  | VUndef | VNull => b
  | _ => a
  end.

(** [a || b] *)
Definition or_else (a b : value) : value :=
  if truthy a then a else b.

(** [v.k = x] in strict mode (an ES module): throws on [undefined],
    [null] and on primitives; on an array it adds an expando
    property, which the model of arrays does not carry. *)
Fixpoint assoc_set (k : string) (x : value) (fields : list (string * value))
  : list (string * value) :=
  match fields with
  | [] => [(k, x)]
  | (k', v) :: rest =>
      if (k =? k')%string then (k', x) :: rest else (k', v) :: assoc_set k x rest
  end.

Definition set (v : value) (k : string) (x : value) : Result value :=
  match v with
  | VObj fields => Ok (VObj (assoc_set k x fields))
  | VArr xs => Ok (VArr xs)
  | _ => Throw TypeError
  end.

Definition dquote : string := String (ascii_of_nat 34) EmptyString.

Definition string_of_Z (n : Z) : string :=
  NilZero.string_of_int (Z.to_int n).

(** The characters of a string, and the elements of an array under
    their indices. *)
Fixpoint characters (s : string) : list value :=
  match s with
  | EmptyString => []
  | String c rest => VStr (String c EmptyString) :: characters rest
  end.

Fixpoint indexed (i : nat) (xs : list value) : list (string * value) :=
  match xs with
  | [] => []
  | x :: rest => (string_of_Z (Z.of_nat i), x) :: indexed (S i) rest
  end.

(** ToString, as template literals and the built-ins that take a
    string apply it, given the engine's way of printing an integer of
    magnitude 1e21 or more, which is in exponent form.  The data holds
    no functions: an object that has a property [toString] of its own
    has nothing callable there, the inherited [valueOf] returns the
    object itself, and the conversion throws; an object without one is
    printed by the inherited method.  An array prints its elements
    joined by commas, [undefined] and [null] as nothing. *)
Fixpoint print (exponential : Z -> string) (v : value) {struct v} : Result string :=
  match v with
  | VUndef => Ok "undefined"
  | VNull => Ok "null"
  | VBool true => Ok "true"
  | VBool false => Ok "false"
  | VNum n =>
      Ok (if (Z.abs n <? 10 ^ 21)%Z then string_of_Z n else exponential n)
  | VStr s => Ok s
  | VArr xs =>
      rbind
        ((fix each (ys : list value) : Result (list string) :=
            match ys with
            | [] => Ok []
            | y :: rest =>
                rbind
                  match y with
                  | VUndef | VNull => Ok EmptyString
                  | _ => print exponential y
                  end
                  (fun part => rbind (each rest) (fun parts => Ok (part :: parts)))
            end) xs)
        (fun parts => Ok (String.concat "," parts))
  | VObj fields =>
      match assoc "toString" fields with
      | Some _ => Throw TypeError
      | None => Ok "[object Object]"
      end
  end.


(** [v.startsWith(p)] for a string [p]: only strings have the method. *)
Definition startsWith (v : value) (p : string) : Result bool :=
  match v with
  | VStr s => Ok (String.prefix p s)
  | _ => Throw TypeError
  end.

Definition lower_ascii (c : ascii) : ascii :=
  let n := nat_of_ascii c in
  if (65 <=? n)%nat && (n <=? 90)%nat then ascii_of_nat (n + 32) else c.

Fixpoint lower (s : string) : string :=
  match s with
  | EmptyString => EmptyString
  | String c rest => String (lower_ascii c) (lower rest)
  end.

(** [v.toLowerCase()].  Code units outside A-Z are left alone: no
    other character lower-cases to one of the ASCII letters of the
    type names compared below. *)
Definition toLowerCase (v : value) : Result string :=
  match v with
  | VStr s => Ok (lower s)
  | _ => Throw TypeError
  end.

(** [a === b].  Arrays and objects compare by identity; two values
    read from different places of parsed data are never identical. *)
Definition strict_eq (a b : value) : bool :=
  match a, b with
  | VUndef, VUndef | VNull, VNull => true
  | VBool x, VBool y => Bool.eqb x y
  | VNum x, VNum y => (x =? y)%Z
  | VStr x, VStr y => (x =? y)%string
  | _, _ => false
  end.

Definition is_str (v : value) (s : string) : bool := strict_eq v (VStr s).

End JS.
Export JS.

(** ** The environment: network, console, array store *)

Module Env.

Inductive method : Type := GET | POST.

(** What is handed to [fetch] as [body]: nothing, the value given to
    [JSON.stringify], a [URLSearchParams], or a [FormData]. *)
Inductive payload : Type :=
| NoBody
| JSONBody (v : value)
| URLParams (ps : list (string * value))
| FormData (parts : list (string * value)).

Record request : Type := mkRequest {
  url : value;
  meth : method;
  headers : list (string * string);
  body : payload
}.

(** The parts of a [Response] this code reads.  [status] is the status
    code; [bodyPrinted] is what [body], a stream object or [null],
    prints as in a template; [json] is [None] when the body does not
    parse; [location] is [headers.get('Location')]. *)
Record response : Type := mkResponse {
  ok : bool;
  status : Z;
  bodyPrinted : string;
  text : string;
  json : option value;
  location : value
}.

(** [arrays] holds the mutable arrays shared with callers, by address. *)
Record World : Type := mkWorld {
  net_log : list request;
  console : list string;
  arrays : list (list value)
}.

(** What the browser and the other modules provide.  [server] answers
    a request given the requests made so far, [None] being a network
    failure; [URL_host s] is [new URL(s).host], [None] when the
    constructor throws; [sanitize] is [DOMPurify.sanitize], which
    returns a string or throws; [getURLPart] is the helper of utils.js
    and [postLocation] the constant [SCOPES.postLocation] of
    authUtils.js, both taken as given; [loose_gt] is [>] on two
    primitive operands that are coerced to numbers; [exponential] is
    how the engine prints an integer of magnitude 1e21 or more;
    [engine_sort] is what [Array.prototype.sort] does where the
    language leaves it to the engine. *)
Class Platform : Type := {
  server : list request -> request -> option response;
  sanitize : value -> Result string;
  URL_host : string -> option string;
  getURLPart : string -> string -> string;
  postLocation : string;
  loose_gt : value -> value -> bool;
  exponential : Z -> string;
  engine_sort : forall A : Type, (A -> A -> Result Z) -> list A -> Result (list A)
}.

Definition ToString `{Platform} (v : value) : Result string := print exponential v.

(** ToPrimitive, as [new Date(v)] and [>] apply it: an object or an
    array is replaced by its text, and this is where the conversion
    can throw; the inherited [valueOf] returns the object itself and
    decides nothing. *)
Definition ToPrimitive `{Platform} (v : value) : Result value :=
  match v with
  | VArr _ | VObj _ => rbind (ToString v) (fun s => Ok (VStr s))
  | _ => Ok v
  end.

(** Computations over a state [S] that return or throw; a throw keeps
    the state reached so far. *)
Definition ST (S A : Type) : Type := S -> Result A * S.

Definition ret {S A} (a : A) : ST S A := fun s => (Ok a, s).

Definition bind {S A B} (m : ST S A) (k : A -> ST S B) : ST S B :=
  fun s =>
    match m s with
    | (Ok a, s') => k a s'
    | (Throw e, s') => (Throw e, s')
    end.

Definition throw {S A} (e : error) : ST S A := fun s => (Throw e, s).

Definition lift {S A} (r : Result A) : ST S A := fun s => (r, s).

Definition M (A : Type) : Type := ST World A.

(** [a > b]: both operands are made primitive; two strings compare by
    code units; a comparison with [undefined] is a comparison with
    NaN. *)
Definition gt `{Platform} (a b : value) : Result bool :=
  rbind (ToPrimitive a) (fun a =>
  rbind (ToPrimitive b) (fun b =>
  Ok match a, b with
     | VStr s, VStr t => String.ltb t s
     | VUndef, _ | _, VUndef => false
     | _, _ => loose_gt a b
     end)).

(** [xs.map(f)] for an [f] that may throw. *)
Fixpoint mapR {A B} (f : A -> Result B) (xs : list A) : Result (list B) :=
  match xs with
  | [] => Ok []
  | x :: rest =>
      match f x with
      | Ok y =>
          match mapR f rest with
          | Ok ys => Ok (y :: ys)
          | Throw e => Throw e
          end
      | Throw e => Throw e
      end
  end.

(** The stable sort by a comparator that returns a number: [x] goes
    after [y] only when [cmp x y] is positive. *)
Fixpoint insert {A} (cmp : A -> A -> Z) (x : A) (sorted : list A) : list A :=
  match sorted with
  | [] => [x]
  | y :: rest =>
      if (cmp x y <=? 0)%Z then x :: y :: rest else y :: insert cmp x rest
  end.

Definition stable_sort {A} (cmp : A -> A -> Z) (xs : list A) : list A :=
  foldr (insert cmp) [] xs.

(** Every comparison among the elements returns. *)
Definition comparable {A} (cmp : A -> A -> Result Z) (xs : list A) : bool :=
  forallb (fun x =>
    forallb (fun y => match cmp x y with Ok _ => true | Throw _ => false end) xs) xs.

Definition returned {A} (cmp : A -> A -> Result Z) (x y : A) : Z :=
  match cmp x y with
  | Ok z => z
  | Throw _ => 0%Z
  end.

(** The comparator is a consistent comparator on the elements: each
    compares equal to itself, swapping the operands swaps the sign, and
    not-after is transitive. *)
Definition consistent {A} (cmp : A -> A -> Z) (xs : list A) : bool :=
  forallb (fun x =>
    (cmp x x =? 0)%Z
    && forallb (fun y =>
         (Z.sgn (cmp y x) =? - Z.sgn (cmp x y))%Z
         && forallb (fun z =>
              implb ((cmp x y <=? 0)%Z && (cmp y z <=? 0)%Z) (cmp x z <=? 0)%Z) xs) xs) xs.

(** [xs.sort(cmp)].  An array of fewer than two elements comes back
    without a call of [cmp].  When every comparison among the elements
    returns and [cmp] is a consistent comparator on them, the result is
    the stable sort.  Otherwise the order, or the exception, is the
    engine's. *)
Definition sort `{Platform} {A} (cmp : A -> A -> Result Z) (xs : list A)
  : Result (list A) :=
  match xs with
  | [] | [_] => Ok xs
  | _ =>
      if comparable cmp xs && consistent (returned cmp) xs
      then Ok (stable_sort (returned cmp) xs)
      else engine_sort A cmp xs
  end.

(** [window.fetch]: the request leaves the process whether or not an
    answer comes back. *)
Definition fetch `{Platform} (r : request) : M response :=
  fun w =>
    let w' := mkWorld (net_log w ++ [r]) (console w) (arrays w) in
    match server (net_log w) r with
    | Some res => (Ok res, w')
    | None => (Throw TypeError, w')
    end.

(** [res.json()] *)
Definition res_json (res : response) : M value :=
  match json res with
  | Some v => ret v
  | None => throw SyntaxError
  end.

Definition log (line : string) : M unit :=
  fun w => (Ok tt, mkWorld (net_log w) (console w ++ [line]) (arrays w)).

(** [a.slice()], [a.push(v)] and a read of the elements, for the array
    at address [l]; an address outside the store stands for a [to] that
    is [undefined]. *)
Definition slice (l : nat) : M nat :=
  fun w =>
    match arrays w !! l with
    | Some xs => (Ok (length (arrays w)), mkWorld (net_log w) (console w) (arrays w ++ [xs]))
    | None => (Throw TypeError, w)
    end.

Definition push (l : nat) (v : value) : M unit :=
  fun w =>
    match arrays w !! l with
    | Some xs => (Ok tt, mkWorld (net_log w) (console w) (<[l := xs ++ [v]]> (arrays w)))
    | None => (Throw TypeError, w)
    end.

Definition elements (l : nat) : M (list value) :=
  fun w =>
    match arrays w !! l with
    | Some xs => (Ok xs, w)
    | None => (Throw TypeError, w)
    end.

End Env.
Export Env.

Declare Scope js_scope.
Delimit Scope js_scope with js.
Notation "'let*' x ':=' m 'in' k" := (bind m (fun x => k))
  (at level 10, x pattern, m at level 100, k at level 200) : js_scope.
Notation "'let+' x ':=' r 'in' k" := (bind (lift r) (fun x => k))
  (at level 10, x pattern, r at level 100, k at level 200) : js_scope.
Notation "'let!' x ':=' r 'in' k" := (rbind r (fun x => k))
  (at level 10, x pattern, r at level 100, k at level 200) : js_scope.

Local Open Scope js_scope.

(** ** source/activities.js: class Activities *)

Module Activities.

Definition JSONLDMime : string := "application/activity+json".
Definition PublicAddress : string := "as:Public".

(** The instance fields.  The two start dates the constructor also
    stores are read by no method and are left out. *)
Record t : Type := mk {
  actor : value;
  homeImmer : string;
  place : value;
  token : value;
  localImmer : option string;
  nextInboxPage : value;
  nextOutboxPage : value
}.

(** The constructor, for a [localImmer] that is a string or left out. *)
Definition new `{Platform} (actor : value) (homeImmer : string) (place token : value)
    (localImmer : option string) : t :=
  {| actor := actor;
     homeImmer := homeImmer;
     place := place;
     token := token;
     localImmer := match localImmer with
                   | Some l =>
                       if truthy (VStr l) then Some (getURLPart l "origin") else None
                   | None => None
                   end;
     nextInboxPage := VNull;
     nextOutboxPage := VNull |}.

Definition set_place (this : t) (p : value) : t :=
  mk (actor this) (homeImmer this) p (token this) (localImmer this)
     (nextInboxPage this) (nextOutboxPage this).

Definition set_nextInboxPage (this : t) (c : value) : t :=
  mk (actor this) (homeImmer this) (place this) (token this) (localImmer this)
     c (nextOutboxPage this).

Definition set_nextOutboxPage (this : t) (c : value) : t :=
  mk (actor this) (homeImmer this) (place this) (token this) (localImmer this)
     (nextInboxPage this) c.

(** [(this.localImmer && IRI.startsWith(this.localImmer)) ||
     IRI.startsWith(this.homeImmer)].  An absent or empty [localImmer]
    is falsy and its test is skipped. *)
Definition trustedIRI (this : t) (IRI : value) : Result bool :=
  match localImmer this with
  | Some l =>
      if truthy (VStr l)
      then let! b := startsWith IRI l in
           if b then Ok true else startsWith IRI (homeImmer this)
      else startsWith IRI (homeImmer this)
  | None => startsWith IRI (homeImmer this)
  end.

(** [`Bearer ${this.#token}`], which throws on a token that cannot be
    printed. *)
Definition bearer `{Platform} (this : t) : Result string :=
  let! token := ToString (token this) in
  Ok ("Bearer " +:+ token).

(** The Authorization header of a request that has been built, the
    text of the token being there. *)
Definition auth_header `{Platform} (this : t) : (string * string) :=
  ("Authorization", match bearer this with Ok b => b | Throw _ => EmptyString end).

(** [result.message] of a response is [undefined]. *)
Definition getObject `{Platform} (this : t) (IRI : value) : M value :=
  let+ authorization :=
    if truthy (token this)
    then let! b := bearer this in Ok [("Authorization", b)]
    else Ok [] in
  let headers := ("Accept", JSONLDMime) :: authorization in
  let+ trusted := trustedIRI this IRI in
  let* result :=
    if trusted
    then fetch (mkRequest IRI GET headers NoBody)
    else
      let+ endpoints := get (actor this) "endpoints" in
      let proxyUrl := get_opt endpoints "proxyUrl" in
      if truthy proxyUrl
      then fetch (mkRequest proxyUrl POST headers (URLParams [("id", IRI)]))
      else throw (Error "Home immer does not support object fetch proxy") in
  if negb (ok result)
  then throw (Error "Object fetch error undefined")
  else res_json result.

Definition postActivity `{Platform} (this : t) (activity : value) : M value :=
  let+ outbox := get (actor this) "outbox" in
  let+ trusted := trustedIRI this outbox in
  if negb trusted
  then throw (Error "Invalid outbox address")
  else
    let+ b := bearer this in
    let* result :=
      fetch (mkRequest outbox POST
               [("Content-Type", JSONLDMime); ("Authorization", b)]
               (JSONBody activity)) in
    if negb (ok result)
    then throw (Error ("Error creating avatar: " +:+ string_of_Z (status result)
                         +:+ " " +:+ bodyPrinted result))
    else ret (location result).

Definition postMedia `{Platform} (this : t) (activity file icon : value) : M value :=
  let+ endpoints := get (actor this) "endpoints" in
  let+ uploadMedia := get endpoints "uploadMedia" in
  let+ trusted := trustedIRI this uploadMedia in
  if negb trusted
  then throw (Error "Missing/invalid upload media endpoint")
  else
    let formData := [("file", file); ("icon", icon); ("object", activity)] in
    let+ b := bearer this in
    let* result :=
      fetch (mkRequest uploadMedia POST [("Authorization", b)] (FormData formData)) in
    if negb (ok result)
    then throw (Error ("Error creating avatar: " +:+ string_of_Z (status result)
                         +:+ " " +:+ text result))
    else ret (location result).

(** The collection fetchers return the page and the instance with its
    cursor updated; when a fetch throws the cursor is not assigned. *)
Definition inbox `{Platform} (this : t) : M (value * t) :=
  let* col :=
    if strict_eq (nextInboxPage this) VNull
    then
      let+ iri := get (actor this) "inbox" in
      let* col := getObject this iri in
      let+ orderedItems := get col "orderedItems" in
      let+ first := get col "first" in
      if negb (truthy orderedItems) && truthy first
      then getObject this first
      else ret col
    else if truthy (nextInboxPage this)
    then getObject this (nextInboxPage this)
    else ret VUndef in
  ret (col, set_nextInboxPage this (get_opt col "next")).

Definition outbox `{Platform} (this : t) : M (value * t) :=
  let* col :=
    if strict_eq (nextOutboxPage this) VNull
    then
      let+ iri := get (actor this) "outbox" in
      let* col := getObject this iri in
      let+ orderedItems := get col "orderedItems" in
      let+ first := get col "first" in
      if negb (truthy orderedItems) && truthy first
      then getObject this first
      else ret col
    else if truthy (nextOutboxPage this)
    then getObject this (nextOutboxPage this)
    else ret VUndef in
  ret (col, set_nextOutboxPage this (get_opt col "next")).

(** *** Activity-specific posting methods *)

Definition accept `{Platform} (this : t) (follow : value) : M value :=
  let+ id := get (actor this) "id" in
  let+ followId := get follow "id" in
  let+ followActor := get follow "actor" in
  postActivity this
    (VObj [("type", VStr "Accept");
           ("actor", id);
           ("object", followId);
           ("to", followActor);
           ("summary", VStr "<span>Accepted your a friend request</span>")]).

Definition add `{Platform} (this : t) (activity target : value) : M value :=
  let+ id := get (actor this) "id" in
  let+ object :=
    match activity with
    | VStr _ => Ok activity
    | _ => get activity "id"
    end in
  let+ target' :=
    match target with
    | VStr name =>
        if String.prefix "https://" name then Ok target
        else
          let! preferredUsername := get (actor this) "preferredUsername" in
          let! username := ToString preferredUsername in
          Ok (VStr ("https://" +:+ homeImmer this +:+ "/collection/"
                      +:+ username +:+ "/" +:+ name))
    | _ => Throw TypeError
    end in
  postActivity this
    (VObj [("type", VStr "Add");
           ("actor", id);
           ("object", object);
           ("target", target')]).

(** A parameter default applies when the argument is [undefined]. *)
Definition or_default (arg default : value) : value :=
  match arg with
  | VUndef => default
  | _ => arg
  end.

Definition arrive `{Platform} (this : t) (place : value) : M value :=
  let place := or_default place (Activities.place this) in
  let+ id := get (actor this) "id" in
  let+ followers := get (actor this) "followers" in
  let+ placeUrl := get place "url" in
  let+ href := ToString placeUrl in
  let+ placeName := get place "name" in
  let+ name := ToString placeName in
  postActivity this
    (VObj [("type", VStr "Arrive");
           ("actor", id);
           ("target", place);
           ("to", followers);
           ("summary", VStr ("<span>Arrived at <a href=" +:+ dquote +:+ href
                               +:+ dquote +:+ ">" +:+ name +:+ "</a></span>"))]).

Definition leave `{Platform} (this : t) (place : value) : M value :=
  let place := or_default place (Activities.place this) in
  let+ id := get (actor this) "id" in
  let+ followers := get (actor this) "followers" in
  let+ placeUrl := get place "url" in
  let+ href := ToString placeUrl in
  let+ placeName := get place "name" in
  let+ name := ToString placeName in
  postActivity this
    (VObj [("type", VStr "Leave");
           ("actor", id);
           ("target", place);
           ("to", followers);
           ("summary", VStr ("<span>Left <a href=" +:+ dquote +:+ href
                               +:+ dquote +:+ ">" +:+ name +:+ "</a></span>"))]).

Definition block `{Platform} (this : t) (blockeeId : value) : M value :=
  let+ id := get (actor this) "id" in
  postActivity this
    (VObj [("type", VStr "Block");
           ("actor", id);
           ("object", blockeeId)]).

(** The continuation of [create] treats what [postActivity] resolved
    to, the [Location] header, as a response: its [ok] is never truthy,
    and on the other branch [res.headers] has no [get] to call. *)
Definition create `{Platform} (this : t) (object : value) : M value :=
  let+ id := get (actor this) "id" in
  let* res :=
    postActivity this
      (VObj [("type", VStr "Create");
             ("actor", id);
             ("object", object)]) in
  let+ resOk := get res "ok" in
  if negb (truthy resOk)
  then throw (Error "Error creating")
  else
    let+ resHeaders := get res "headers" in
    throw TypeError.

Definition follow `{Platform} (this : t) (targetId : value) : M value :=
  let+ id := get (actor this) "id" in
  postActivity this
    (VObj [("type", VStr "Follow");
           ("actor", id);
           ("object", targetId);
           ("to", targetId);
           ("summary", VStr "<span>Sent you a friend request</span>")]).

Definition friends `{Platform} (this : t) : M value :=
  let+ endpoints := get (actor this) "endpoints" in
  let+ friendsEndpoint :=
    match get_opt endpoints "friends" with
    | VUndef | VNull =>
        let! id := get (actor this) "id" in
        let! address := ToString id in
        Ok (VStr (address +:+ "/friends"))
    | v => Ok v
    end in
  getObject this friendsEndpoint.

(** The recipients of a new object: a copy of the caller's array,
    extended according to the audience. *)
Definition addressees (this : t) (to : nat) (audience : value) : M (list value) :=
  let* copy := slice to in
  let* _ :=
    if is_str audience "friends" || is_str audience "public"
    then let+ followers := get (actor this) "followers" in push copy followers
    else ret tt in
  let* _ :=
    if is_str audience "public"
    then push copy (VStr PublicAddress)
    else ret tt in
  elements copy.

Definition with_summary (summary : value) : list (string * value) :=
  if truthy summary then [("summary", summary)] else [].

Definition image `{Platform} (this : t) (url : value) (to : nat) (audience summary : value)
  : M value :=
  let+ id := get (actor this) "id" in
  let* recipients := addressees this to audience in
  postActivity this
    (VObj ([("url", url);
            ("type", VStr "Image");
            ("attributedTo", id);
            ("context", place this);
            ("to", VArr recipients)] ++ with_summary summary)).

Definition note `{Platform} (this : t) (content : value) (to : nat) (audience summary : value)
  : M value :=
  let+ id := get (actor this) "id" in
  let* recipients := addressees this to audience in
  postActivity this
    (VObj ([("content", content);
            ("type", VStr "Note");
            ("attributedTo", id);
            ("context", place this);
            ("to", VArr recipients)] ++ with_summary summary)).

Definition model `{Platform} (this : t) (name glb icon : value) (to : nat) (audience : value)
  : M value :=
  let+ id := get (actor this) "id" in
  let* recipients := addressees this to audience in
  postMedia this
    (VObj [("name", name);
           ("type", VStr "Model");
           ("attributedTo", id);
           ("context", place this);
           ("to", VArr recipients)])
    glb icon.

Definition reject `{Platform} (this : t) (objectId recipientId : value) : M value :=
  let+ id := get (actor this) "id" in
  postActivity this
    (VObj [("type", VStr "Reject");
           ("actor", id);
           ("object", objectId);
           ("to", recipientId)]).

Definition undo `{Platform} (this : t) (activity : value) : M value :=
  let+ id := get (actor this) "id" in
  let+ activityId := get activity "id" in
  let+ activityTo := get activity "to" in
  postActivity this
    (VObj [("type", VStr "Undo");
           ("actor", id);
           ("object", activityId);
           ("to", activityTo)]).

Definition updateProfile `{Platform} (this : t) (update : value) : M value :=
  let+ id := get (actor this) "id" in
  let+ update := set update "id" id in
  let+ id := get (actor this) "id" in
  let+ followers := get (actor this) "followers" in
  postActivity this
    (VObj [("type", VStr "Update");
           ("actor", id);
           ("object", update);
           ("to", followers)]).

Definition video `{Platform} (this : t) (url : value) (to : nat) (audience summary : value)
  : M value :=
  let+ id := get (actor this) "id" in
  let* recipients := addressees this to audience in
  postActivity this
    (VObj ([("url", url);
            ("type", VStr "Video");
            ("attributedTo", id);
            ("context", place this);
            ("to", VArr recipients)] ++ with_summary summary)).

End Activities.

(** ** class ImmersClient: derivers, friend list, presence *)

Module ImmersClient.

Record Profile : Type := mkProfile {
  id : value;
  handle : string;
  homeImmer : string;
  displayName : value;
  username : value;
  avatarImage : value;
  avatarModel : value;
  url : value;
  collections : value
}.

Inductive RelationshipStatus : Type :=
| friend_online
| friend_offline
| request_received
| request_sent
| none.

Definition status_eqb (a b : RelationshipStatus) : bool :=
  match a, b with
  | friend_online, friend_online
  | friend_offline, friend_offline
  | request_received, request_received
  | request_sent, request_sent
  | none, none => true
  | _, _ => false
  end.

(** [_activity] is the property added with [Object.defineProperty]. *)
Record FriendStatus : Type := mkFriendStatus {
  profile : Profile;
  isOnline : bool;
  locationName : value;
  locationURL : value;
  status : RelationshipStatus;
  statusString : string;
  __unsafeStatusHTML : string;
  statusHTML : string;
  _activity : value
}.

(** [new Date(v)], of the primitive that [v] was made into, or
    [new Date()]. *)
Inductive Date : Type :=
| DateOf (v : value)
| DateNow.

Inductive MessageType : Type := chat | media | status_ | other.

Record Message : Type := mkMessage {
  msg_id : value;
  type : MessageType;
  sender : Profile;
  timestamp : Date;
  mediaType : option string;
  msg_url : option value;
  __unsafeMessageHTML : value;
  messageHTML : string
}.

(** [prop?.url?.href ?? prop?.url ?? prop] *)
Definition URLFromProperty (prop : value) : value :=
  nullish (nullish (get_opt (get_opt prop "url") "href") (get_opt prop "url")) prop.

(** Destructuring [undefined] or [null] throws; so does [new URL] on
    an id that cannot be printed or does not print as a URL; so does
    the template of the handle on a username that cannot be printed. *)
Definition ProfileFromActor `{Platform} (actor : value) : Result Profile :=
  let! id := get actor "id" in
  let! displayName := get actor "name" in
  let! username := get actor "preferredUsername" in
  let! icon := get actor "icon" in
  let! avatar := get actor "avatar" in
  let! url := get actor "url" in
  let! address := ToString id in
  let! homeImmer :=
    match URL_host address with
    | Some host => Ok host
    | None => Throw TypeError
    end in
  let! name := ToString username in
  let! streams := get actor "streams" in
  Ok {| id := id;
        handle := name +:+ "[" +:+ homeImmer +:+ "]";
        homeImmer := homeImmer;
        displayName := displayName;
        username := username;
        avatarImage := URLFromProperty icon;
        avatarModel := URLFromProperty avatar;
        url := nullish url id;
        collections := streams |}.

Definition span (s : string) : string := "<span>" +:+ s +:+ "</span>".

Definition FriendStatusFromActivity `{Platform} (activity : value) : Result FriendStatus :=
  let! target := get activity "target" in
  let locationName := get_opt target "name" in
  let locationURL := get_opt target "url" in
  let! actor := get activity "actor" in
  let! activityType := get activity "type" in
  let! lowered := toLowerCase activityType in
  let! derived :=
    if (lowered =? "arrive")%string then
      let! name := ToString locationName in
      let! href := ToString locationURL in
      Ok (friend_online,
          "Online at " +:+ name +:+ " (" +:+ href +:+ ")",
          "<span>Online at <a href=" +:+ dquote +:+ href +:+ dquote
            +:+ ">" +:+ name +:+ "</a></span>",
          actor)
    else if (lowered =? "leave")%string || (lowered =? "accept")%string then
      Ok (friend_offline, "Offline", span "Offline", actor)
    else if (lowered =? "follow")%string then
      let! actorId := get actor "id" in
      if truthy actorId then
        Ok (request_received, "Sent you a friend request",
            span "Sent you a friend request", actor)
      else
        let! object := get activity "object" in
        if truthy (get_opt object "id") then
          Ok (request_sent, "You sent a friend request",
              span "You sent a friend request", object)
        else Ok (none, EmptyString, "<span></span>", actor)
    else Ok (none, EmptyString, "<span></span>", actor) in
  let '(status, statusString, unsafeHTML, actor) := derived in
  let! profile := ProfileFromActor actor in
  let! safeHTML := sanitize (VStr unsafeHTML) in
  Ok {| profile := profile;
        isOnline := status_eqb status friend_online;
        locationName := locationName;
        locationURL := locationURL;
        status := status;
        statusString := statusString;
        __unsafeStatusHTML := unsafeHTML;
        statusHTML := safeHTML;
        _activity := activity |}.

(** The fields the [switch] of [MessageFromActivity] assigns. *)
Record Content : Type := mkContent {
  c_type : MessageType;
  c_mediaType : option string;
  c_url : option value;
  c_html : value
}.

Definition MessageFromActivity `{Platform} (activity : value) : Result (option Message) :=
  let! id := get activity "id" in
  let! actor := get activity "actor" in
  let! sender := ProfileFromActor actor in
  let! published := get activity "published" in
  let! timestamp :=
    if truthy published
    then let! instant := ToPrimitive published in Ok (DateOf instant)
    else Ok DateNow in
  let! object := get activity "object" in
  let! content := get activity "content" in
  let html := or_else (get_opt object "content") content in
  let! activityType := get activity "type" in
  let! summary := get activity "summary" in
  let! c :=
    if is_str activityType "Create" then
      let objectType := get_opt object "type" in
      if is_str objectType "Note" then
        let! noteContent := get object "content" in
        Ok (mkContent chat None None noteContent)
      else if is_str objectType "Image" then
        let! objectUrl := get object "url" in
        let! src := ToString objectUrl in
        Ok (mkContent media (Some "image") (Some objectUrl)
              (VStr ("<img class=" +:+ dquote +:+ "immers-message-media" +:+ dquote
                       +:+ " src=" +:+ src
                       +:+ " crossorigin=" +:+ dquote +:+ "anonymous" +:+ dquote +:+ ">")))
      else if is_str objectType "Video" then
        let! objectUrl := get object "url" in
        let! src := ToString objectUrl in
        Ok (mkContent media (Some "video") (Some objectUrl)
              (VStr ("<video class=" +:+ dquote +:+ "immers-message-media" +:+ dquote
                       +:+ " controls autplay muted plasinline src=" +:+ src
                       +:+ " crossorigin=" +:+ dquote +:+ "anonymous" +:+ dquote +:+ ">")))
      else Ok (mkContent other None None html)
    else if is_str activityType "Arrive" || is_str activityType "Leave" then
      Ok (mkContent status_ None None summary)
    else if is_str activityType "Follow" then
      let! inReplyTo := get activity "inReplyTo" in
      if negb (truthy inReplyTo)
      then Ok (mkContent status_ None None
                 (or_else summary (VStr "<span>Sent you a friend request</span>")))
      else Ok (mkContent other None None html)
    else if is_str activityType "Accept" then
      Ok (mkContent status_ None None
            (or_else summary (VStr "<span>Accepted your friend request</span>")))
    else Ok (mkContent other None None summary) in
  if negb (truthy (c_html c))
  then Ok None
  else
    let! safeHTML := sanitize (c_html c) in
    Ok (Some {| msg_id := id;
                type := c_type c;
                sender := sender;
                timestamp := timestamp;
                mediaType := c_mediaType c;
                msg_url := c_url c;
                __unsafeMessageHTML := c_html c;
                messageHTML := safeHTML |}).

(** The activity kept in a status is never [undefined] or [null]
    (deriving the status read its properties), so reading [published]
    from it does not throw. *)
Definition published (a : FriendStatus) : value :=
  get_opt (_activity a) "published".

Definition FriendsSorter `{Platform} (a b : FriendStatus) : Result Z :=
  if status_eqb (status a) friend_online && negb (status_eqb (status b) friend_online)
  then Ok (-1)%Z
  else if status_eqb (status b) friend_online && negb (status_eqb (status a) friend_online)
  then Ok 1%Z
  else if strict_eq (published a) (published b)
  then Ok 0%Z
  else
    let! later := gt (published a) (published b) in
    Ok (if later then (-1)%Z else 1%Z).

(** Modelled from the spec: the real-time channel of streaming.js,
    which is not among the sources: its [connected] flag, the armed
    leave-on-disconnect obligation, and whether [enterBound] is
    registered for the connect notification. *)
Record Socket : Type := mkSocket {
  sock_connected : bool;
  leaveOnDisconnect : option (value * value);
  onConnect : bool
}.

Record Credential : Type := mkCredential {
  cred_token : value;
  cred_homeImmer : string;
  authorizedScopes : list string
}.

(** The instance fields and the store: [credential] and [friends] are
    [#store.credential] and [#store.friends]. *)
Record t : Type := mk {
  activities : option Activities.t;
  streaming : option Socket;
  connected : bool;
  place : value;
  localImmer : option string;
  credential : option Credential;
  friends : list FriendStatus
}.

Definition CM (A : Type) : Type := ST (t * World) A.

Definition this : CM t := fun s => (Ok (fst s), s).

Definition update (f : t -> t) : CM unit := fun s => (Ok tt, (f (fst s), snd s)).

Definition io {A} (m : M A) : CM A :=
  fun s => let (r, w) := m (snd s) in (r, (fst s, w)).

(** Reading a property of a field that is [undefined] throws. *)
Definition defined {A} (field : option A) : CM A :=
  match field with
  | Some a => ret a
  | None => throw TypeError
  end.

Definition set_place (p : value) (c : t) : t :=
  mk (option_map (fun a => Activities.set_place a p) (activities c))
     (streaming c) (connected c) p (localImmer c) (credential c) (friends c).

Definition set_streaming (k : Socket) (c : t) : t :=
  mk (activities c) (Some k) (connected c) (place c) (localImmer c)
     (credential c) (friends c).

Definition set_friends (l : list FriendStatus) (c : t) : t :=
  mk (activities c) (streaming c) (connected c) (place c) (localImmer c)
     (credential c) l.

(** The own enumerable properties of a source of [Object.assign], in
    order: those of an object; the elements of an array and the
    characters of a string under their indices; [undefined], [null],
    numbers and booleans have none. *)
Definition own_properties (source : value) : list (string * value) :=
  match source with
  | VObj props => props
  | VArr xs => indexed 0 xs
  | VStr s => indexed 0 (characters s)
  | _ => []
  end.

(** [Object.assign(target, source)] onto a target that is an object.
    On [undefined] and [null] it throws; a target that is an array or
    a primitive comes back as an array with extra properties or as a
    wrapper object, which the data of the model does not carry: there
    the target is given back as it was. *)
Definition assign (target source : value) : Result value :=
  match target with
  | VUndef | VNull => Throw TypeError
  | VObj fields =>
      Ok (VObj (fold_left (fun acc kv => assoc_set (fst kv) (snd kv) acc)
                  (own_properties source) fields))
  | _ => Ok target
  end.

Definition fetch_json `{Platform} (url : value) : M value :=
  let* res := fetch (mkRequest url GET [("Accept", Activities.JSONLDMime)] NoBody) in
  res_json res.

(** [p.catch(() => v)] *)
Definition catch {A} (m : M A) (v : A) : M A :=
  fun w =>
    match m w with
    | (Ok a, w') => (Ok a, w')
    | (Throw _, w') => (Ok v, w')
    end.

Definition setPlaceFromDestination `{Platform} (destinationDescription : value) : CM unit :=
  let* c := this in
  let* newPlace :=
    match destinationDescription with
    | VStr _ => io (fetch_json destinationDescription)
    | _ =>
        let defaultPlace :=
          VObj [("type", VStr "Place"); ("audience", VStr Activities.PublicAddress)] in
        let* basePlace :=
          match localImmer c with
          | Some l =>
              if truthy (VStr l)
              then io (catch (fetch_json (VStr (getURLPart l "origin" +:+ "/o/immer")))
                             defaultPlace)
              else ret defaultPlace
          | None => ret defaultPlace
          end in
        lift (assign basePlace destinationDescription)
    end in
  update (set_place newPlace).

Definition authorized `{Platform} (c : t) : CM bool :=
  let* cred := defined (credential c) in
  ret (existsb (String.eqb postLocation) (authorizedScopes cred)).

Definition not_authorized : string := "Not sharing location because not authorized".

Definition enter `{Platform} (destinationDescription : value) : CM unit :=
  let* _ :=
    if truthy destinationDescription
    then setPlaceFromDestination destinationDescription
    else ret tt in
  let* c := this in
  if negb (connected c)
  then throw (Error "Immers login required to udpate location")
  else
    let* allowed := authorized c in
    if negb allowed
    then io (log not_authorized)
    else
      let* acts := defined (activities c) in
      let actor := Activities.actor acts in
      let* sock := defined (streaming c) in
      let* sock :=
        if sock_connected sock
        then
          let* _ := io (Activities.arrive acts VUndef) in
          ret (mkSocket (sock_connected sock) (Some (actor, place c)) (onConnect sock))
        else ret sock in
      update (set_streaming (mkSocket (sock_connected sock) (leaveOnDisconnect sock) true)).

Definition exit `{Platform} : CM unit :=
  let* c := this in
  if negb (connected c)
  then throw (Error "Immers login required to update location")
  else
    let* allowed := authorized c in
    if negb allowed
    then io (log not_authorized)
    else
      let* acts := defined (activities c) in
      let* _ := io (Activities.leave acts VUndef) in
      let* sock := defined (streaming c) in
      update (set_streaming (mkSocket (sock_connected sock) None false)).

Definition move `{Platform} (destinationDescription : value) : CM unit :=
  let* c := this in
  if negb (connected c)
  then throw (Error "Immers login required to update location")
  else
    let* allowed := authorized c in
    if negb allowed
    then io (log not_authorized)
    else
      let* _ := exit in
      enter destinationDescription.

(** [x.map(f)] is defined on arrays only. *)
Definition items (v : value) : Result (list value) :=
  match v with
  | VArr xs => Ok xs
  | _ => Throw TypeError
  end.

(** The filter reads [activity.type] of items on which the first
    [map] has already succeeded, so the read does not throw. *)
Definition friendsList `{Platform} : CM (list FriendStatus) :=
  let* c := this in
  let* acts := defined (activities c) in
  let* friendsCol := io (Activities.friends acts) in
  let+ orderedItems := get friendsCol "orderedItems" in
  let+ activities := items orderedItems in
  let+ all := mapR FriendStatusFromActivity activities in
  let* _ := update (set_friends all) in
  let kept := List.filter (fun activity => negb (is_str (get_opt activity "type") "Reject"))
                activities in
  let+ statuses := mapR FriendStatusFromActivity kept in
  lift (sort FriendsSorter statuses).

End ImmersClient.

(** ** The posting operations as one family *)

Module Calls.
Import Activities.

Inductive PostingCall : Type :=
| Accept (follow : value)
| Add (activity target : value)
| Arrive (place : value)
| Leave (place : value)
| Block (blockeeId : value)
| Create (object : value)
| Follow (targetId : value)
| Reject (objectId recipientId : value)
| Undo (activity : value)
| UpdateProfile (update : value)
| Note (content : value) (to : nat) (audience summary : value)
| Image (url : value) (to : nat) (audience summary : value)
| Video (url : value) (to : nat) (audience summary : value)
| Model (name glb icon : value) (to : nat) (audience : value).

Definition perform `{Platform} (this : Activities.t) (c : PostingCall) : M value :=
  match c with
  | Accept f => accept this f
  | Add a tgt => add this a tgt
  | Arrive p => arrive this p
  | Leave p => leave this p
  | Block b => block this b
  | Create o => create this o
  | Follow tgt => follow this tgt
  | Reject o r => reject this o r
  | Undo a => undo this a
  | UpdateProfile u => updateProfile this u
  | Note c to aud s => note this c to aud s
  | Image u to aud s => image this u to aud s
  | Video u to aud s => video this u to aud s
  | Model n g i to aud => model this n g i to aud
  end.

(** The methods that post an activity literal, as opposed to a bare
    object to be wrapped by the server. *)
Definition builds_activity (c : PostingCall) : bool :=
  match c with
  | Note _ _ _ _ | Image _ _ _ _ | Video _ _ _ _ | Model _ _ _ _ _ => false
  | _ => true
  end.

(** The requests made between two states of the world. *)
Definition sent (w w' : World) : list request :=
  drop (length (net_log w)) (net_log w').

(** The value a request carries as its activity or object. *)
Definition carried (r : request) : option value :=
  match body r with
  | JSONBody v => Some v
  | FormData parts => assoc "object" parts
  | _ => None
  end.

(** The address of the caller's [to] array, for the calls that take one. *)
Definition recipients_arg (c : PostingCall) : option nat :=
  match c with
  | Note _ to _ _ | Image _ to _ _ | Video _ to _ _ | Model _ _ _ to _ => Some to
  | _ => None
  end.

(** What a computation may do to the world: every request it adds to
    the log satisfies [P], and the arrays that existed before are as
    they were. *)
Definition effect (P : request -> Prop) {A} (m : M A) : Prop :=
  forall w,
    (exists rs, net_log (snd (m w)) = net_log w ++ rs /\ Forall P rs)
    /\ length (arrays w) <= length (arrays (snd (m w)))
    /\ forall l, l < length (arrays w) -> arrays (snd (m w)) !! l = arrays w !! l.

(** The property of design invariant C2 for one request of call [c]:
    the posted value is an object whose [actor] is the session actor's
    id when [c] builds an activity, and which has no [actor] but an
    [attributedTo] of that id when [c] builds a bare object. *)
Definition names_actor (this : Activities.t) (c : PostingCall) (r : request) : Prop :=
  exists fields id,
    carried r = Some (VObj fields)
    /\ get (actor this) "id" = Ok id
    /\ if builds_activity c
       then assoc "actor" fields = Some id
       else assoc "actor" fields = None /\ assoc "attributedTo" fields = Some id.

End Calls.

(** ** A concrete environment, to run the definitions on examples *)

Module Example.

Definition delimiter (c : ascii) : bool :=
  (c =? "/")%char || (c =? "?")%char || (c =? "#")%char.

Fixpoint authority (s : string) : string :=
  match s with
  | EmptyString => EmptyString
  | String c rest => if delimiter c then EmptyString else String c (authority rest)
  end.

Fixpoint after_userinfo (acc s : string) : string :=
  match s with
  | EmptyString => acc
  | String c rest =>
      if (c =? "@")%char then after_userinfo EmptyString rest
      else after_userinfo (acc +:+ String c EmptyString) rest
  end.

(** A URL of the shape [scheme://userinfo@host/...] split into scheme
    and host; hosts are not case-folded and default ports are kept. *)
Definition url_parts (s : string) : option (string * string) :=
  match String.index 0 "://" s with
  | Some (S n) =>
      let rest := String.substring (S n + 3) (String.length s - (S n + 3)) s in
      let host := after_userinfo EmptyString (authority rest) in
      if (host =? EmptyString)%string then None
      else Some (String.substring 0 (S n) s, host)
  | _ => None
  end.

Definition url_host (s : string) : option string :=
  option_map snd (url_parts s).

Definition url_origin (s : string) : option string :=
  option_map (fun p => fst p +:+ "://" +:+ snd p) (url_parts s).

Definition url_part (s part : string) : string :=
  if (part =? "origin")%string then default s (url_origin s)
  else default s (url_host s).

(** An integer in exponent form, by its digits as they stand. *)
Fixpoint strip_zeros (rev_digits : string) : string :=
  match rev_digits with
  | String "0" rest => strip_zeros rest
  | _ => rev_digits
  end.

Fixpoint reverse (s acc : string) : string :=
  match s with
  | EmptyString => acc
  | String c rest => reverse rest (String c acc)
  end.

Definition exponent_form (n : Z) : string :=
  let digits := string_of_Z (Z.abs n) in
  let sign := if (n <? 0)%Z then "-" else EmptyString in
  let exponent := string_of_Z (Z.of_nat (String.length digits - 1)) in
  match digits with
  | EmptyString => digits
  | String d rest =>
      let fraction := reverse (strip_zeros (reverse rest EmptyString)) EmptyString in
      sign +:+ String d EmptyString
        +:+ (if (fraction =? EmptyString)%string then EmptyString else "." +:+ fraction)
        +:+ "e+" +:+ exponent
  end.

(** An engine that sorts by insertion whatever the comparator, and
    throws what the first failing comparison throws. *)
Fixpoint insert_by {A} (cmp : A -> A -> Result Z) (x : A) (sorted : list A)
  : Result (list A) :=
  match sorted with
  | [] => Ok [x]
  | y :: rest =>
      let! z := cmp x y in
      if (z <=? 0)%Z then Ok (x :: y :: rest)
      else
        let! placed := insert_by cmp x rest in
        Ok (y :: placed)
  end.

Definition insertion_sort (A : Type) (cmp : A -> A -> Result Z) (xs : list A)
  : Result (list A) :=
  foldr (fun x sorted => let! sorted := sorted in insert_by cmp x sorted) (Ok []) xs.

(** A browser whose sanitizer lets through the text of what it is
    given, with that engine, talking to the given server. *)

Definition browser (srv : list request -> request -> option response) : Platform :=
  {| server := srv;
     sanitize := print exponent_form;
     URL_host := url_host;
     getURLPart := url_part;
     postLocation := "postLocation";
     loose_gt := fun _ _ => false;
     exponential := exponent_form;
     engine_sort := insertion_sort |}.

Definition offline : Platform := browser (fun _ _ => None).

Definition alice : value :=
  VObj [("id", VStr "https://home.example/u/alice");
        ("preferredUsername", VStr "alice");
        ("inbox", VStr "https://home.example/inbox/alice");
        ("outbox", VStr "https://home.example/outbox/alice");
        ("followers", VStr "https://home.example/followers/alice")].

Definition venue : value :=
  VObj [("id", VStr "https://venue.example/");
        ("type", VStr "Place");
        ("name", VStr "Venue");
        ("url", VStr "https://venue.example/")].

Definition session : Activities.t :=
  Activities.mk alice "https://home.example" venue (VStr "t0k3n") None VNull VNull.

Definition empty : World := mkWorld [] [] [].

(** A server that accepts every request and names the new resource. *)
Definition accepting : Platform :=
  browser (fun _ _ =>
    Some (mkResponse true 201 "[object ReadableStream]" EmptyString (Some VNull)
            (VStr "https://home.example/s/99"))).

(** A world in which the caller holds one array, at address 0. *)
Definition with_array (xs : list value) : World := mkWorld [] [] [xs].

Definition bob : value := VStr "https://other.example/u/bob".

Definition carol : value :=
  VObj [("id", VStr "https://other.example/u/carol");
        ("preferredUsername", VStr "carol")].

Definition carol_profile : ImmersClient.Profile :=
  ImmersClient.mkProfile (VStr "https://other.example/u/carol") "carol[other.example]"
    "other.example" VUndef (VStr "carol") VUndef VUndef
    (VStr "https://other.example/u/carol") VUndef.

(** An arrival whose type is spelled in capitals. *)
Definition arrival : value :=
  VObj [("id", VStr "https://other.example/s/7");
        ("type", VStr "ARRIVE");
        ("actor", carol);
        ("target", venue);
        ("published", VStr "2022-05-11T10:00:00.000Z")].

(** A chat message that names no actor, and an activity with no type. *)
Definition anonymous_note : value :=
  VObj [("id", VStr "https://other.example/s/8");
        ("type", VStr "Create");
        ("object", VObj [("type", VStr "Note"); ("content", VStr "hello")])].

Definition untyped : value :=
  VObj [("id", VStr "https://other.example/s/9");
        ("actor", carol)].

(** An automated follow-back, marked by [inReplyTo], that carries text. *)
Definition follow_back : value :=
  VObj [("id", VStr "https://other.example/s/10");
        ("type", VStr "Follow");
        ("actor", carol);
        ("object", VStr "https://home.example/u/alice");
        ("inReplyTo", VStr "https://home.example/s/3");
        ("content", VStr "Following you back")].

(** A logged-in client whose token does not cover posting the location. *)
Definition visitor : ImmersClient.t :=
  ImmersClient.mk (Some session) (Some (ImmersClient.mkSocket true None false)) true
    venue None
    (Some (ImmersClient.mkCredential (VStr "t0k3n") "https://home.example"
             ["viewProfile"; "viewFriends"]))
    [].

Definition friend_activity (n type time : string) (who : value) : value :=
  VObj [("id", VStr ("https://other.example/s/" +:+ n));
        ("type", VStr type);
        ("actor", who);
        ("target", venue);
        ("published", VStr time)].

Definition dave : value :=
  VObj [("id", VStr "https://other.example/u/dave"); ("preferredUsername", VStr "dave")].
Definition erin : value :=
  VObj [("id", VStr "https://other.example/u/erin"); ("preferredUsername", VStr "erin")].
Definition frank : value :=
  VObj [("id", VStr "https://other.example/u/frank"); ("preferredUsername", VStr "frank")].

(** The friends collection of the ordering example of the design
    document, with a rejected relationship added. *)
Definition friends_items : list value :=
  [friend_activity "1" "Leave" "2022-05-11T10:00:00Z" carol;
   friend_activity "2" "Arrive" "2022-05-11T11:00:00Z" dave;
   friend_activity "5" "Reject" "2022-05-11T14:00:00Z" frank;
   friend_activity "3" "Arrive" "2022-05-11T12:00:00Z" erin;
   VObj [("id", VStr "https://home.example/s/4");
         ("type", VStr "Follow");
         ("actor", VStr "https://home.example/u/alice");
         ("object", frank);
         ("published", VStr "2022-05-11T13:00:00Z")]].

Definition friends_collection : value := VObj [("orderedItems", VArr friends_items)].

Definition befriended : Platform :=
  browser (fun _ _ => Some (mkResponse true 200 "[object ReadableStream]" EmptyString
                              (Some friends_collection) VNull)).

Definition json_ok (v : value) : response :=
  mkResponse true 200 "[object ReadableStream]" EmptyString (Some v) VNull.

Definition inbox_first : string := "https://home.example/inbox/alice?page=1".
Definition outbox_first : string := "https://home.example/outbox/alice?page=1".

Definition greeting : value :=
  VObj [("id", VStr "https://home.example/s/1");
        ("type", VStr "Create");
        ("object", VObj [("type", VStr "Note"); ("content", VStr "hello")])].

Definition last_page : value := VObj [("orderedItems", VArr [greeting])].

(** A server whose inbox and outbox roots carry only a [first] link to
    a single page that has no [next]. *)
Definition paged : Platform :=
  browser (fun _ r =>
    match url r with
    | VStr u =>
        if (u =? "https://home.example/inbox/alice")%string
        then Some (json_ok (VObj [("type", VStr "OrderedCollection");
                                  ("first", VStr inbox_first)]))
        else if (u =? "https://home.example/outbox/alice")%string
        then Some (json_ok (VObj [("type", VStr "OrderedCollection");
                                  ("first", VStr outbox_first)]))
        else if (u =? inbox_first)%string || (u =? outbox_first)%string
        then Some (json_ok last_page)
        else None
    | _ => None
    end).

End Example.

(** ** source/activities.js: Activities.blockList *)

Module Blocklist.
Import Activities.

(** [v?.length]: arrays and strings have a length, an object has
    one if it has a property of that name. *)
Definition length_opt (v : value) : value :=
  match v with
  | VArr xs => VNum (Z.of_nat (length xs))
  | VStr s => VNum (Z.of_nat (String.length s))
  | VObj _ => get_opt v "length"
  | _ => VUndef
  end.

(** [...v] in an argument list: arrays and strings can be spread, the
    other values are not iterable. *)
Definition spread (v : value) : Result (list value) :=
  match v with
  | VArr xs => Ok xs
  | VStr s => Ok (characters s)
  | _ => Throw TypeError
  end.

(** [typeof b === 'object' ? b.id : b]; [null] and arrays are objects
    to [typeof]. *)
Definition blockee (b : value) : Result value :=
  match b with
  | VNull | VArr _ | VObj _ => get b "id"
  | _ => Ok b
  end.

(** The [while (col.next)] loop.  A server can chain pages without
    end, so the loop runs on fuel; [None] is fuel run out. *)
Fixpoint drain `{Platform} (fuel : nat) (this : Activities.t) (col : value)
    (blocked : list value) : M (option (list value)) :=
  let+ next := get col "next" in
  if truthy next
  then
    match fuel with
    | O => ret None
    | S fuel' =>
        let* col := getObject this next in
        let+ orderedItems := get col "orderedItems" in
        if negb (truthy (length_opt orderedItems))
        then ret (Some blocked)
        else
          let+ more := spread orderedItems in
          drain fuel' this col (blocked ++ more)
    end
  else ret (Some blocked).

Definition warning : string := "Unable to fetch blocklist: ".

(** [console.warn] is recorded by its first argument. *)
Definition blockList `{Platform} (fuel : nat) (this : Activities.t)
  : M (option (list value)) :=
  let+ streams := get (actor this) "streams" in
  let+ blockedIRI :=
    let listed := get_opt streams "blocked" in
    if truthy listed then Ok listed
    else
      let! preferredUsername := get (actor this) "preferredUsername" in
      let! username := ToString preferredUsername in
      Ok (VStr (homeImmer this +:+ "/blocked/" +:+ username)) in
  fun w =>
    match getObject this blockedIRI w with
    | (Throw _, w') => (let* _ := log warning in ret (Some [])) w'
    | (Ok col, w') =>
        (let+ orderedItems := get col "orderedItems" in
         let* page :=
           if truthy (length_opt orderedItems)
           then
             let+ items := spread orderedItems in
             ret (col, items)
           else
             let+ first := get col "first" in
             let* col := getObject this first in
             let+ orderedItems := get col "orderedItems" in
             let+ items := spread orderedItems in
             ret (col, items) in
         let* drained := drain fuel this (fst page) (snd page) in
         match drained with
         | None => ret None
         | Some blocked =>
             let+ ids := mapR blockee blocked in
             ret (Some ids)
         end) w'
    end.

End Blocklist.

(** ** class ImmersClient: messages, profile updates, lookups, friends *)

Module Client.
Import ImmersClient.

(** A fresh array, as the default [to = []] of a parameter makes. *)
Definition alloc (xs : list value) : M nat :=
  fun w => (Ok (length (arrays w)), mkWorld (net_log w) (console w) (arrays w ++ [xs])).

(** [this.activities.m(...)]: the lookup of [m] throws when
    [this.activities] is [undefined]. *)
Definition activities_of (c : ImmersClient.t) : Result Activities.t :=
  match activities c with
  | Some acts => Ok acts
  | None => Throw TypeError
  end.

(** [to] is [None] when the caller leaves the argument out. *)
Definition sendChatMessage `{Platform} (c : ImmersClient.t) (content privacy : value)
    (to : option nat) : M value :=
  let* to :=
    match to with
    | Some l => ret l
    | None => alloc []
    end in
  let+ acts := activities_of c in
  let+ clean := sanitize content in
  Activities.note acts (VStr clean) to privacy VUndef.

Definition updateProfileInfo `{Platform} (c : ImmersClient.t) (info : value) : M value :=
  let+ displayName := get info "displayName" in
  let+ bio := get info "bio" in
  let update :=
    (if truthy displayName then [("name", displayName)] else [])
    ++ (if truthy bio then [("summary", bio)] else []) in
  if truthy displayName || truthy bio
  then
    let+ acts := activities_of c in
    Activities.updateProfile acts (VObj update)
  else ret VUndef.

Definition useAvatar `{Platform} (c : ImmersClient.t) (avatar : value) : M value :=
  let* avatar :=
    match avatar with
    | VStr _ =>
        let+ acts := activities_of c in
        Activities.getObject acts avatar
    | _ => ret avatar
    end in
  let+ inner := get avatar "object" in
  let avatar := if truthy inner then inner else avatar in
  if negb (truthy (URLFromProperty (get_opt avatar "url")))
  then throw (Error "Invalid avatar")
  else
    let+ avatarIcon := get avatar "icon" in
    let icon := URLFromProperty avatarIcon in
    let profileUpdate :=
      ("avatar", avatar) :: (if truthy icon then [("icon", icon)] else []) in
    let+ acts := activities_of c in
    Activities.updateProfile acts (VObj profileUpdate).

Definition proxy_failed : string := "Home immer CORS proxy failed".
Definition no_proxy : string :=
  "No local immer nor user-provided proxy available, attempting normal fetch".

(** [headers] is what the caller hands over to be the [headers] of the
    request.  With a home proxy advertised, the [try] block first reads
    [this.store.credential.token]; the class keeps its store in the
    private [#store] and has no property [store], so that read throws
    and the [catch] logs it, before any request is made.  The console
    calls are recorded by their first argument, without the text of
    the error. *)
Definition corsProxyFetch `{Platform} (c : ImmersClient.t) (url : value)
    (headers : list (string * string)) : M response :=
  let l := default EmptyString (localImmer c) in
  if truthy (VStr l)
  then
    match url with
    | VStr u =>
        fetch (mkRequest
                 (if String.prefix ("https://" +:+ l) u then url
                  else VStr ("https://" +:+ l +:+ "/proxy/" +:+ u))
                 GET headers NoBody)
    | _ => throw TypeError
    end
  else
    let homeProxy :=
      match activities c with
      | Some acts => get_opt (get_opt (Activities.actor acts) "endpoints") "proxyUrl"
      | None => VUndef
      end in
    let* _ := if truthy homeProxy then log proxy_failed else ret tt in
    let* _ := log no_proxy in
    fetch (mkRequest url GET headers NoBody).

Section Handles.

(** [parseHandle] of utils.js, taken as given: the username and the
    domain of a handle. *)
Variable parseHandle : value -> Result (value * value).

(** [links.find?.(l => l.rel === 'self')]: the callback reads [rel] of
    each link in turn. *)
Fixpoint find_self (links : list value) : Result value :=
  match links with
  | [] => Ok VUndef
  | l :: rest =>
      let! rel := get l "rel" in
      if is_str rel "self" then Ok l else find_self rest
  end.

(** [finger?.links?.find?.(...)?.href]: an array has the method; on
    an object, [find] is a property of its own or nothing, and a
    property that is there is not callable. *)
Definition self_link (finger : value) : Result value :=
  match get_opt finger "links" with
  | VArr links =>
      let! found := find_self links in
      Ok (get_opt found "href")
  | VObj fields =>
      match get_opt (VObj fields) "find" with
      | VUndef | VNull => Ok VUndef
      | _ => Throw TypeError
      end
  | _ => Ok VUndef
  end.

(** The line the [catch] of the lookup writes, up to the text of the
    error. *)
Definition webfinger_failed : string := "Could not resolve profile webfinger ".

(** The state of the lookups: the cache [#store.cachedHandleIRIs],
    which is [undefined] or an object keyed by handle, beside the
    world.  The cache holds what the lookups put there; a handle that
    spells a member of [Object.prototype] is outside the model. *)
Definition LM (A : Type) : Type := ST (option (list (string * value)) * World) A.

Definition world {A} (m : M A) : LM A :=
  fun s => let (r, w) := m (snd s) in (r, (fst s, w)).

(** [cache?.[handle]]: the handle is made a key only when there is a
    cache. *)
Definition cached `{Platform} (cache : option (list (string * value))) (handle : value)
  : Result value :=
  match cache with
  | None => Ok VUndef
  | Some entries =>
      let! key := ToString handle in
      Ok (default VUndef (assoc key entries))
  end.

(** The options object [{ headers: { Accept: 'application/json' } }]
    goes where [corsProxyFetch] expects the headers, so its one
    property, [headers], is sent as a header with the text of its
    value. *)
Definition resolveProfileIRI `{Platform} (c : ImmersClient.t) (handle : value) : LM value :=
  fun s =>
    match cached (fst s) handle with
    | Throw e => (Throw e, s)
    | Ok known =>
        if truthy known then (Ok known, s)
        else
          (let+ parsed := parseHandle handle in
           let+ username := ToString (fst parsed) in
           let+ immer := ToString (snd parsed) in
           let* finger :=
             world (fun w =>
               match (let* res :=
                        corsProxyFetch c
                          (VStr ("https://" +:+ immer
                                   +:+ "/.well-known/webfinger?resource=acct:"
                                   +:+ username +:+ "@" +:+ immer))
                          [("headers", "[object Object]")] in
                      res_json res) w with
               | (Ok v, w') => (Ok v, w')
               | (Throw _, w') => (let* _ := log webfinger_failed in ret VUndef) w'
               end) in
           let+ iri := self_link finger in
           if truthy iri
           then
             let+ key := ToString handle in
             fun s' =>
               (Ok iri, (Some (assoc_set key iri (default [] (fst s'))), snd s'))
           else ret iri) s
    end.

(** [friends?.find(status => status.profile.id === userId &&
    status.status === ...)] *)
Definition pending (c : ImmersClient.t) (userId : value) (s : RelationshipStatus)
  : option FriendStatus :=
  List.find (fun st => strict_eq (id (profile st)) userId && status_eqb (status st) s)
    (friends c).

Definition user_of `{Platform} (c : ImmersClient.t) (handle : value) : LM value :=
  let+ direct := startsWith handle "https://" in
  if direct then ret handle else resolveProfileIRI c handle.

Definition addFriend `{Platform} (c : ImmersClient.t) (handle : value) : LM value :=
  let* userId := user_of c handle in
  match pending c userId request_received with
  | Some pendingRequest =>
      let+ acts := activities_of c in
      world (Activities.accept acts (_activity pendingRequest))
  | None =>
      let+ acts := activities_of c in
      world (Activities.follow acts userId)
  end.

Definition removeFriend `{Platform} (c : ImmersClient.t) (handle : value) : LM value :=
  let* userId := user_of c handle in
  match pending c userId request_received with
  | Some pendingRequest =>
      let+ acts := activities_of c in
      let+ requestId := get (_activity pendingRequest) "id" in
      world (Activities.reject acts requestId userId)
  | None =>
      match pending c userId request_sent with
      | Some pendingOutgoingRequest =>
          let+ acts := activities_of c in
          world (Activities.undo acts (_activity pendingOutgoingRequest))
      | None =>
          let+ acts := activities_of c in
          world (Activities.reject acts userId userId)
      end
  end.

End Handles.

End Client.

(** ** Calls in sequence *)

Module Sequence.

(** [n] calls of [inbox] one after the other, each on the instance the
    previous one left: the pages returned, in order, and the instance
    after the last call. *)
Fixpoint inbox_times `{Platform} (n : nat) (this : Activities.t)
  : M (list value * Activities.t) :=
  match n with
  | O => ret ([], this)
  | S n' =>
      let* first := Activities.inbox this in
      let* rest := inbox_times n' (snd first) in
      ret (fst first :: fst rest, snd rest)
  end.

Fixpoint outbox_times `{Platform} (n : nat) (this : Activities.t)
  : M (list value * Activities.t) :=
  match n with
  | O => ret ([], this)
  | S n' =>
      let* first := Activities.outbox this in
      let* rest := outbox_times n' (snd first) in
      ret (fst first :: fst rest, snd rest)
  end.

(** The type and the target of the activity a request carries. *)
Definition announced (r : request) : option (value * value) :=
  match Calls.carried r with
  | Some v => Some (get_opt v "type", get_opt v "target")
  | None => None
  end.

(** The type, the object and the addressee of the activity a request
    carries. *)
Definition directed (r : request) : option (value * value * value) :=
  match Calls.carried r with
  | Some v => Some (get_opt v "type", get_opt v "object", get_opt v "to")
  | None => None
  end.

End Sequence.

(** ** Further examples *)

Module Example2.
Import Example.

(** A server whose collections come in one page that says [next: null]. *)
Definition null_page : value :=
  VObj [("orderedItems", VArr [greeting]); ("next", VNull)].

Definition restarting : Platform :=
  browser (fun _ _ => Some (json_ok null_page)).

Definition acceptance : value :=
  VObj [("id", VStr "https://other.example/s/11");
        ("type", VStr "Accept");
        ("actor", carol);
        ("object", VStr "https://home.example/s/3")].

(** A status with a chosen relationship and timestamp. *)
Definition status_at (s : ImmersClient.RelationshipStatus) (published : value)
  : ImmersClient.FriendStatus :=
  ImmersClient.mkFriendStatus carol_profile false VUndef VUndef s EmptyString
    EmptyString EmptyString (VObj [("published", published)]).

(** A friends collection in which a rejected relationship names no actor. *)
Definition spoiled_collection : value :=
  VObj [("orderedItems",
         VArr [friend_activity "1" "Leave" "2022-05-11T10:00:00Z" carol;
               VObj [("id", VStr "https://other.example/s/2"); ("type", VStr "Reject")]])].

Definition spoiled : Platform :=
  browser (fun _ _ => Some (json_ok spoiled_collection)).

(** A logged-in client that may post its location, with a live socket. *)
Definition resident : ImmersClient.t :=
  ImmersClient.mk (Some session) (Some (ImmersClient.mkSocket true None false)) true
    venue None
    (Some (ImmersClient.mkCredential (VStr "t0k3n") "https://home.example"
             ["viewProfile"; "postLocation"]))
    [].

(** A server that serves a blocklist of one address and one actor. *)
Definition blocked_page : value :=
  VObj [("orderedItems",
         VArr [VStr "https://spam.example/u/x";
               VObj [("id", VStr "https://spam.example/u/y"); ("type", VStr "Person")]])].

Definition blocking : Platform :=
  browser (fun _ _ => Some (json_ok blocked_page)).

Definition stranger : ImmersClient.t :=
  ImmersClient.mk None None false venue None None [].



(** A model, and the activity that created it. *)
Definition robot : value :=
  VObj [("type", VStr "Model"); ("url", VStr "https://home.example/m/1.glb")].

Definition robot_created : value :=
  VObj [("type", VStr "Create"); ("object", robot)].

(** A client with a local server. *)
Definition hosted : ImmersClient.t :=
  ImmersClient.mk None None false venue (Some "venue.example") None [].

(** A friend request from carol that waits for an answer, and a client
    that holds it. *)
Definition carol_request : value :=
  VObj [("id", VStr "https://other.example/s/20");
        ("type", VStr "Follow");
        ("actor", carol);
        ("to", VStr "https://home.example/u/alice")].

Definition waiting : ImmersClient.FriendStatus :=
  ImmersClient.mkFriendStatus carol_profile false VUndef VUndef
    ImmersClient.request_received "Sent you a friend request"
    "<span>Sent you a friend request</span>" "<span>Sent you a friend request</span>"
    carol_request.

Definition asked : ImmersClient.t :=
  ImmersClient.mk (Some session) None true venue None None [waiting].

(** A friend request to carol that she has not answered, and a client
    that holds it. *)
Definition own_request : value :=
  VObj [("id", VStr "https://home.example/s/30");
        ("type", VStr "Follow");
        ("actor", VStr "https://home.example/u/alice");
        ("object", carol);
        ("to", VStr "https://other.example/u/carol")].

Definition unanswered : ImmersClient.FriendStatus :=
  ImmersClient.mkFriendStatus carol_profile false VUndef VUndef
    ImmersClient.request_sent "You sent a friend request"
    "<span>You sent a friend request</span>" "<span>You sent a friend request</span>"
    own_request.

Definition asking : ImmersClient.t :=
  ImmersClient.mk (Some session) None true venue None None [unanswered].

(** A stand-in for [parseHandle] that reads every handle as carol's,
    and a server that answers every lookup with her webfinger document. *)
Definition carol_handle (_ : value) : Result (value * value) :=
  Ok (VStr "carol", VStr "other.example").

Definition finger_document : value :=
  VObj [("subject", VStr "acct:carol@other.example");
        ("links",
         VArr [VObj [("rel", VStr "http://webfinger.net/rel/profile-page");
                     ("href", VStr "https://other.example/@carol")];
               VObj [("rel", VStr "self");
                     ("href", VStr "https://other.example/u/carol")]])].

Definition fingering : Platform :=
  browser (fun _ _ => Some (json_ok finger_document)).


(** An arrival whose timestamp is an object with a property [toString]. *)
Definition stamped : value :=
  VObj [("id", VStr "https://other.example/s/12");
        ("type", VStr "Arrive");
        ("actor", carol);
        ("target", venue);
        ("summary", VStr "Arrived");
        ("published", VObj [("toString", VNum 0)])].



(** A server whose collection roots carry an empty list of items
    beside the [first] link to the page that has them. *)
Definition hollow_root : value :=
  VObj [("type", VStr "OrderedCollection");
        ("orderedItems", VArr []);
        ("first", VStr inbox_first)].

Definition hollow : Platform :=
  browser (fun _ r =>
    match url r with
    | VStr u =>
        if (u =? inbox_first)%string then Some (json_ok last_page)
        else Some (json_ok hollow_root)
    | _ => None
    end).

End Example2.

(** ** Vocabulary of the properties *)

(** [p] is an initial segment of [s]. *)
Definition starts_with (p s : string) : Prop := exists rest, s = p +:+ rest.

(** The activity embeds its actor as an object with a truthy id from
    which a profile can be built. *)
Definition identified `{Platform} (activity : value) : Prop :=
  exists actor id p,
    get activity "actor" = Ok actor
    /\ get actor "id" = Ok id /\ truthy id = true
    /\ ImmersClient.ProfileFromActor actor = Ok p.

(** The value holds no property called [toString], at any depth. *)
Fixpoint plain (v : value) : bool :=
  match v with
  | VArr xs => forallb plain xs
  | VObj fields =>
      match assoc "toString" fields with
      | Some _ => false
      | None => forallb (fun kv => match kv with (_, x) => plain x end) fields
      end
  | _ => true
  end.

(** The sanitizer returns on every value that holds no such property. *)
Definition sanitizer_returns `{Platform} : Prop :=
  forall v, plain v = true -> exists s, sanitize v = Ok s.

(** The activity has a string for its type. *)
Definition typed (activity : value) : Prop :=
  exists ty, get activity "type" = Ok (VStr ty).

Definition recognised (ty : string) : Prop :=
  lower ty = "arrive" \/ lower ty = "leave" \/ lower ty = "accept" \/ lower ty = "follow".


(** The activity of the status has a string for its [published]. *)
Definition timestamped (a : ImmersClient.FriendStatus) : Prop :=
  exists ts, get_opt (ImmersClient._activity a) "published" = VStr ts.

(** The token of the session, if it has one, can be printed. *)
Definition token_prints `{Platform} (this : Activities.t) : Prop :=
  truthy (Activities.token this) = true ->
  exists text, ToString (Activities.token this) = Ok text.

(** Two instances of the activity client that differ at most in their
    cursors. *)
Definition same_session (a b : Activities.t) : Prop :=
  Activities.actor a = Activities.actor b
  /\ Activities.homeImmer a = Activities.homeImmer b
  /\ Activities.place a = Activities.place b
  /\ Activities.token a = Activities.token b
  /\ Activities.localImmer a = Activities.localImmer b.


(** * Properties *)

Lemma append_String (c : ascii) (p rest : string) :
  String c p +:+ rest = String c (p +:+ rest).
Proof. reflexivity. Qed.

Lemma prefix_starts_with (p s : string) :
  String.prefix p s = true <-> starts_with p s.
Proof.
  revert s. induction p as [|c p IH]; intros s.
  - split; [intros _; exists s; reflexivity | intros _; destruct s; reflexivity].
  - destruct s as [|d s]; simpl.
    + split; [discriminate | intros [rest Hrest]; discriminate].
    + destruct (ascii_dec c d) as [->|Hne].
      * rewrite IH. split; intros [rest Hrest]; exists rest;
          rewrite append_String in *; congruence.
      * split; [discriminate | intros [rest Hrest]].
        rewrite append_String in Hrest. congruence.
Qed.

Section TrustRouter.

Import Activities.



End TrustRouter.

Section PostActivity.

Context `{Platform}.
Import Activities.

(** C3.  When the actor's outbox is not trusted, [postActivity] throws
    the invalid-outbox error and the world, the log of network
    requests included, is as before. *)
Theorem postActivity_untrusted_outbox (this : Activities.t) (activity outbox : value) (w : World) :
  get (actor this) "outbox" = Ok outbox ->
  trustedIRI this outbox = Ok false ->
  postActivity this activity w = (Throw (Error "Invalid outbox address"), w).
Proof.
  intros Hout Htrust. unfold postActivity, bind, lift, throw.
  rewrite Hout, Htrust. reflexivity.
Qed.

(** More generally, a request leaves only when the outbox is trusted;
    an actor without an outbox makes the trust check itself throw. *)
Lemma postActivity_io_only_when_trusted (this : Activities.t) (activity : value) (w : World) :
  snd (postActivity this activity w) <> w ->
  exists outbox,
    get (actor this) "outbox" = Ok outbox /\ trustedIRI this outbox = Ok true.
Proof.
  unfold postActivity, bind, lift, throw.
  destruct (get (actor this) "outbox") as [outbox|e]; simpl;
    [|intros Hne; contradiction].
  destruct (trustedIRI this outbox) as [[|]|e] eqn:Htrust; simpl;
    try (intros Hne; contradiction).
  intros _. exists outbox. auto.
Qed.

End PostActivity.

Lemma postActivity_untrusted_outbox_witness :
  @Activities.postActivity Example.offline
    (Activities.mk Example.alice "https://other.example" Example.venue VNull None VNull VNull)
    (VObj [("type", VStr "Block")]) Example.empty
  = (Throw (Error "Invalid outbox address"), Example.empty).
Proof.
  apply (@postActivity_untrusted_outbox Example.offline _ _
           (VStr "https://home.example/outbox/alice")); reflexivity.
Defined.

Section Paginator.

Context `{Platform}.
Import Activities.

Lemma not_null_strict (c : value) : c <> VNull -> strict_eq c VNull = false.
Proof. destruct c; simpl; congruence. Qed.

(** C6, as the code has it.  Inbox and outbox alike.  With the cursor
    [null] the root is fetched.  A root whose [orderedItems] is falsy
    and whose [first] is truthy makes the call fetch that page, return
    it, and leave its [next] in the cursor.  Any other root, one with
    an empty array of items beside its [first] included, is returned
    itself, with its own [next] in the cursor and nothing more
    fetched.  With a cursor that is falsy but not [null] the call
    returns nothing, leaves the world, so the network, untouched, and
    leaves [undefined] in the cursor.  No call touches the other
    cursor or the session. *)
Theorem paginator_first_page_and_exhausted (this : Activities.t) (w : World) :
  (forall iri root orderedItems first w1,
      nextInboxPage this = VNull ->
      get (actor this) "inbox" = Ok iri ->
      getObject this iri w = (Ok root, w1) ->
      get root "orderedItems" = Ok orderedItems ->
      get root "first" = Ok first ->
      (truthy orderedItems = false -> truthy first = true ->
       forall page w2, getObject this first w1 = (Ok page, w2) ->
       exists this',
         inbox this w = (Ok (page, this'), w2)
         /\ nextInboxPage this' = get_opt page "next"
         /\ nextOutboxPage this' = nextOutboxPage this /\ same_session this' this)
      /\ (truthy orderedItems = true \/ truthy first = false ->
          exists this',
            inbox this w = (Ok (root, this'), w1)
            /\ nextInboxPage this' = get_opt root "next"
            /\ nextOutboxPage this' = nextOutboxPage this /\ same_session this' this))
  /\ (nextInboxPage this <> VNull -> truthy (nextInboxPage this) = false ->
      exists this',
        inbox this w = (Ok (VUndef, this'), w)
        /\ nextInboxPage this' = VUndef
        /\ nextOutboxPage this' = nextOutboxPage this /\ same_session this' this)
  /\ (forall iri root orderedItems first w1,
      nextOutboxPage this = VNull ->
      get (actor this) "outbox" = Ok iri ->
      getObject this iri w = (Ok root, w1) ->
      get root "orderedItems" = Ok orderedItems ->
      get root "first" = Ok first ->
      (truthy orderedItems = false -> truthy first = true ->
       forall page w2, getObject this first w1 = (Ok page, w2) ->
       exists this',
         outbox this w = (Ok (page, this'), w2)
         /\ nextOutboxPage this' = get_opt page "next"
         /\ nextInboxPage this' = nextInboxPage this /\ same_session this' this)
      /\ (truthy orderedItems = true \/ truthy first = false ->
          exists this',
            outbox this w = (Ok (root, this'), w1)
            /\ nextOutboxPage this' = get_opt root "next"
            /\ nextInboxPage this' = nextInboxPage this /\ same_session this' this))
  /\ (nextOutboxPage this <> VNull -> truthy (nextOutboxPage this) = false ->
      exists this',
        outbox this w = (Ok (VUndef, this'), w)
        /\ nextOutboxPage this' = VUndef
        /\ nextInboxPage this' = nextInboxPage this /\ same_session this' this).
Proof.
  assert (Hsame : forall a, same_session a a) by (intros a; repeat split).
  split; [|split; [|split]].
  - intros iri root items first w1 Hcur Hiri Hroot Hitems Hfirst. split.
    + intros Hno Hyes page w2 Hpage. eexists. split; [|shelve].
      unfold inbox, bind, lift, ret. rewrite Hcur. simpl.
      rewrite Hiri, Hroot, Hitems, Hfirst, Hno, Hyes. simpl. rewrite Hpage. reflexivity.
      Unshelve. repeat split.
    + intros Hother. eexists. split; [|shelve].
      unfold inbox, bind, lift, ret. rewrite Hcur. simpl.
      rewrite Hiri, Hroot, Hitems, Hfirst.
      destruct Hother as [-> | ->]; [|rewrite andb_false_r]; reflexivity.
      Unshelve. repeat split.
  - intros Hnn Hfalsy. eexists. split; [|shelve].
    unfold inbox, bind, ret. rewrite (not_null_strict _ Hnn), Hfalsy. reflexivity.
    Unshelve. repeat split.
  - intros iri root items first w1 Hcur Hiri Hroot Hitems Hfirst. split.
    + intros Hno Hyes page w2 Hpage. eexists. split; [|shelve].
      unfold outbox, bind, lift, ret. rewrite Hcur. simpl.
      rewrite Hiri, Hroot, Hitems, Hfirst, Hno, Hyes. simpl. rewrite Hpage. reflexivity.
      Unshelve. repeat split.
    + intros Hother. eexists. split; [|shelve].
      unfold outbox, bind, lift, ret. rewrite Hcur. simpl.
      rewrite Hiri, Hroot, Hitems, Hfirst.
      destruct Hother as [-> | ->]; [|rewrite andb_false_r]; reflexivity.
      Unshelve. repeat split.
  - intros Hnn Hfalsy. eexists. split; [|shelve].
    unfold outbox, bind, ret. rewrite (not_null_strict _ Hnn), Hfalsy. reflexivity.
    Unshelve. repeat split.
Qed.

End Paginator.

(** A first call on the single-page server, then a call on the
    exhausted cursor it leaves. *)
Lemma paginator_witness :
  exists this' w1,
    length (net_log w1) = 2
    /\ @Activities.inbox Example.paged Example.session Example.empty
       = (Ok (Example.last_page, this'), w1)
    /\ Activities.nextInboxPage this' = VUndef
    /\ exists this'',
         @Activities.inbox Example.paged this' w1 = (Ok (VUndef, this''), w1)
         /\ Activities.nextInboxPage this'' = VUndef.
Proof.
  destruct (proj1 (proj1 (@paginator_first_page_and_exhausted Example.paged
                            Example.session Example.empty)
                     (VStr "https://home.example/inbox/alice")
                     (VObj [("type", VStr "OrderedCollection");
                            ("first", VStr Example.inbox_first)])
                     VUndef (VStr Example.inbox_first)
                     (snd (@Activities.getObject Example.paged Example.session
                             (VStr "https://home.example/inbox/alice") Example.empty))
                     eq_refl eq_refl eq_refl eq_refl eq_refl)
              eq_refl eq_refl Example.last_page
              (snd (@Activities.getObject Example.paged Example.session
                      (VStr Example.inbox_first)
                      (snd (@Activities.getObject Example.paged Example.session
                              (VStr "https://home.example/inbox/alice") Example.empty))))
              eq_refl)
    as (this' & Hfirst & Hcursor & _).
  destruct (proj1 (proj2 (@paginator_first_page_and_exhausted Example.paged this'
                            (snd (@Activities.getObject Example.paged Example.session
                                    (VStr Example.inbox_first)
                                    (snd (@Activities.getObject Example.paged
                                            Example.session
                                            (VStr "https://home.example/inbox/alice")
                                            Example.empty))))))
              ltac:(rewrite Hcursor; discriminate) ltac:(rewrite Hcursor; reflexivity))
    as (this'' & Hsecond & Hcursor' & _).
  exists this'. eexists. split; [|split; [exact Hfirst|split; [exact Hcursor|]]].
  - reflexivity.
  - exists this''. split; [exact Hsecond | exact Hcursor'].
Defined.

(** C6 as stated fails on a root that has no inline items in the sense
    of an empty list: the root is returned, with no items, after one
    request, and the page its [first] names, which has the items, is
    never fetched. *)
Lemma paginator_empty_root_skips_first :
  exists this' w1,
    @Activities.inbox Example2.hollow Example.session Example.empty
    = (Ok (Example2.hollow_root, this'), w1)
    /\ get_opt Example2.hollow_root "orderedItems" = VArr []
    /\ get_opt Example2.hollow_root "first" = VStr Example.inbox_first
    /\ map url (net_log w1) = [VStr "https://home.example/inbox/alice"]
    /\ Activities.nextInboxPage this' = VUndef
    /\ @server Example2.hollow (net_log w1)
         (mkRequest (VStr Example.inbox_first) GET
            [("Accept", Activities.JSONLDMime); ("Authorization", "Bearer t0k3n")] NoBody)
       = Some (Example.json_ok Example.last_page).
Proof. eexists _, _. repeat split; vm_compute; reflexivity. Qed.

Section Effects.

Context `{Platform}.
Import Activities Calls.

Lemma effect_pure {A} (P : request -> Prop) (r : Result A) : effect P (lift r).
Proof.
  intros w. simpl. split; [exists []; rewrite app_nil_r; auto|]. auto.
Qed.

Lemma effect_ret {A} (P : request -> Prop) (a : A) : effect P (ret a : M A).
Proof. apply (effect_pure P (Ok a)). Qed.

Lemma effect_throw {A} (P : request -> Prop) (e : error) : effect P (throw e : M A).
Proof. apply (effect_pure P (Throw e)). Qed.

Lemma effect_bind {A B} (P : request -> Prop) (m : M A) (k : A -> M B) :
  effect P m -> (forall a, effect P (k a)) -> effect P (bind m k).
Proof.
  intros Hm Hk w. unfold bind. specialize (Hm w).
  destruct (m w) as [[a|e] w1]; simpl in *; [|exact Hm].
  destruct Hm as ((rs1 & Hlog1 & HP1) & Hlen1 & Hfr1).
  destruct (Hk a w1) as ((rs2 & Hlog2 & HP2) & Hlen2 & Hfr2).
  split; [|split].
  - exists (rs1 ++ rs2). rewrite Hlog2, Hlog1, app_assoc. split; [reflexivity|].
    apply Forall_app; auto.
  - lia.
  - intros l Hl. rewrite Hfr2 by lia. auto.
Qed.

Lemma effect_bind_pure {A B} (P : request -> Prop) (r : Result A) (k : A -> M B) :
  (forall a, r = Ok a -> effect P (k a)) -> effect P (bind (lift r) k).
Proof.
  intros Hk. destruct r as [a|e].
  - exact (Hk a eq_refl).
  - apply (effect_throw P e).
Qed.

Lemma effect_fetch (P : request -> Prop) (r : request) : P r -> effect P (fetch r).
Proof.
  intros HP w. unfold fetch.
  destruct (server (net_log w) r); simpl; (split; [exists [r]; auto|auto]).
Qed.

Lemma effect_addressees (P : request -> Prop) (this : Activities.t) (to : nat) (audience : value) :
  effect P (addressees this to audience).
Proof.
  intros w. unfold addressees, bind, lift, ret, slice, push, elements.
  destruct (arrays w !! to) as [xs|] eqn:Hto; simpl;
    [|split; [exists []; rewrite app_nil_r; auto|auto]].
  destruct (is_str audience "friends" || is_str audience "public");
    destruct (is_str audience "public");
    destruct (get (actor this) "followers") as [followers|e]; simpl;
    repeat (match goal with
            | |- context [match ?x with Some _ => _ | None => _ end] => destruct x
            end; simpl);
    (split; [exists []; rewrite app_nil_r; auto|]);
    rewrite ?length_insert, ?length_app; simpl;
    (split; [lia|]); intros addr Haddr;
    rewrite ?list_lookup_insert_ne by lia;
    rewrite ?lookup_app_l by lia; reflexivity.
Qed.

Lemma effect_postActivity (P : request -> Prop) (this : Activities.t) (activity : value) :
  (forall u h, P (mkRequest u POST h (JSONBody activity))) ->
  effect P (postActivity this activity).
Proof.
  intros HP. unfold postActivity.
  apply effect_bind_pure; intros outbox _.
  apply effect_bind_pure; intros trusted _.
  destruct trusted; simpl; [|apply effect_throw].
  apply effect_bind_pure; intros b _.
  apply effect_bind; [apply effect_fetch, HP|].
  intros result. destruct (ok result); simpl; [apply effect_ret|apply effect_throw].
Qed.

Lemma effect_postMedia (P : request -> Prop) (this : Activities.t) (activity file icon : value) :
  (forall u h, P (mkRequest u POST h
                    (FormData [("file", file); ("icon", icon); ("object", activity)]))) ->
  effect P (postMedia this activity file icon).
Proof.
  intros HP. unfold postMedia.
  apply effect_bind_pure; intros endpoints _.
  apply effect_bind_pure; intros uploadMedia _.
  apply effect_bind_pure; intros trusted _.
  destruct trusted; simpl; [|apply effect_throw].
  apply effect_bind_pure; intros b _.
  apply effect_bind; [apply effect_fetch, HP|].
  intros result. destruct (ok result); simpl; [apply effect_ret|apply effect_throw].
Qed.

Ltac effect_step :=
  match goal with
  | |- effect _ (bind (lift _) _) => apply effect_bind_pure; intros ? ?
  | |- effect _ (bind _ _) => apply effect_bind; [|intros ?]
  | |- effect _ (throw _) => apply effect_throw
  | |- effect _ (ret _) => apply effect_ret
  | |- effect _ (addressees _ _ _) => apply effect_addressees
  | |- effect _ (if ?b then _ else _) => destruct b
  | |- effect _ (postActivity _ _) => apply effect_postActivity; intros ? ?
  | |- effect _ (postMedia _ _ _ _) => apply effect_postMedia; intros ? ?
  end.

Ltac names_actor_here :=
  unfold names_actor, carried, with_summary; simpl;
  refine (ex_intro _ _ (ex_intro _ _ (conj eq_refl (conj _ _))));
  [|try match goal with |- context [truthy ?s] => destruct (truthy s) end;
    repeat split; reflexivity];
  assumption.

(** Every request a posting method makes carries a value that names
    the session actor in the way its kind of call does, and the method
    leaves the arrays that existed before as they were. *)
Lemma perform_effect (this : Activities.t) (c : PostingCall) :
  effect (names_actor this c) (perform this c).
Proof.
  destruct c; unfold perform;
    unfold accept, add, arrive, leave, block, create, follow, reject, undo,
      updateProfile, note, image, video, model;
    repeat effect_step; names_actor_here.
Qed.

End Effects.

Section PostingMethods.

Context `{Platform}.
Import Activities Calls.

Lemma sent_app (w w' : World) (rs : list request) :
  net_log w' = net_log w ++ rs -> sent w w' = rs.
Proof. intros Hlog. unfold sent. rewrite Hlog. apply drop_app_length. Qed.

(** C2, as the code has it.  Whatever a posting method sends: for
    accept, add, arrive, leave, block, create, follow, reject, undo and
    updateProfile it is an activity whose [actor] is the session
    actor's id; for note, image, video and model it is a bare object
    with no [actor] field, whose [attributedTo] is that id. *)
Theorem posted_value_names_session_actor
    (this : Activities.t) (c : PostingCall) (w : World) (r : request) :
  In r (sent w (snd (perform this c w))) ->
  names_actor this c r.
Proof.
  intros Hin.
  destruct (perform_effect this c w) as ((rs & Hlog & HP) & _).
  rewrite (sent_app _ _ _ Hlog) in Hin.
  rewrite List.Forall_forall in HP. auto.
Qed.

Lemma slice_run (l : nat) (xs : list value) (w : World) :
  arrays w !! l = Some xs ->
  slice l w = (Ok (length (arrays w)), mkWorld (net_log w) (console w) (arrays w ++ [xs])).
Proof. intros Hl. unfold slice. rewrite Hl. reflexivity. Qed.

Lemma push_run (l : nat) (v : value) (xs : list value) (w : World) :
  arrays w !! l = Some xs ->
  push l v w = (Ok tt, mkWorld (net_log w) (console w) (<[l := xs ++ [v]]> (arrays w))).
Proof. intros Hl. unfold push. rewrite Hl. reflexivity. Qed.

Lemma elements_run (l : nat) (xs : list value) (w : World) :
  arrays w !! l = Some xs -> elements l w = (Ok xs, w).
Proof. intros Hl. unfold elements. rewrite Hl. reflexivity. Qed.

Lemma lookup_copy (store : list (list value)) (xs : list value) :
  (store ++ [xs]) !! length store = Some xs.
Proof. rewrite lookup_app_r by lia. rewrite Nat.sub_diag. reflexivity. Qed.

(** What [addressees] returns: the caller's elements, then the
    followers collection for the audiences friends and public, then the
    public address for the audience public. *)
Lemma addressees_result (this : Activities.t) (to : nat) (audience followers : value)
    (xs : list value) (w : World) :
  arrays w !! to = Some xs ->
  get (actor this) "followers" = Ok followers ->
  fst (addressees this to audience w)
  = Ok (xs
        ++ (if is_str audience "friends" || is_str audience "public" then [followers] else [])
        ++ (if is_str audience "public" then [VStr PublicAddress] else [])).
Proof.
  intros Hto Hf. unfold addressees, bind, lift, ret.
  rewrite (slice_run _ _ _ Hto), Hf.
  destruct (is_str audience "friends" || is_str audience "public");
    destruct (is_str audience "public"); simpl.
  - erewrite push_run by (simpl; apply lookup_copy).
    erewrite push_run
      by (simpl; apply list_lookup_insert_eq; rewrite length_app; simpl; lia).
    erewrite elements_run
      by (simpl; apply list_lookup_insert_eq; rewrite length_insert, length_app; simpl; lia).
    simpl. rewrite <- app_assoc. reflexivity.
  - erewrite push_run by (simpl; apply lookup_copy).
    erewrite elements_run
      by (simpl; apply list_lookup_insert_eq; rewrite length_app; simpl; lia).
    simpl. reflexivity.
  - erewrite push_run by (simpl; apply lookup_copy).
    erewrite elements_run
      by (simpl; apply list_lookup_insert_eq; rewrite length_app; simpl; lia).
    simpl. reflexivity.
  - erewrite elements_run by (simpl; apply lookup_copy).
    simpl. rewrite app_nil_r. reflexivity.
Qed.

(** C10.  A call of note, image or video (and of model) leaves the
    array the caller passed as [to] with the elements it had; the
    followers collection and the public address go to the copy, which
    is what the recipients list is read from. *)
Theorem caller_recipients_unchanged
    (this : Activities.t) (c : PostingCall) (to : nat) (xs : list value) (w : World) :
  recipients_arg c = Some to ->
  arrays w !! to = Some xs ->
  arrays (snd (perform this c w)) !! to = Some xs
  /\ forall audience followers,
       get (actor this) "followers" = Ok followers ->
       fst (addressees this to audience w)
       = Ok (xs
             ++ (if is_str audience "friends" || is_str audience "public"
                 then [followers] else [])
             ++ (if is_str audience "public" then [VStr PublicAddress] else []))
       /\ arrays (snd (addressees this to audience w)) !! to = Some xs.
Proof.
  intros _ Hto. pose proof (lookup_lt_Some _ _ _ Hto) as Hlt. split.
  - destruct (perform_effect this c w) as (_ & _ & Hframe). rewrite Hframe; auto.
  - intros audience followers Hf. split.
    + apply addressees_result; assumption.
    + destruct (effect_addressees (fun _ => True) this to audience w) as (_ & _ & Hframe).
      rewrite Hframe; auto.
Qed.

End PostingMethods.

Import Calls.

Lemma posted_value_names_session_actor_witness :
  names_actor Example.session (Follow Example.bob)
    (mkRequest (VStr "https://home.example/outbox/alice") POST
       [("Content-Type", Activities.JSONLDMime); ("Authorization", "Bearer t0k3n")]
       (JSONBody
          (VObj [("type", VStr "Follow");
                 ("actor", VStr "https://home.example/u/alice");
                 ("object", Example.bob);
                 ("to", Example.bob);
                 ("summary", VStr "<span>Sent you a friend request</span>")]))).
Proof.
  apply (@posted_value_names_session_actor Example.accepting
           Example.session (Follow Example.bob) Example.empty).
  left. reflexivity.
Defined.

(** C2 as stated fails: what [note] sends has no [actor] field. *)
Lemma note_posts_no_actor :
  map carried
    (sent (Example.with_array [Example.bob])
       (snd (@perform Example.accepting Example.session
               (Note (VStr "hello") 0 (VStr "public") VUndef)
               (Example.with_array [Example.bob]))))
  = [Some (VObj [("content", VStr "hello");
                 ("type", VStr "Note");
                 ("attributedTo", VStr "https://home.example/u/alice");
                 ("context", Example.venue);
                 ("to", VArr [Example.bob;
                              VStr "https://home.example/followers/alice";
                              VStr "as:Public"])])]
  /\ assoc "actor"
       [("content", VStr "hello");
        ("type", VStr "Note");
        ("attributedTo", VStr "https://home.example/u/alice");
        ("context", Example.venue);
        ("to", VArr [Example.bob;
                     VStr "https://home.example/followers/alice";
                     VStr "as:Public"])]
     = None.
Proof. split; vm_compute; reflexivity. Qed.

Lemma caller_recipients_unchanged_witness :
  arrays (snd (@perform Example.accepting Example.session
                 (Note (VStr "hello") 0 (VStr "public") VUndef)
                 (Example.with_array [Example.bob]))) !! 0
  = Some [Example.bob].
Proof.
  apply (proj1 (@caller_recipients_unchanged Example.accepting Example.session
                  (Note (VStr "hello") 0 (VStr "public") VUndef) 0 [Example.bob]
                  (Example.with_array [Example.bob]) eq_refl eq_refl)).
Defined.

Section Derivers.

Context `{Platform}.
Import ImmersClient.

Lemma get_get_opt (v : value) (k : string) (x : value) :
  get v k = Ok x -> x = get_opt v k.
Proof. destruct v; simpl; congruence. Qed.

Lemma get_defined (v : value) (k k' : string) (x : value) :
  get v k = Ok x -> get v k' = Ok (get_opt v k').
Proof. destruct v; simpl; congruence. Qed.

Lemma ProfileFromActor_defined (actor : value) (p : Profile) (k : string) :
  ProfileFromActor actor = Ok p -> get actor k = Ok (get_opt actor k).
Proof. destruct actor; simpl; try discriminate; reflexivity. Qed.


Lemma plain_printable : forall v, plain v = true -> exists s, ToString v = Ok s.
Proof.
  unfold ToString. fix IH 1. intros v Hp. destruct v as [| |b|n|s|xs|fields].
  - eexists; reflexivity.
  - eexists; reflexivity.
  - destruct b; eexists; reflexivity.
  - eexists; reflexivity.
  - eexists; reflexivity.
  - simpl in Hp. simpl.
    assert (Hparts : exists parts,
               (fix each (ys : list value) : Result (list string) :=
                  match ys with
                  | [] => Ok []
                  | y :: rest =>
                      rbind
                        match y with
                        | VUndef | VNull => Ok EmptyString
                        | _ => print exponential y
                        end
                        (fun part => rbind (each rest) (fun parts => Ok (part :: parts)))
                  end) xs = Ok parts).
    { induction xs as [|y ys IHys]; [exists []; reflexivity|].
      simpl in Hp. apply andb_true_iff in Hp as [Hy Hys].
      destruct (IHys Hys) as (parts & Hparts).
      destruct (IH y Hy) as (s & Hs).
      rewrite Hparts. destruct y; try rewrite Hs; eexists; reflexivity. }
    destruct Hparts as (parts & ->). eexists; reflexivity.
  - simpl in Hp. simpl. destruct (assoc "toString" fields); [discriminate|].
    eexists; reflexivity.
Qed.

Lemma plain_assoc (k : string) (fields : list (string * value)) (x : value) :
  forallb (fun kv => match kv with (_, x) => plain x end) fields = true ->
  assoc k fields = Some x -> plain x = true.
Proof.
  induction fields as [|[k' v] fields IH]; simpl; [discriminate|].
  intros Hp. apply andb_true_iff in Hp as [Hv Hrest].
  destruct (k =? k')%string; [congruence|auto].
Qed.

Lemma plain_get_opt (v : value) (k : string) : plain v = true -> plain (get_opt v k) = true.
Proof.
  destruct v; try reflexivity. simpl.
  destruct (assoc "toString" fields); [discriminate|]. intros Hp.
  destruct (assoc k fields) as [x|] eqn:Hk; [|reflexivity].
  simpl. eapply plain_assoc; eassumption.
Qed.

Lemma plain_primitive (v : value) :
  plain v = true -> exists p, ToPrimitive v = Ok p.
Proof.
  intros Hp. destruct (plain_printable v Hp) as (s & Hs).
  destruct v; try (eexists; reflexivity); unfold ToPrimitive; rewrite Hs;
    eexists; reflexivity.
Qed.



End Derivers.

Ltac plainly :=
  repeat first
    [ reflexivity
    | assumption
    | apply plain_get_opt
    | match goal with
      | |- plain (or_else ?a ?b) = true => unfold or_else; destruct (truthy a)
      end ].

Ltac printing Hsan :=
  repeat match goal with
         | |- context [ToString ?v] =>
             let s := fresh "printed" in
             let Hs := fresh "Hprinted" in
             destruct (plain_printable v ltac:(plainly)) as (s & Hs); rewrite Hs; simpl
         | |- context [sanitize ?v] =>
             let s := fresh "safe" in
             let Hs := fresh "Hsafe" in
             destruct (Hsan v ltac:(plainly)) as (s & Hs); rewrite Hs; simpl
         end.

Ltac derive Hsan Hobj :=
  repeat match goal with
         | |- context [is_str ?a ?b] =>
             let E := fresh "E" in
             destruct (is_str a b) eqn:E; simpl;
             try (rewrite (Hobj _ _ E); simpl)
         | |- context [if truthy ?a then _ else _] =>
             let E := fresh "E" in destruct (truthy a) eqn:E; simpl
         | |- context [if negb (truthy ?a) then _ else _] =>
             let E := fresh "E" in destruct (truthy a) eqn:E; simpl
         | |- context [ToPrimitive ?v] =>
             let p := fresh "instant" in
             let Hp := fresh "Hinstant" in
             destruct (plain_primitive v ltac:(plainly)) as (p & Hp); rewrite Hp; simpl
         | |- context [ToString ?v] =>
             let s := fresh "printed" in
             let Hs := fresh "Hprinted" in
             destruct (plain_printable v ltac:(plainly)) as (s & Hs); rewrite Hs; simpl
         | |- context [sanitize ?v] =>
             let s := fresh "safe" in
             let Hs := fresh "Hsafe" in
             destruct (Hsan v ltac:(plainly)) as (s & Hs); rewrite Hs; simpl
         end.

Section Totality.

Context `{Platform}.
Import ImmersClient.

Lemma MessageFromActivity_returns (activity : value) :
  sanitizer_returns -> plain activity = true -> identified activity ->
  exists r, MessageFromActivity activity = Ok r
    /\ forall m, r = Some m ->
         truthy (__unsafeMessageHTML m) = true
         /\ sanitize (__unsafeMessageHTML m) = Ok (messageHTML m)
         /\ msg_id m = get_opt activity "id"
         /\ ProfileFromActor (get_opt activity "actor") = Ok (sender m).
Proof.
  intros Hsan Hplain (actor & id & p & Hactor & _ & _ & Hp).
  assert (Hshape : forall k, get activity k = Ok (get_opt activity k))
    by (intros k; exact (get_defined _ _ _ _ Hactor)).
  assert (Hactor' : actor = get_opt activity "actor") by (apply get_get_opt, Hactor).
  unfold MessageFromActivity.
  rewrite (Hshape "id"), Hactor. simpl. rewrite Hp. simpl.
  rewrite (Hshape "published"), (Hshape "object"), (Hshape "content"),
    (Hshape "type"), (Hshape "summary"), (Hshape "inReplyTo").
  simpl.
  set (object := get_opt activity "object").
  assert (Hobject : plain object = true) by (apply plain_get_opt, Hplain).
  assert (Hobj : forall k v, is_str (get_opt object "type") v = true ->
                             get object k = Ok (get_opt object k)).
  { intros k v. destruct object; simpl; try discriminate; reflexivity. }
  derive Hsan Hobj;
    (eexists; split; [reflexivity|]); intros m Hm; try discriminate;
    injection Hm as <-; simpl; subst actor; auto.
Qed.

Lemma FriendStatusFromActivity_returns (activity : value) :
  sanitizer_returns -> plain activity = true -> identified activity -> typed activity ->
  exists fs, FriendStatusFromActivity activity = Ok fs
    /\ _activity fs = activity
    /\ ProfileFromActor (get_opt activity "actor") = Ok (profile fs)
    /\ (forall ty, get activity "type" = Ok (VStr ty) -> ~ recognised ty -> status fs = none).
Proof.
  intros Hsan Hplain (actor & id & p & Hactor & Hid & Htruthy & Hp) (ty & Hty).
  assert (Hactor' : actor = get_opt activity "actor") by (apply get_get_opt, Hactor).
  unfold FriendStatusFromActivity.
  rewrite (get_defined _ _ "target" _ Hty), Hactor, Hty. simpl.
  rewrite Hid. simpl. rewrite Htruthy.
  assert (Hother : forall ty', Ok (VStr ty) = Ok (VStr ty') -> ~ recognised ty' ->
            lower ty <> "arrive" /\ lower ty <> "leave" /\ lower ty <> "accept"
            /\ lower ty <> "follow").
  { intros ty' Heq Hnot. injection Heq as <-. unfold recognised in Hnot. tauto. }
  destruct (String.eqb_spec (lower ty) "arrive") as [Ea|Ea]; simpl;
    [|destruct (String.eqb_spec (lower ty) "leave") as [El|El]; simpl;
      [|destruct (String.eqb_spec (lower ty) "accept") as [Ec|Ec]; simpl;
        [|destruct (String.eqb_spec (lower ty) "follow") as [Ef|Ef]; simpl]]];
    printing Hsan; rewrite Hp; simpl; printing Hsan;
    eexists; (split; [reflexivity|]); simpl; subst actor;
    (split; [reflexivity|]); (split; [assumption|]);
    intros ty' Hty' Hnot; destruct (Hother ty' Hty' Hnot) as (? & ? & ? & ?);
    congruence.
Qed.

Lemma mapR_total {A B} (f : A -> Result B) (xs : list A) :
  Forall (fun x => exists y, f x = Ok y) xs ->
  exists ys, mapR f xs = Ok ys /\ length ys = length xs.
Proof.
  induction 1 as [|x xs (y & Hy) _ (ys & Hys & Hlen)]; simpl.
  - exists []. auto.
  - rewrite Hy, Hys. exists (y :: ys). simpl. auto.
Qed.

(** C7, as the code has it.  Take activities that hold no property
    called [toString] and embed their actor with an id from which a
    profile can be built, and a sanitizer that returns on such data.
    On each of them message derivation returns a message with
    displayable content, sanitized, or null, whatever the id, type,
    object and published fields are; if the type is a string, status
    derivation returns a status, which is none for a type it does not
    recognise.  Mapping a batch of such activities returns a result
    for each. *)
Theorem derivation_total_on_identified (activities : list value) :
  sanitizer_returns ->
  Forall (fun activity => plain activity = true) activities ->
  Forall identified activities ->
  (forall activity, In activity activities ->
     exists r, MessageFromActivity activity = Ok r
       /\ forall m, r = Some m ->
            truthy (__unsafeMessageHTML m) = true
            /\ sanitize (__unsafeMessageHTML m) = Ok (messageHTML m))
  /\ (exists ms, mapR MessageFromActivity activities = Ok ms
        /\ length ms = length activities)
  /\ (Forall typed activities ->
      (forall activity ty, In activity activities ->
         get activity "type" = Ok (VStr ty) -> ~ recognised ty ->
         exists fs, FriendStatusFromActivity activity = Ok fs /\ status fs = none)
      /\ exists fss, mapR FriendStatusFromActivity activities = Ok fss
           /\ length fss = length activities).
Proof.
  intros Hsan Hplain Hid. rewrite List.Forall_forall in Hid, Hplain. split; [|split].
  - intros activity Hin.
    destruct (MessageFromActivity_returns activity Hsan (Hplain _ Hin) (Hid _ Hin))
      as (r & Hr & Hm).
    exists r. split; [assumption|]. intros m Hsome.
    destruct (Hm m Hsome) as (? & ? & _). auto.
  - apply mapR_total. apply List.Forall_forall. intros activity Hin.
    destruct (MessageFromActivity_returns activity Hsan (Hplain _ Hin) (Hid _ Hin))
      as (r & Hr & _). eauto.
  - intros Htyped. rewrite List.Forall_forall in Htyped. split.
    + intros activity ty Hin Hty Hnot.
      destruct (FriendStatusFromActivity_returns activity Hsan (Hplain _ Hin)
                  (Hid _ Hin) (Htyped _ Hin))
        as (fs & Hfs & _ & _ & Hnone).
      eauto.
    + apply mapR_total. apply List.Forall_forall. intros activity Hin.
      destruct (FriendStatusFromActivity_returns activity Hsan (Hplain _ Hin)
                  (Hid _ Hin) (Htyped _ Hin))
        as (fs & Hfs & _). eauto.
Qed.

End Totality.

(** The sanitizer of the example browser returns on plain data. *)
Lemma browser_sanitizer_returns (srv : list request -> request -> option response) :
  @sanitizer_returns (Example.browser srv).
Proof. intros v Hp. exact (@plain_printable (Example.browser srv) v Hp). Qed.



Lemma derivation_total_on_identified_witness :
  exists ms,
    mapR (@ImmersClient.MessageFromActivity Example.offline)
      [Example.arrival; Example.follow_back] = Ok ms
    /\ length ms = 2.
Proof.
  assert (Hid : Forall (@identified Example.offline)
                   [Example.arrival; Example.follow_back]).
  { repeat constructor;
      exists Example.carol, (VStr "https://other.example/u/carol"), Example.carol_profile;
      repeat split; reflexivity. }
  assert (Hplain : Forall (fun activity => plain activity = true)
                     [Example.arrival; Example.follow_back]).
  { repeat constructor. }
  exact (proj1 (proj2 (@derivation_total_on_identified Example.offline _
                         (browser_sanitizer_returns _) Hplain Hid))).
Defined.

(** C7 as stated fails: an activity that names no actor makes message
    derivation throw, one without a type makes status derivation throw,
    so does one whose timestamp cannot be made a date, and each makes
    the mapping of its whole batch throw. *)
Lemma derivation_throws_on_malformed :
  @ImmersClient.MessageFromActivity Example.offline Example.anonymous_note = Throw TypeError
  /\ @ImmersClient.FriendStatusFromActivity Example.offline Example.untyped = Throw TypeError
  /\ @ImmersClient.MessageFromActivity Example.offline Example2.stamped = Throw TypeError
  /\ mapR (@ImmersClient.MessageFromActivity Example.offline)
       [Example.arrival; Example.anonymous_note] = Throw TypeError
  /\ mapR (@ImmersClient.FriendStatusFromActivity Example.offline)
       [Example.arrival; Example.untyped] = Throw TypeError.
Proof. repeat split; vm_compute; reflexivity. Qed.

(** C8 on the code: a Follow with an in-reply-to marker that carries
    [content] yields a message, of type other, showing that content. *)
Lemma follow_back_with_content_yields_message :
  exists m,
    @ImmersClient.MessageFromActivity Example.offline Example.follow_back = Ok (Some m)
    /\ get Example.follow_back "type" = Ok (VStr "Follow")
    /\ get Example.follow_back "inReplyTo" = Ok (VStr "https://home.example/s/3")
    /\ ImmersClient.type m = ImmersClient.other
    /\ ImmersClient.__unsafeMessageHTML m = VStr "Following you back"
    /\ ImmersClient.messageHTML m = "Following you back".
Proof. eexists. repeat split; vm_compute; reflexivity. Qed.

Section Presence.

Context `{Platform}.
Import ImmersClient.

Lemma fetch_json_log (u : value) (w : World) :
  exists r,
    fetch_json u w
    = (r, mkWorld (net_log w ++ [mkRequest u GET [("Accept", Activities.JSONLDMime)] NoBody])
            (console w) (arrays w)).
Proof.
  unfold fetch_json, bind, fetch, res_json, ret, throw.
  destruct (server _ _) as [res|]; [destruct (json res)|]; eexists; reflexivity.
Qed.

Lemma setPlaceFromDestination_frame (dest : value) (c c' : ImmersClient.t) (w w' : World)
    (r : Result unit) :
  setPlaceFromDestination dest (c, w) = (r, (c', w')) ->
  connected c' = connected c
  /\ credential c' = credential c
  /\ Forall (fun q => meth q = GET) (Calls.sent w w').
Proof.
  unfold setPlaceFromDestination, bind, this, io, catch, lift, update, ret, Calls.sent.
  simpl.
  destruct dest;
    try (destruct (localImmer c) as [l|];
         [destruct (negb (l =? EmptyString)%string)|]);
    simpl;
    try match goal with
        | |- context [fetch_json ?u w] =>
            let x := fresh "x" in
            destruct (fetch_json_log u w) as (x & ->); destruct x; simpl
        end;
    try match goal with
        | |- context [assign ?b ?s] => destruct (assign b s); simpl
        end;
    intros Hrun; simplify_eq; simpl;
    rewrite ?drop_app_length, ?drop_all; repeat split; repeat constructor.
Qed.



End Presence.



Section Sorting.

Variables (A : Type) (cmp : A -> A -> Z).



Variables (R : A -> A -> Prop) (P : A -> Prop).
Hypothesis before : forall x y, P x -> P y -> (cmp x y <= 0)%Z -> R x y.
Hypothesis after : forall x y, P x -> P y -> (cmp x y > 0)%Z -> R y x.
Hypothesis R_trans : forall x y z, P x -> P y -> P z -> R x y -> R y z -> R x z.



End Sorting.

Section SortOfTheEngine.

Context `{Platform}.
Variables (A : Type) (cmp : A -> A -> Result Z).




End SortOfTheEngine.






Section FriendList.

Context `{Platform}.
Import ImmersClient.

Lemma status_eqb_eq (a b : RelationshipStatus) : status_eqb a b = true <-> a = b.
Proof. destruct a, b; simpl; split; congruence. Qed.

Lemma status_eqb_spec (a b : RelationshipStatus) : reflect (a = b) (status_eqb a b).
Proof. destruct a, b; simpl; constructor; congruence. Qed.

Lemma is_str_iff (v : value) (s : string) : is_str v s = true <-> v = VStr s.
Proof.
  unfold is_str. destruct v; simpl; try (split; congruence).
  rewrite String.eqb_eq. split; congruence.
Qed.

Lemma FriendsSorter_returns (a b : FriendStatus) :
  timestamped a -> timestamped b -> FriendsSorter a b = Ok (returned FriendsSorter a b).
Proof.
  intros (ta & Ha) (tb & Hb). unfold returned, FriendsSorter, published.
  rewrite Ha, Hb. simpl.
  repeat match goal with |- context [if ?c then _ else _] => destruct c end; reflexivity.
Qed.





Lemma FriendsSorter_swap (a b : FriendStatus) :
  timestamped a -> timestamped b ->
  returned FriendsSorter b a = (- returned FriendsSorter a b)%Z
  /\ returned FriendsSorter a a = 0%Z.
Proof.
  intros (ta & Ha) (tb & Hb). unfold returned, FriendsSorter, published.
  rewrite Ha, Hb. simpl. rewrite String.eqb_refl.
  destruct (status_eqb (status a) friend_online);
    destruct (status_eqb (status b) friend_online); simpl; try (split; reflexivity).
  all: rewrite (String.eqb_sym tb ta);
    destruct (ta =? tb)%string eqn:Eeq; [split; reflexivity|];
    destruct (String.ltb tb ta) eqn:E1; destruct (String.ltb ta tb) eqn:E2;
    try (split; reflexivity); exfalso.
  all: unfold String.ltb in *; rewrite String.compare_antisym in E2;
    destruct (String.compare tb ta) eqn:Ec; simpl in *; try discriminate.
  all: apply String.compare_eq_iff in Ec; subst; rewrite String.eqb_refl in Eeq;
    discriminate.
Qed.


Lemma FriendStatusFromActivity_activity (activity : value) (fs : FriendStatus) :
  FriendStatusFromActivity activity = Ok fs -> _activity fs = activity.
Proof.
  unfold FriendStatusFromActivity, rbind. intros Hfs.
  repeat match type of Hfs with
         | context [match ?x with _ => _ end] => destruct x; try discriminate
         end;
    injection Hfs as <-; reflexivity.
Qed.

(** The reads that [FriendsSorter] and the filter of [friendsList]
    make on an activity that has yielded a status do not throw. *)
Lemma FriendStatusFromActivity_reads (activity : value) (fs : FriendStatus) (k : string) :
  FriendStatusFromActivity activity = Ok fs ->
  get (_activity fs) k = Ok (get_opt (_activity fs) k).
Proof.
  intros Hfs. rewrite (FriendStatusFromActivity_activity _ _ Hfs).
  unfold FriendStatusFromActivity in Hfs.
  destruct activity; simpl in *; try discriminate; reflexivity.
Qed.





End FriendList.


(** The ordering example of the design document, run: offline at 10,
    online at 11, a rejection, online at 12 and a request sent at 13
    come out as online at 12, online at 11, the request, offline. *)
Lemma friendsList_design_example :
  match fst (@ImmersClient.friendsList Example.befriended
               (Example.visitor, Example.empty)) with
  | Ok l =>
      map (fun fs => (ImmersClient.status fs,
                      get_opt (ImmersClient._activity fs) "published")) l
  | Throw _ => []
  end
  = [(ImmersClient.friend_online, VStr "2022-05-11T12:00:00Z");
     (ImmersClient.friend_online, VStr "2022-05-11T11:00:00Z");
     (ImmersClient.request_sent, VStr "2022-05-11T13:00:00Z");
     (ImmersClient.friend_offline, VStr "2022-05-11T10:00:00Z")].
Proof. vm_compute. reflexivity. Qed.


(** * Further properties of the activity client *)

Section ObjectFetch.

Context `{Platform}.
Import Activities Calls.

Lemma sent_none (w : World) : sent w w = [].
Proof. unfold sent. apply drop_all. Qed.

Lemma sent_one (w : World) (r : request) :
  sent w (mkWorld (net_log w ++ [r]) (console w) (arrays w)) = [r].
Proof. unfold sent. simpl. apply drop_app_length. Qed.

Lemma fetch_world (r : request) (w : World) :
  snd (fetch r w) = mkWorld (net_log w ++ [r]) (console w) (arrays w).
Proof. unfold fetch. destruct (server (net_log w) r); reflexivity. Qed.

Lemma bind_lift {S A B} (r : Result A) (k : A -> ST S B) (s : S) :
  bind (lift r) k s = match r with Ok a => k a s | Throw e => (Throw e, s) end.
Proof. destruct r; reflexivity. Qed.

Lemma bind_assoc {S A B C} (m : ST S A) (f : A -> ST S B) (g : B -> ST S C) (s : S) :
  bind (bind m f) g s = bind m (fun x => bind (f x) g) s.
Proof. unfold bind. destruct (m s) as [[a|e] s']; reflexivity. Qed.

Lemma after_fetch {A} (q : request) (k : response -> M A) (w : World) :
  (forall res w', snd (k res w') = w') ->
  snd (bind (fetch q) k w) = mkWorld (net_log w ++ [q]) (console w) (arrays w).
Proof.
  intros Hk. unfold bind. pose proof (fetch_world q w) as Hw.
  destruct (fetch q w) as [[res|e] w']; simpl in *; [rewrite Hk|]; exact Hw.
Qed.

Lemma bearer_header (this : Activities.t) (b : string) :
  bearer this = Ok b -> ("Authorization", b) = auth_header this.
Proof. unfold auth_header. intros ->. reflexivity. Qed.

Lemma authorization_built (this : Activities.t) (authorization : list (string * string)) :
  (if truthy (token this)
   then let! b := bearer this in Ok [("Authorization", b)]
   else Ok []) = Ok authorization ->
  authorization = if truthy (token this) then [auth_header this] else [].
Proof.
  destruct (truthy (token this)); [|congruence].
  destruct (bearer this) as [b|e] eqn:Hb; simpl; [|discriminate].
  rewrite <- (bearer_header _ _ Hb). congruence.
Qed.

Lemma authorization_prints (this : Activities.t) :
  token_prints this ->
  (if truthy (token this)
   then let! b := bearer this in Ok [("Authorization", b)]
   else Ok [])
  = Ok (if truthy (token this) then [auth_header this] else []).
Proof.
  intros Hprints. unfold token_prints in Hprints.
  destruct (truthy (token this)); [|reflexivity].
  destruct (Hprints eq_refl) as (text & Htext).
  unfold auth_header, bearer. rewrite Htext. reflexivity.
Qed.

(** X1.  [getObject] makes at most one request, with the bearer token
    only when one is set.  The request is a GET of the identifier
    itself when the identifier is trusted, and otherwise a POST to the
    actor's proxy endpoint naming the identifier as [id]: an untrusted
    identifier is never contacted directly. *)
Theorem getObject_routes (this : Activities.t) (IRI : value) (w : World) (r : request) :
  In r (sent w (snd (getObject this IRI w))) ->
  sent w (snd (getObject this IRI w)) = [r]
  /\ headers r
     = ("Accept", JSONLDMime) :: (if truthy (token this) then [auth_header this] else [])
  /\ ((trustedIRI this IRI = Ok true
       /\ url r = IRI /\ meth r = GET /\ body r = NoBody)
      \/ (trustedIRI this IRI = Ok false
          /\ meth r = POST /\ body r = URLParams [("id", IRI)]
          /\ truthy (url r) = true
          /\ exists endpoints,
               get (actor this) "endpoints" = Ok endpoints
               /\ url r = get_opt endpoints "proxyUrl")).
Proof.
  assert (Hdone : forall res w', snd ((if negb (ok res)
                    then throw (Error "Object fetch error undefined")
                    else res_json res) w') = w').
  { intros res w'. unfold res_json, throw, ret.
    destruct (negb (ok res)); [|destruct (json res)]; reflexivity. }
  unfold getObject. rewrite bind_lift.
  match goal with
  | |- context [match ?a with Ok _ => _ | Throw _ => _ end] =>
      destruct a as [authorization|e] eqn:Hauth
  end; [|simpl; rewrite sent_none; intros []].
  apply authorization_built in Hauth. subst authorization.
  cbv zeta. rewrite bind_lift.
  destruct (trustedIRI this IRI) as [[|]|e] eqn:Htrust.
  - rewrite (after_fetch _ _ _ Hdone), sent_one. intros [<-|[]]. simpl. auto 10.
  - rewrite bind_assoc, bind_lift.
    destruct (get (actor this) "endpoints") as [endpoints|e] eqn:Hend;
      [|simpl; rewrite sent_none; intros []].
    destruct (truthy (get_opt endpoints "proxyUrl")) eqn:Hproxy;
      [|unfold bind, throw; simpl; rewrite sent_none; intros []].
    rewrite (after_fetch _ _ _ Hdone), sent_one. intros [<-|[]]. simpl.
    split; [reflexivity|]. split; [reflexivity|]. right. eauto 10.
  - simpl. rewrite sent_none. intros [].
Qed.

(** X2.  For an untrusted identifier and an actor that advertises no
    proxy endpoint, [getObject] throws and makes no request; what it
    throws is its unsupported-proxy error, provided the token, if there
    is one, can be printed into the headers built first. *)
Theorem getObject_without_proxy (this : Activities.t) (IRI endpoints : value) (w : World) :
  trustedIRI this IRI = Ok false ->
  get (actor this) "endpoints" = Ok endpoints ->
  truthy (get_opt endpoints "proxyUrl") = false ->
  exists e,
    getObject this IRI w = (Throw e, w)
    /\ (token_prints this ->
        e = Error "Home immer does not support object fetch proxy").
Proof.
  intros Htrust Hend Hproxy. unfold getObject. rewrite bind_lift.
  match goal with
  | |- context [match ?a with Ok _ => _ | Throw _ => _ end] =>
      destruct a as [authorization|e0] eqn:Hauth
  end.
  - eexists. split; [|reflexivity]. cbv zeta. unfold bind, lift, throw.
    rewrite Htrust. simpl. rewrite Hend. simpl. rewrite Hproxy. reflexivity.
  - exists e0. split; [reflexivity|]. intros Hprints.
    rewrite (authorization_prints this Hprints) in Hauth. discriminate.
Qed.

(** X3.  [postMedia] sends nothing unless the actor's upload endpoint
    is a trusted identifier: an untrusted one gives the missing/invalid
    endpoint error, and an actor whose endpoints list no [uploadMedia]
    at all makes the trust check throw a TypeError instead. *)
Theorem postMedia_guard (this : Activities.t) (activity file icon endpoints uploadMedia : value)
    (w : World) :
  get (actor this) "endpoints" = Ok endpoints ->
  get endpoints "uploadMedia" = Ok uploadMedia ->
  (trustedIRI this uploadMedia = Ok false ->
   postMedia this activity file icon w
   = (Throw (Error "Missing/invalid upload media endpoint"), w))
  /\ ((forall s, uploadMedia <> VStr s) ->
      postMedia this activity file icon w = (Throw TypeError, w))
  /\ (snd (postMedia this activity file icon w) <> w ->
      trustedIRI this uploadMedia = Ok true).
Proof.
  intros Hend Hup. unfold postMedia, bind, lift, throw. rewrite Hend. simpl.
  rewrite Hup. simpl. split; [|split].
  - intros ->. reflexivity.
  - intros Hns.
    assert (Hthrow : trustedIRI this uploadMedia = Throw TypeError).
    { unfold trustedIRI, rbind.
      destruct uploadMedia; try (exfalso; eapply Hns; reflexivity);
        destruct (localImmer this) as [l|]; simpl; try reflexivity;
        destruct (negb (l =? EmptyString)%string); reflexivity. }
    rewrite Hthrow. reflexivity.
  - destruct (trustedIRI this uploadMedia) as [[|]|e]; simpl;
      try (intros Hne; contradiction). reflexivity.
Qed.

End ObjectFetch.

Lemma getObject_routes_witness :
  exists r,
    sent Example.empty
      (snd (@Activities.getObject Example.accepting Example.session
              (VStr "https://home.example/u/alice") Example.empty)) = [r]
    /\ url r = VStr "https://home.example/u/alice" /\ meth r = GET.
Proof.
  eexists (mkRequest _ _ _ _).
  destruct (@getObject_routes Example.accepting Example.session
              (VStr "https://home.example/u/alice") Example.empty
              (mkRequest (VStr "https://home.example/u/alice") GET
                 [("Accept", Activities.JSONLDMime); ("Authorization", "Bearer t0k3n")]
                 NoBody)) as (Hsent & _).
  - left. reflexivity.
  - split; [exact Hsent|]. split; reflexivity.
Defined.

Lemma getObject_without_proxy_witness :
  exists e,
    @Activities.getObject Example.offline
      (Activities.mk
         (VObj [("id", VStr "https://home.example/u/alice"); ("endpoints", VObj [])])
         "https://home.example" Example.venue VNull None VNull VNull)
      Example.bob Example.empty
    = (Throw e, Example.empty)
    /\ e = Error "Home immer does not support object fetch proxy".
Proof.
  destruct (@getObject_without_proxy Example.offline
              (Activities.mk
                 (VObj [("id", VStr "https://home.example/u/alice");
                        ("endpoints", VObj [])])
                 "https://home.example" Example.venue VNull None VNull VNull)
              Example.bob (VObj []) Example.empty eq_refl eq_refl eq_refl)
    as (e & Hrun & He).
  exists e. split; [exact Hrun|]. apply He. discriminate.
Defined.

Lemma postMedia_guard_witness :
  @Activities.postMedia Example.offline
    (Activities.mk (VObj [("endpoints", VObj [("proxyUrl", VStr "https://home.example/proxy")])])
       "https://home.example" Example.venue VNull None VNull VNull)
    (VObj [("type", VStr "Model")]) VNull VNull Example.empty
  = (Throw TypeError, Example.empty).
Proof.
  refine (proj1 (proj2 (@postMedia_guard Example.offline _ _ VNull VNull
                          (VObj [("proxyUrl", VStr "https://home.example/proxy")]) VUndef
                          Example.empty _ _)) _);
    [reflexivity | reflexivity | discriminate].
Defined.

Section Cursor.

Context `{Platform}.
Import Activities Calls Sequence.

Lemma inbox_exhausted (this : Activities.t) (w : World) :
  nextInboxPage this <> VNull -> truthy (nextInboxPage this) = false ->
  inbox this w = (Ok (VUndef, set_nextInboxPage this VUndef), w).
Proof.
  intros Hnn Hfalsy. unfold inbox, bind, ret.
  rewrite (not_null_strict _ Hnn), Hfalsy. reflexivity.
Qed.

Lemma outbox_exhausted (this : Activities.t) (w : World) :
  nextOutboxPage this <> VNull -> truthy (nextOutboxPage this) = false ->
  outbox this w = (Ok (VUndef, set_nextOutboxPage this VUndef), w).
Proof.
  intros Hnn Hfalsy. unfold outbox, bind, ret.
  rewrite (not_null_strict _ Hnn), Hfalsy. reflexivity.
Qed.

(** X4.  An exhausted cursor stays exhausted: however many times
    inbox, or outbox, is called again, every call returns nothing, the
    world is untouched, and the cursor ends as [undefined]. *)
Theorem exhausted_is_absorbing (n : nat) (this : Activities.t) (w : World) :
  (nextInboxPage this <> VNull -> truthy (nextInboxPage this) = false ->
   inbox_times (S n) this w
   = (Ok (repeat VUndef (S n), set_nextInboxPage this VUndef), w))
  /\ (nextOutboxPage this <> VNull -> truthy (nextOutboxPage this) = false ->
      outbox_times (S n) this w
      = (Ok (repeat VUndef (S n), set_nextOutboxPage this VUndef), w)).
Proof.
  split.
  - revert this. induction n as [|n IH]; intros this Hnn Hfalsy.
    + simpl. unfold bind, ret. rewrite (inbox_exhausted _ _ Hnn Hfalsy). reflexivity.
    + change (inbox_times (S (S n)) this w)
        with (bind (inbox this)
                (fun first => bind (inbox_times (S n) (snd first))
                                (fun rest => ret (fst first :: fst rest, snd rest))) w).
      unfold bind at 1. rewrite (inbox_exhausted _ _ Hnn Hfalsy). cbn [snd fst].
      unfold bind at 1. rewrite IH by (simpl; congruence). reflexivity.
  - revert this. induction n as [|n IH]; intros this Hnn Hfalsy.
    + simpl. unfold bind, ret. rewrite (outbox_exhausted _ _ Hnn Hfalsy). reflexivity.
    + change (outbox_times (S (S n)) this w)
        with (bind (outbox this)
                (fun first => bind (outbox_times (S n) (snd first))
                                (fun rest => ret (fst first :: fst rest, snd rest))) w).
      unfold bind at 1. rewrite (outbox_exhausted _ _ Hnn Hfalsy). cbn [snd fst].
      unfold bind at 1. rewrite IH by (simpl; congruence). reflexivity.
Qed.

(** The two cursors are independent, and each follows its collection. *)
Lemma cursor_follows_next (this this' : Activities.t) (col : value) (w w' : World) :
  (inbox this w = (Ok (col, this'), w') ->
   this' = set_nextInboxPage this (get_opt col "next"))
  /\ (outbox this w = (Ok (col, this'), w') ->
      this' = set_nextOutboxPage this (get_opt col "next")).
Proof.
  split; unfold inbox, outbox; unfold bind at 1;
    match goal with |- context [match ?m w with _ => _ end] => destruct (m w) as [[c|e] w1] end;
    unfold ret; intros Heq; simplify_eq; reflexivity.
Qed.

Lemma effect_getObject (this : Activities.t) (IRI : value) :
  effect (fun _ => True) (getObject this IRI).
Proof.
  unfold getObject.
  apply effect_bind_pure; intros authorization _.
  apply effect_bind_pure; intros trusted _.
  apply effect_bind.
  - destruct trusted; [apply effect_fetch; exact I|].
    apply effect_bind_pure; intros endpoints _.
    destruct (truthy (get_opt endpoints "proxyUrl"));
      [apply effect_fetch; exact I|apply effect_throw].
  - intros result. destruct (negb (ok result)); [apply effect_throw|].
    unfold res_json. destruct (json result); [apply effect_ret|apply effect_throw].
Qed.

Lemma getObject_prints (this : Activities.t) (IRI v : value) (w w' : World) :
  getObject this IRI w = (Ok v, w') -> token_prints this.
Proof.
  unfold getObject. rewrite bind_lift. unfold token_prints. intros Hget Htoken.
  rewrite Htoken in Hget. unfold bearer in Hget.
  destruct (ToString (token this)) as [text|e]; [eauto|discriminate].
Qed.

Lemma fetched_prints (this this' : Activities.t) (col : value) (w w' : World) :
  get_opt col "next" = VNull ->
  inbox this w = (Ok (col, this'), w') \/ outbox this w = (Ok (col, this'), w') ->
  token_prints this.
Proof.
  intros Hnext [Hcall | Hcall]; revert Hcall; unfold inbox, outbox, bind, lift, ret.
  - destruct (strict_eq (nextInboxPage this) VNull).
    + destruct (get (actor this) "inbox") as [iri|]; [|discriminate].
      destruct (getObject this iri w) as [[root|e] w1] eqn:Hroot; [|discriminate].
      intros _. eapply getObject_prints, Hroot.
    + destruct (truthy (nextInboxPage this)).
      * destruct (getObject this (nextInboxPage this) w) as [[page|e] w1] eqn:Hpage;
          [|discriminate].
        intros _. eapply getObject_prints, Hpage.
      * intros Heq. injection Heq as <- _ _. discriminate.
  - destruct (strict_eq (nextOutboxPage this) VNull).
    + destruct (get (actor this) "outbox") as [iri|]; [|discriminate].
      destruct (getObject this iri w) as [[root|e] w1] eqn:Hroot; [|discriminate].
      intros _. eapply getObject_prints, Hroot.
    + destruct (truthy (nextOutboxPage this)).
      * destruct (getObject this (nextOutboxPage this) w) as [[page|e] w1] eqn:Hpage;
          [|discriminate].
        intros _. eapply getObject_prints, Hpage.
      * intros Heq. injection Heq as <- _ _. discriminate.
Qed.

Lemma first_request {A} (q : request) (k : response -> M A) (w : World) :
  (forall res, effect (fun _ => True) (k res)) ->
  exists rest, sent w (snd (bind (fetch q) k w)) = q :: rest.
Proof.
  intros Hk. unfold bind. pose proof (fetch_world q w) as Hw.
  destruct (fetch q w) as [[res|e] w1]; simpl in *; subst w1.
  - destruct (Hk res (mkWorld (net_log w ++ [q]) (console w) (arrays w)))
      as ((rs & Hlog & _) & _).
    exists rs. unfold sent. rewrite Hlog. simpl.
    rewrite <- app_assoc. apply drop_app_length.
  - exists []. apply sent_one.
Qed.

(** X5.  A page whose [next] is [null], rather than absent, puts the
    cursor back to not-started: the call after it begins again at the
    root of the collection, with a GET of the actor's inbox (or outbox)
    when that is trusted. *)
Theorem null_next_restarts (this this' : Activities.t) (col iri : value) (w w' : World) :
  get_opt col "next" = VNull ->
  trustedIRI this iri = Ok true ->
  (inbox this w = (Ok (col, this'), w') ->
   get (actor this) "inbox" = Ok iri ->
   nextInboxPage this' = VNull
   /\ exists rest,
        sent w' (snd (inbox this' w'))
        = mkRequest iri GET
            (("Accept", JSONLDMime)
             :: (if truthy (token this) then [auth_header this] else []))
            NoBody :: rest)
  /\ (outbox this w = (Ok (col, this'), w') ->
      get (actor this) "outbox" = Ok iri ->
      nextOutboxPage this' = VNull
      /\ exists rest,
           sent w' (snd (outbox this' w'))
           = mkRequest iri GET
               (("Accept", JSONLDMime)
                :: (if truthy (token this) then [auth_header this] else []))
               NoBody :: rest).
Proof.
  intros Hnext Htrust. split; intros Hcall Hiri.
  all: assert (Hprints : token_prints this)
    by (eapply (fetched_prints this this' col w w' Hnext); eauto).
  - rewrite (proj1 (cursor_follows_next _ _ _ _ _) Hcall), Hnext.
    split; [reflexivity|].
    unfold inbox. simpl. rewrite !bind_assoc, bind_lift. simpl. rewrite Hiri.
    rewrite bind_assoc. unfold getObject at 1. rewrite bind_assoc, bind_lift.
    change (token (set_nextInboxPage this VNull)) with (token this).
    change (bearer (set_nextInboxPage this VNull)) with (bearer this).
    rewrite (authorization_prints this Hprints). cbv zeta.
    rewrite bind_assoc, bind_lift.
    change (trustedIRI (set_nextInboxPage this VNull) iri) with (trustedIRI this iri).
    rewrite Htrust. rewrite bind_assoc.
    apply first_request. intros res.
    apply effect_bind.
    { destruct (negb (ok res)); [apply effect_throw|].
      unfold res_json. destruct (json res); [apply effect_ret|apply effect_throw]. }
    intros root. apply effect_bind; [|intros; apply effect_ret].
    apply effect_bind_pure; intros orderedItems _.
    apply effect_bind_pure; intros first _.
    destruct (negb (truthy orderedItems) && truthy first);
      [apply effect_getObject|apply effect_ret].
  - rewrite (proj2 (cursor_follows_next _ _ _ _ _) Hcall), Hnext.
    split; [reflexivity|].
    unfold outbox. simpl. rewrite !bind_assoc, bind_lift. simpl. rewrite Hiri.
    rewrite bind_assoc. unfold getObject at 1. rewrite bind_assoc, bind_lift.
    change (token (set_nextOutboxPage this VNull)) with (token this).
    change (bearer (set_nextOutboxPage this VNull)) with (bearer this).
    rewrite (authorization_prints this Hprints). cbv zeta.
    rewrite bind_assoc, bind_lift.
    change (trustedIRI (set_nextOutboxPage this VNull) iri) with (trustedIRI this iri).
    rewrite Htrust. rewrite bind_assoc.
    apply first_request. intros res.
    apply effect_bind.
    { destruct (negb (ok res)); [apply effect_throw|].
      unfold res_json. destruct (json res); [apply effect_ret|apply effect_throw]. }
    intros root. apply effect_bind; [|intros; apply effect_ret].
    apply effect_bind_pure; intros orderedItems _.
    apply effect_bind_pure; intros first _.
    destruct (negb (truthy orderedItems) && truthy first);
      [apply effect_getObject|apply effect_ret].
Qed.

End Cursor.

Lemma exhausted_is_absorbing_witness :
  @Sequence.inbox_times Example.offline 3
    (Activities.set_nextInboxPage Example.session VUndef) Example.empty
  = (Ok ([VUndef; VUndef; VUndef], Activities.set_nextInboxPage Example.session VUndef),
     Example.empty).
Proof.
  apply (proj1 (@exhausted_is_absorbing Example.offline 2
                  (Activities.set_nextInboxPage Example.session VUndef) Example.empty));
    [discriminate | reflexivity].
Defined.


Lemma null_next_restarts_witness :
  exists rest,
    sent (mkWorld [mkRequest (VStr "https://home.example/inbox/alice") GET
                     [("Accept", Activities.JSONLDMime); ("Authorization", "Bearer t0k3n")]
                     NoBody] [] [])
      (snd (@Activities.inbox Example2.restarting
              (Activities.set_nextInboxPage Example.session VNull)
              (mkWorld [mkRequest (VStr "https://home.example/inbox/alice") GET
                          [("Accept", Activities.JSONLDMime);
                           ("Authorization", "Bearer t0k3n")]
                          NoBody] [] [])))
    = mkRequest (VStr "https://home.example/inbox/alice") GET
        [("Accept", Activities.JSONLDMime); ("Authorization", "Bearer t0k3n")]
        NoBody :: rest.
Proof.
  refine (proj2 (proj1 (@null_next_restarts Example2.restarting Example.session
                          (Activities.set_nextInboxPage Example.session VNull)
                          Example2.null_page (VStr "https://home.example/inbox/alice")
                          Example.empty _ eq_refl eq_refl) _ eq_refl)).
  vm_compute. reflexivity.
Defined.

Section Builders.

Context `{Platform}.
Import Activities Calls.

Lemma assoc_set_same (k : string) (x : value) (fields : list (string * value)) :
  assoc k (assoc_set k x fields) = Some x.
Proof.
  induction fields as [|[k' v] fields IH]; simpl.
  - rewrite String.eqb_refl. reflexivity.
  - destruct (k =? k')%string eqn:E; simpl; rewrite E; auto.
Qed.

Lemma assoc_set_other (k k' : string) (x : value) (fields : list (string * value)) :
  k' <> k -> assoc k' (assoc_set k x fields) = assoc k' fields.
Proof.
  intros Hne. induction fields as [|[k0 v] fields IH]; simpl.
  - rewrite (proj2 (String.eqb_neq k' k) Hne). reflexivity.
  - destruct (k =? k0)%string eqn:E; simpl.
    + apply String.eqb_eq in E. subst k0.
      rewrite (proj2 (String.eqb_neq k' k) Hne). reflexivity.
    + destruct (k' =? k0)%string; auto.
Qed.

Lemma postActivity_returns (this : Activities.t) (activity res : value) (w w' : World) :
  postActivity this activity w = (Ok res, w') ->
  exists outbox,
    get (actor this) "outbox" = Ok outbox
    /\ trustedIRI this outbox = Ok true
    /\ w' = mkWorld (net_log w
                       ++ [mkRequest outbox POST
                             [("Content-Type", JSONLDMime); auth_header this]
                             (JSONBody activity)])
              (console w) (arrays w).
Proof.
  unfold postActivity. rewrite bind_lift.
  destruct (get (actor this) "outbox") as [outbox|e] eqn:Hout; [|discriminate].
  rewrite bind_lift.
  destruct (trustedIRI this outbox) as [[|]|e] eqn:Htrust; try discriminate. simpl.
  rewrite bind_lift. destruct (bearer this) as [b|e] eqn:Hb; [|discriminate].
  rewrite (bearer_header _ _ Hb). unfold bind.
  match goal with
  | |- context [fetch ?q w] =>
      pose proof (fetch_world q w) as Hw; destruct (fetch q w) as [[r|e] w1]
  end; [|discriminate].
  simpl in Hw. subst w1. unfold throw, ret.
  destruct (negb (ok r)); intros Heq; simplify_eq. eauto.
Qed.

(** X6.  [create] never returns.  Its continuation takes what
    [postActivity] resolved to, the text of the Location header, for a
    response: when the server has accepted the activity and named its
    location, [create] throws its creation error all the same, after
    the request has gone out. *)
Theorem create_never_returns (this : Activities.t) (object : value) (w : World) :
  (exists e, fst (create this object w) = Throw e)
  /\ (forall id location w',
        get (actor this) "id" = Ok id ->
        postActivity this
          (VObj [("type", VStr "Create"); ("actor", id); ("object", object)]) w
        = (Ok (VStr location), w') ->
        create this object w = (Throw (Error "Error creating"), w')
        /\ length (net_log w') = S (length (net_log w))).
Proof.
  split.
  - unfold create. rewrite bind_lift.
    destruct (get (actor this) "id") as [id|e]; [|eauto].
    unfold bind at 1.
    destruct (postActivity this _ w) as [[res|e] w1]; [|eauto].
    rewrite bind_lift. destruct (get res "ok") as [resOk|e]; [|eauto].
    destruct (negb (truthy resOk)); [unfold throw; eauto|].
    rewrite bind_lift. destruct (get res "headers"); unfold throw; eauto.
  - intros id location w' Hid Hpost. split.
    + unfold create. rewrite bind_lift, Hid. unfold bind at 1. rewrite Hpost.
      reflexivity.
    + destruct (postActivity_returns _ _ _ _ _ Hpost) as (outbox & _ & _ & ->).
      simpl. rewrite length_app. simpl. lia.
Qed.

(** X7.  [updateProfile] stamps the update with the session actor's
    id: in the activity it posts, the object has that id, whatever id
    the caller had put there, and every other property as the caller
    gave it.  An update that is not an object throws before anything
    is sent. *)
Theorem updateProfile_stamps_id (this : Activities.t) (update : value) (w : World) :
  (forall props r,
      update = VObj props ->
      In r (sent w (snd (updateProfile this update w))) ->
      exists fields props' id,
        carried r = Some (VObj fields)
        /\ assoc "type" fields = Some (VStr "Update")
        /\ assoc "object" fields = Some (VObj props')
        /\ get (actor this) "id" = Ok id
        /\ assoc "id" props' = Some id
        /\ forall k, k <> "id" -> assoc k props' = assoc k props)
  /\ ((forall props, update <> VObj props) -> (forall xs, update <> VArr xs) ->
      updateProfile this update w = (Throw TypeError, w)).
Proof.
  split.
  - intros props r -> Hin.
    assert (Heff : effect (fun r =>
              exists fields props' id,
                carried r = Some (VObj fields)
                /\ assoc "type" fields = Some (VStr "Update")
                /\ assoc "object" fields = Some (VObj props')
                /\ get (actor this) "id" = Ok id
                /\ assoc "id" props' = Some id
                /\ forall k, k <> "id" -> assoc k props' = assoc k props)
              (updateProfile this (VObj props))).
    { unfold updateProfile.
      apply effect_bind_pure; intros id Hid.
      apply effect_bind_pure; intros update' Hset.
      apply effect_bind_pure; intros id' Hid'.
      apply effect_bind_pure; intros followers _.
      apply effect_postActivity. intros u h.
      simpl in Hset. injection Hset as <-.
      exists [("type", VStr "Update"); ("actor", id');
              ("object", VObj (assoc_set "id" id props)); ("to", followers)],
        (assoc_set "id" id props), id.
      repeat split; try assumption.
      - apply assoc_set_same.
      - intros k Hk. apply assoc_set_other. assumption. }
    destruct (Heff w) as ((rs & Hlog & HP) & _).
    rewrite (sent_app _ _ _ Hlog) in Hin.
    rewrite List.Forall_forall in HP. auto.
  - intros Hno Hna. unfold updateProfile. rewrite bind_lift.
    destruct (get (actor this) "id") as [id|e] eqn:Hid.
    + rewrite bind_lift.
      destruct update; simpl; try reflexivity;
        [exfalso; eapply Hna; reflexivity | exfalso; eapply Hno; reflexivity].
    + destruct (actor this); simpl in Hid; congruence.
Qed.

End Builders.

Lemma create_never_returns_witness :
  @Activities.create Example.accepting Example.session Example.greeting Example.empty
  = (Throw (Error "Error creating"),
     snd (@Activities.create Example.accepting Example.session Example.greeting
            Example.empty))
  /\ length (net_log (snd (@Activities.create Example.accepting Example.session
                             Example.greeting Example.empty))) = 1.
Proof.
  refine (proj2 (@create_never_returns Example.accepting Example.session Example.greeting
                   Example.empty)
            (VStr "https://home.example/u/alice") "https://home.example/s/99" _ eq_refl _).
  vm_compute. reflexivity.
Defined.

Lemma updateProfile_stamps_id_witness :
  exists fields props' id,
    carried (mkRequest (VStr "https://home.example/outbox/alice") POST
               [("Content-Type", Activities.JSONLDMime); ("Authorization", "Bearer t0k3n")]
               (JSONBody
                  (VObj [("type", VStr "Update");
                         ("actor", VStr "https://home.example/u/alice");
                         ("object", VObj [("id", VStr "https://home.example/u/alice");
                                          ("name", VStr "Alice")]);
                         ("to", VStr "https://home.example/followers/alice")])))
    = Some (VObj fields)
    /\ assoc "type" fields = Some (VStr "Update")
    /\ assoc "object" fields = Some (VObj props')
    /\ get (Activities.actor Example.session) "id" = Ok id
    /\ assoc "id" props' = Some id
    /\ forall k, k <> "id" ->
         assoc k props' = assoc k [("id", Example.bob); ("name", VStr "Alice")].
Proof.
  apply (proj1 (@updateProfile_stamps_id Example.accepting Example.session
                  (VObj [("id", Example.bob); ("name", VStr "Alice")]) Example.empty)
           _ _ eq_refl).
  left. reflexivity.
Defined.

(** * Further properties of the derivers *)

Section Profiles.

Context `{Platform}.
Import ImmersClient.




(** X9.  Actors referred to by address cannot be profiled.  Where the
    text "undefined" is not a URL, [ProfileFromActor] throws on every
    actor that is not an object, so message derivation throws on every
    activity that names its actor by address, and status derivation
    can return on such an activity only as an outgoing request. *)
Theorem actor_by_address_not_profiled (activity actor : value) :
  URL_host "undefined" = None ->
  (forall fields, actor <> VObj fields) ->
  ProfileFromActor actor = Throw TypeError
  /\ (get activity "actor" = Ok actor ->
      MessageFromActivity activity = Throw TypeError
      /\ forall fs, FriendStatusFromActivity activity = Ok fs ->
           status fs = request_sent).
Proof.
  intros Hundef Hprim.
  assert (Hp : ProfileFromActor actor = Throw TypeError).
  { unfold ProfileFromActor, rbind.
    destruct actor; simpl; try reflexivity;
      try (unfold ToString; simpl; rewrite Hundef; reflexivity).
    exfalso. eapply Hprim. reflexivity. }
  split; [exact Hp|]. intros Hactor. split.
  - unfold MessageFromActivity, rbind.
    rewrite (get_defined _ _ "id" _ Hactor), Hactor, Hp. reflexivity.
  - intros fs. unfold FriendStatusFromActivity, rbind.
    destruct (get activity "target"); [|discriminate]. rewrite Hactor.
    destruct (get activity "type") as [ty|]; [|discriminate].
    destruct (toLowerCase ty) as [lowered|]; [|discriminate].
    destruct (lowered =? "arrive")%string;
      [repeat match goal with
              | |- context [ToString ?v] => destruct (ToString v); [|discriminate]
              end; rewrite Hp; discriminate|].
    destruct ((lowered =? "leave")%string || (lowered =? "accept")%string);
      [rewrite Hp; discriminate|].
    destruct (lowered =? "follow")%string; [|rewrite Hp; discriminate].
    destruct (get actor "id") as [actorId|]; [|discriminate].
    destruct (truthy actorId); [rewrite Hp; discriminate|].
    destruct (get activity "object") as [object|]; [|discriminate].
    destruct (truthy (get_opt object "id")); [|rewrite Hp; discriminate].
    destruct (ProfileFromActor object); [|discriminate].
    destruct (sanitize _); [|discriminate].
    intros Hfs. injection Hfs as <-. reflexivity.
Qed.

End Profiles.


Lemma actor_by_address_not_profiled_witness :
  @ImmersClient.ProfileFromActor Example.offline Example.bob = Throw TypeError.
Proof.
  apply (proj1 (@actor_by_address_not_profiled Example.offline VUndef Example.bob
                  eq_refl (fun fields Heq => ltac:(discriminate)))).
Defined.

(** The conversions to text, run on data that cannot be printed or
    that prints in a way of its own.  A username that is an object
    with a property [toString] makes the handle template throw; so
    does such a name of the place of an Arrive; a Follow with an id on
    neither side throws in building the profile; an integer of
    magnitude 1e21 prints in exponent form; an array prints its
    elements joined. *)
Lemma conversions_run :
  @ImmersClient.ProfileFromActor Example.offline
    (VObj [("id", VStr "https://other.example/u/carol");
           ("preferredUsername", VObj [("toString", VNum 0)])])
  = Throw TypeError
  /\ @ImmersClient.FriendStatusFromActivity Example.offline
       (VObj [("type", VStr "Arrive"); ("actor", Example.carol);
              ("target", VObj [("name", VObj [("toString", VNum 0)]);
                               ("url", VStr "https://venue.example/")])])
     = Throw TypeError
  /\ @ImmersClient.FriendStatusFromActivity Example.offline
       (VObj [("type", VStr "Follow"); ("actor", VObj []); ("object", VObj [])])
     = Throw TypeError
  /\ @ToString Example.offline (VNum (10 ^ 21)) = Ok "1e+21"
  /\ @ToString Example.offline (VNum (10 ^ 21 - 1)) = Ok "999999999999999999999"
  /\ @ToString Example.offline (VArr [VNum 1; VNull; VArr [VStr "a"; VObj []]])
     = Ok "1,,a,[object Object]"
  /\ @ToString Example.offline (VArr [VObj [("toString", VNull)]]) = Throw TypeError.
Proof. repeat split; vm_compute; reflexivity. Qed.

(** [Object.assign] and the optional call of [find], run: the
    elements of an array given as the source are copied under their
    indices, the characters of a string likewise; [links] that is an
    object with a [find] of its own has nothing callable there. *)
Lemma assign_and_find_run :
  ImmersClient.assign (VObj [("type", VStr "Place")]) (VArr [VStr "a"; VNum 2])
  = Ok (VObj [("type", VStr "Place"); ("0", VStr "a"); ("1", VNum 2)])
  /\ ImmersClient.assign (VObj [("type", VStr "Place")]) (VStr "ab")
     = Ok (VObj [("type", VStr "Place"); ("0", VStr "a"); ("1", VStr "b")])
  /\ ImmersClient.assign (VObj [("type", VStr "Place")]) (VNum 5)
     = Ok (VObj [("type", VStr "Place")])
  /\ Client.self_link (VObj [("links", VObj [("find", VNum 1)])]) = Throw TypeError
  /\ Client.self_link (VObj [("links", VObj [("find", VNull)])]) = Ok VUndef
  /\ Client.self_link
       (VObj [("links", VArr [VObj [("rel", VStr "self"); ("href", VStr "https://x/u")]])])
     = Ok (VStr "https://x/u").
Proof. repeat split; vm_compute; reflexivity. Qed.

Section Messages.

Context `{Platform}.
Import ImmersClient.

Lemma MessageFromActivity_reads (activity : value) :
  identified activity ->
  exists p,
    ProfileFromActor (get_opt activity "actor") = Ok p
    /\ forall k, get activity k = Ok (get_opt activity k).
Proof.
  intros (actor & id & p & Hactor & _ & _ & Hp). exists p.
  rewrite <- (get_get_opt _ _ _ Hactor). split; [exact Hp|].
  intros k. exact (get_defined _ _ _ _ Hactor).
Qed.

Ltac message_start Hid Hplain :=
  let p := fresh "p" in
  let Hp := fresh "Hp" in
  let Hshape := fresh "Hshape" in
  let instant := fresh "instant" in
  let Hinstant := fresh "Hinstant" in
  destruct (MessageFromActivity_reads _ Hid) as (p & Hp & Hshape);
  destruct (plain_primitive _ (plain_get_opt _ "published" Hplain))
    as (instant & Hinstant);
  unfold MessageFromActivity;
  rewrite (Hshape "id"), (Hshape "actor"); simpl; rewrite Hp; simpl;
  rewrite (Hshape "published"), (Hshape "object"), (Hshape "content"),
    (Hshape "type"), (Hshape "summary"), (Hshape "inReplyTo"); simpl;
  rewrite Hinstant;
  match goal with
  | |- context [truthy (get_opt ?a "published")] =>
      destruct (truthy (get_opt a "published")); simpl
  end.

(** X10.  Which activities always yield a message, given an actor that
    can be profiled, an activity that holds no property called
    [toString] (so that its timestamp and the url of its object can be
    printed) and a sanitizer that returns on such data: an Accept and a
    Follow without in-reply-to marker yield a status message, with
    their summary or else the stock text; a Create of an Image or a
    Video yields a media message that records the kind and the url of
    the object. *)
Theorem MessageFromActivity_always (activity : value) :
  sanitizer_returns -> plain activity = true -> identified activity ->
  let summary := get_opt activity "summary" in
  let object := get_opt activity "object" in
  (get_opt activity "type" = VStr "Accept" ->
   exists m, MessageFromActivity activity = Ok (Some m)
     /\ type m = status_
     /\ __unsafeMessageHTML m
        = or_else summary (VStr "<span>Accepted your friend request</span>"))
  /\ (get_opt activity "type" = VStr "Follow" ->
      truthy (get_opt activity "inReplyTo") = false ->
      exists m, MessageFromActivity activity = Ok (Some m)
        /\ type m = status_
        /\ __unsafeMessageHTML m
           = or_else summary (VStr "<span>Sent you a friend request</span>"))
  /\ (get_opt activity "type" = VStr "Create" ->
      forall kind,
        (kind = "image" /\ get_opt object "type" = VStr "Image")
        \/ (kind = "video" /\ get_opt object "type" = VStr "Video") ->
        exists m, MessageFromActivity activity = Ok (Some m)
          /\ type m = media
          /\ mediaType m = Some kind
          /\ msg_url m = Some (get_opt object "url")).
Proof.
  intros Hsan Hplain Hid summary object. subst summary object. split; [|split].
  - intros Hty.
    assert (Ht : truthy (or_else (get_opt activity "summary")
                           (VStr "<span>Accepted your friend request</span>")) = true)
      by (unfold or_else; destruct (truthy (get_opt activity "summary")) eqn:E;
          [exact E|reflexivity]).
    message_start Hid Hplain; rewrite Hty; simpl; rewrite Ht; simpl;
      printing Hsan; eexists; repeat split.
  - intros Hty Hreply.
    assert (Ht : truthy (or_else (get_opt activity "summary")
                           (VStr "<span>Sent you a friend request</span>")) = true)
      by (unfold or_else; destruct (truthy (get_opt activity "summary")) eqn:E;
          [exact E|reflexivity]).
    message_start Hid Hplain; rewrite Hty; simpl; rewrite Hreply; simpl;
      rewrite Ht; simpl; printing Hsan; eexists; repeat split.
  - intros Hty kind Hkind.
    assert (Hobj : get (get_opt activity "object") "url"
                   = Ok (get_opt (get_opt activity "object") "url")).
    { destruct Hkind as [(_ & Hk)|(_ & Hk)];
        destruct (get_opt activity "object"); simpl in *; try discriminate; reflexivity. }
    assert (Hurl : plain (get_opt (get_opt activity "object") "url") = true) by plainly.
    destruct (plain_printable _ Hurl) as (src & Hsrc).
    message_start Hid Hplain; rewrite Hty; simpl;
      (destruct Hkind as [(-> & Hk)|(-> & Hk)]; rewrite Hk; simpl; rewrite Hobj; simpl;
       rewrite Hsrc; simpl; printing Hsan; eexists; repeat split).
Qed.

(** X11.  Which activities yield a message only on condition, given an
    actor that can be profiled, an activity that holds no property
    called [toString] and a sanitizer that returns on such data: an
    Arrive or Leave yields one exactly when it has a truthy summary,
    its content playing no part; a Create of a Note yields one exactly
    when the note has truthy content; and a type the switch does not
    list yields one, of type other, exactly when there is a truthy
    summary. *)
Theorem MessageFromActivity_conditional (activity : value) :
  sanitizer_returns -> plain activity = true -> identified activity ->
  let summary := get_opt activity "summary" in
  let object := get_opt activity "object" in
  (get_opt activity "type" = VStr "Arrive" \/ get_opt activity "type" = VStr "Leave" ->
   if truthy summary
   then exists m, MessageFromActivity activity = Ok (Some m)
          /\ type m = status_ /\ __unsafeMessageHTML m = summary
   else MessageFromActivity activity = Ok None)
  /\ (get_opt activity "type" = VStr "Create" ->
      get_opt object "type" = VStr "Note" ->
      if truthy (get_opt object "content")
      then exists m, MessageFromActivity activity = Ok (Some m)
             /\ type m = chat /\ __unsafeMessageHTML m = get_opt object "content"
      else MessageFromActivity activity = Ok None)
  /\ ((forall known, In known ["Create"; "Arrive"; "Leave"; "Follow"; "Accept"] ->
         get_opt activity "type" <> VStr known) ->
      if truthy summary
      then exists m, MessageFromActivity activity = Ok (Some m)
             /\ type m = other /\ __unsafeMessageHTML m = summary
      else MessageFromActivity activity = Ok None).
Proof.
  intros Hsan Hplain Hid summary object. subst summary object. split; [|split].
  - intros Hty.
    message_start Hid Hplain;
      (destruct Hty as [Hty|Hty]; rewrite Hty; simpl;
       destruct (truthy (get_opt activity "summary")) eqn:E; simpl; rewrite ?E; simpl;
       try reflexivity; printing Hsan; eexists; repeat split).
  - intros Hty Hnote.
    assert (Hobj : get (get_opt activity "object") "content"
                   = Ok (get_opt (get_opt activity "object") "content"))
      by (destruct (get_opt activity "object"); simpl in *; try discriminate;
          reflexivity).
    assert (Hcontent : plain (get_opt (get_opt activity "object") "content") = true)
      by plainly.
    destruct (Hsan _ Hcontent) as (safe & Hsafe).
    message_start Hid Hplain; rewrite Hty; simpl;
      rewrite Hnote; simpl; rewrite Hobj; simpl;
      (destruct (truthy (get_opt (get_opt activity "object") "content")) eqn:E; simpl;
       try reflexivity; rewrite Hsafe; simpl; eexists; repeat split).
  - intros Hunknown.
    assert (Hno : forall known,
              In known ["Create"; "Arrive"; "Leave"; "Follow"; "Accept"] ->
              is_str (get_opt activity "type") known = false).
    { intros known Hin. destruct (is_str (get_opt activity "type") known) eqn:E;
        [|reflexivity].
      apply is_str_iff in E. exfalso. exact (Hunknown known Hin E). }
    message_start Hid Hplain; rewrite !Hno by (simpl; auto 10); simpl;
      (destruct (truthy (get_opt activity "summary")) eqn:E; simpl;
       try reflexivity; printing Hsan; eexists; repeat split).
Qed.

Ltac returned_status Hfs :=
  let Hsafe := fresh "Hsafe" in
  repeat match type of Hfs with
         | context [ToString ?v] => destruct (ToString v); [|discriminate]; simpl in Hfs
         end;
  match type of Hfs with
  | context [ProfileFromActor ?v] =>
      destruct (ProfileFromActor v); [|discriminate]; simpl in Hfs
  end;
  match type of Hfs with
  | context [sanitize ?v] => destruct (sanitize v) eqn:Hsafe; [|discriminate]
  end;
  injection Hfs as <-; simpl.

(** X12.  Every status returned keeps the activity it came from, has
    [isOnline] set exactly when the status is friend-online, which is
    exactly when the type is arrive in some capitalization, and offers
    as safe HTML what the sanitizer returned for its unsafe HTML. *)
Theorem FriendStatus_invariants (activity : value) (fs : FriendStatus) :
  FriendStatusFromActivity activity = Ok fs ->
  _activity fs = activity
  /\ (isOnline fs = true <-> status fs = friend_online)
  /\ (status fs = friend_online
      <-> exists ty, get activity "type" = Ok (VStr ty) /\ lower ty = "arrive")
  /\ sanitize (VStr (__unsafeStatusHTML fs)) = Ok (statusHTML fs).
Proof.
  intros Hfs. split; [exact (FriendStatusFromActivity_activity _ _ Hfs)|].
  unfold FriendStatusFromActivity, rbind in Hfs.
  destruct (get activity "target"); [|discriminate].
  destruct (get activity "actor"); [|discriminate].
  destruct (get activity "type") as [ty|]; [|discriminate].
  destruct ty as [| | | |ty| |]; simpl in Hfs; try discriminate.
  assert (Harrive : forall st : RelationshipStatus,
            st <> friend_online -> lower ty <> "arrive" ->
            (status_eqb st friend_online = true <-> st = friend_online)
            /\ (st = friend_online
                <-> exists ty', Ok (VStr ty) = Ok (VStr ty') /\ lower ty' = "arrive")).
  { intros st Hst Hlow. split; [apply status_eqb_eq|].
    split; [contradiction|]. intros (ty' & Heq & Hl). congruence. }
  destruct (String.eqb_spec (lower ty) "arrive") as [Ea|Ea].
  - returned_status Hfs. repeat split; eauto.
  - destruct ((lower ty =? "leave")%string || (lower ty =? "accept")%string).
    { returned_status Hfs.
      destruct (Harrive friend_offline) as (? & ?); try assumption; try discriminate.
      repeat split; tauto. }
    destruct (lower ty =? "follow")%string.
    + destruct (get _ "id") as [actorId|]; [|discriminate].
      destruct (truthy actorId).
      { returned_status Hfs.
        destruct (Harrive request_received) as (? & ?); try assumption; try discriminate.
        repeat split; tauto. }
      destruct (get activity "object") as [object|]; [|discriminate].
      destruct (truthy (get_opt object "id")); returned_status Hfs.
      * destruct (Harrive request_sent) as (? & ?); try assumption; try discriminate.
        repeat split; tauto.
      * destruct (Harrive none) as (? & ?); try assumption; try discriminate.
        repeat split; tauto.
    + returned_status Hfs.
      destruct (Harrive none) as (? & ?); try assumption; try discriminate.
      repeat split; tauto.
Qed.

End Messages.

Lemma carol_is_identified (activity : value) :
  get activity "actor" = Ok Example.carol -> @identified Example.offline activity.
Proof.
  intros Hactor.
  exists Example.carol, (VStr "https://other.example/u/carol"), Example.carol_profile.
  repeat split; [exact Hactor|reflexivity..].
Defined.

Lemma MessageFromActivity_always_witness :
  exists m,
    @ImmersClient.MessageFromActivity Example.offline Example2.acceptance = Ok (Some m)
    /\ ImmersClient.type m = ImmersClient.status_
    /\ ImmersClient.__unsafeMessageHTML m
       = or_else (get_opt Example2.acceptance "summary")
           (VStr "<span>Accepted your friend request</span>").
Proof.
  apply (proj1 (@MessageFromActivity_always Example.offline Example2.acceptance
                  (browser_sanitizer_returns _) eq_refl
                  (carol_is_identified Example2.acceptance eq_refl))).
  reflexivity.
Defined.

Lemma MessageFromActivity_conditional_witness :
  @ImmersClient.MessageFromActivity Example.offline Example.arrival = Ok None.
Proof.
  (* the arrival of the examples is spelled ARRIVE, which the switch
     does not list, and it has no summary *)
  apply (proj2 (proj2 (@MessageFromActivity_conditional Example.offline Example.arrival
                         (browser_sanitizer_returns _) eq_refl
                         (carol_is_identified Example.arrival eq_refl)))).
  intros known Hin Heq.
  repeat (destruct Hin as [<-|Hin]; [discriminate|]). exact Hin.
Defined.

Lemma FriendStatus_invariants_witness :
  exists fs,
    @ImmersClient.FriendStatusFromActivity Example.offline Example.arrival = Ok fs
    /\ ImmersClient._activity fs = Example.arrival
    /\ (ImmersClient.isOnline fs = true <-> ImmersClient.status fs = ImmersClient.friend_online).
Proof.
  eexists. split; [reflexivity|].
  destruct (@FriendStatus_invariants Example.offline Example.arrival _ eq_refl)
    as (Hact & Honline & _).
  split; [exact Hact|exact Honline].
Defined.

Section Comparator.

Context `{Platform}.
Import ImmersClient.

(** X13.  [FriendsSorter] is a consistent comparator exactly as far as
    the statuses carry a timestamp.  On two whose activity has a string
    for [published] it returns, swapping the arguments negates the
    result, and a status compared with itself gives zero.  A status
    whose activity has no [published], against one of the same online
    standing that has one, gets 1 in both orders: each is told to go
    after the other. *)
Theorem FriendsSorter_consistency (a b : FriendStatus) :
  (timestamped a -> timestamped b ->
   exists n, FriendsSorter a b = Ok n
     /\ FriendsSorter b a = Ok (- n)%Z /\ FriendsSorter a a = Ok 0%Z)
  /\ (forall tb,
      get_opt (_activity a) "published" = VUndef ->
      get_opt (_activity b) "published" = VStr tb ->
      (status a = friend_online <-> status b = friend_online) ->
      FriendsSorter a b = Ok 1%Z /\ FriendsSorter b a = Ok 1%Z).
Proof.
  split.
  - intros Ha Hb. exists (returned FriendsSorter a b).
    destruct (FriendsSorter_swap a b Ha Hb) as (Hswap & Hself).
    rewrite <- Hswap, <- Hself. auto using FriendsSorter_returns.
  - intros tb Ha Hb Hsame. unfold FriendsSorter, published. rewrite Ha, Hb. simpl.
    destruct (status_eqb_spec (status a) friend_online);
      destruct (status_eqb_spec (status b) friend_online); simpl;
      try (split; reflexivity); tauto.
Qed.

End Comparator.

Lemma FriendsSorter_consistency_witness :
  (exists n,
     @ImmersClient.FriendsSorter Example.offline
       (Example2.status_at ImmersClient.friend_online (VStr "2022-05-11T09:00:00Z"))
       (Example2.status_at ImmersClient.friend_offline (VStr "2022-05-11T10:00:00Z"))
     = Ok n
     /\ @ImmersClient.FriendsSorter Example.offline
          (Example2.status_at ImmersClient.friend_offline (VStr "2022-05-11T10:00:00Z"))
          (Example2.status_at ImmersClient.friend_online (VStr "2022-05-11T09:00:00Z"))
        = Ok (- n)%Z
     /\ @ImmersClient.FriendsSorter Example.offline
          (Example2.status_at ImmersClient.friend_online (VStr "2022-05-11T09:00:00Z"))
          (Example2.status_at ImmersClient.friend_online (VStr "2022-05-11T09:00:00Z"))
        = Ok 0%Z)
  /\ (@ImmersClient.FriendsSorter Example.offline
        (Example2.status_at ImmersClient.friend_offline VUndef)
        (Example2.status_at ImmersClient.friend_offline (VStr "2022-05-11T10:00:00Z"))
      = Ok 1%Z
      /\ @ImmersClient.FriendsSorter Example.offline
           (Example2.status_at ImmersClient.friend_offline (VStr "2022-05-11T10:00:00Z"))
           (Example2.status_at ImmersClient.friend_offline VUndef) = Ok 1%Z).
Proof.
  split.
  - refine (proj1 (@FriendsSorter_consistency Example.offline
                     (Example2.status_at ImmersClient.friend_online
                        (VStr "2022-05-11T09:00:00Z"))
                     (Example2.status_at ImmersClient.friend_offline
                        (VStr "2022-05-11T10:00:00Z"))) _ _);
      eexists; reflexivity.
  - refine (proj2 (@FriendsSorter_consistency Example.offline
                     (Example2.status_at ImmersClient.friend_offline VUndef)
                     (Example2.status_at ImmersClient.friend_offline
                        (VStr "2022-05-11T10:00:00Z")))
              "2022-05-11T10:00:00Z" eq_refl eq_refl _).
    split; intros Hs; exact Hs.
Defined.

Section FriendListFailure.

Context `{Platform}.
Import ImmersClient.

Lemma mapR_throws {A B} (f : A -> Result B) (xs : list A) (x : A) (e0 : error) :
  In x xs -> f x = Throw e0 -> exists e, mapR f xs = Throw e.
Proof.
  induction xs as [|y xs IH]; simpl; intros Hin Hfx; [contradiction|].
  destruct (f y) as [b|e] eqn:Hfy; [|eauto].
  destruct Hin as [->|Hin]; [congruence|].
  destruct (IH Hin Hfx) as (e & ->). eauto.
Qed.

(** X14.  One entry of the friends collection from which no status
    can be derived makes [friendsList] throw, even when that entry is a
    Reject that the list would leave out, and the friends kept in the
    store stay as they were. *)
Theorem friendsList_fails_on_one_entry
    (c : ImmersClient.t) (acts : Activities.t) (w w1 : World) (col entry : value)
    (entries : list value) (e0 : error) :
  activities c = Some acts ->
  Activities.friends acts w = (Ok col, w1) ->
  get col "orderedItems" = Ok (VArr entries) ->
  In entry entries ->
  FriendStatusFromActivity entry = Throw e0 ->
  exists e, friendsList (c, w) = (Throw e, (c, w1)).
Proof.
  intros Hacts Hfriends Hitems Hin Hthrow.
  destruct (mapR_throws _ _ _ _ Hin Hthrow) as (e & He). exists e.
  unfold friendsList, bind, this, defined, io, lift, update, ret. simpl.
  rewrite Hacts. simpl. rewrite Hfriends, Hitems. simpl. rewrite He. reflexivity.
Qed.

End FriendListFailure.

Lemma friendsList_fails_on_one_entry_witness :
  exists e,
    @ImmersClient.friendsList Example2.spoiled (Example.visitor, Example.empty)
    = (Throw e, (Example.visitor,
                 snd (@Activities.friends Example2.spoiled Example.session Example.empty))).
Proof.
  refine (@friendsList_fails_on_one_entry Example2.spoiled Example.visitor Example.session
            Example.empty _ Example2.spoiled_collection
            (VObj [("id", VStr "https://other.example/s/2"); ("type", VStr "Reject")])
            _ TypeError eq_refl _ eq_refl _ eq_refl).
  - vm_compute. reflexivity.
  - right. left. reflexivity.
Defined.

(** * Further properties of the presence operations *)

Section PresenceLifecycle.

Context `{Platform}.
Import ImmersClient Calls Sequence.

(** X15.  Before login the presence operations throw.  [exit], [move]
    and [enter] without a destination throw their login-required
    error, send nothing and leave the client as it was.  [enter] with a
    destination first replaces the place: it throws what that throws,
    and its login-required error once that has returned, the place
    being replaced by then.  Given a URL, it issues exactly one
    request, a GET of that URL, and throws TypeError when that fetch
    fails; given a destination that is not a string, and no local
    server, it sends nothing. *)
Theorem presence_requires_login (c : ImmersClient.t) (w : World) :
  connected c = false ->
  exit (c, w) = (Throw (Error "Immers login required to update location"), (c, w))
  /\ (forall dest,
        move dest (c, w)
        = (Throw (Error "Immers login required to update location"), (c, w)))
  /\ (forall dest, truthy dest = false ->
        enter dest (c, w)
        = (Throw (Error "Immers login required to udpate location"), (c, w)))
  /\ (forall dest, truthy dest = true ->
        (forall c' w', setPlaceFromDestination dest (c, w) = (Ok tt, (c', w')) ->
           enter dest (c, w)
           = (Throw (Error "Immers login required to udpate location"), (c', w')))
        /\ (forall e s, setPlaceFromDestination dest (c, w) = (Throw e, s) ->
              enter dest (c, w) = (Throw e, s)))
  /\ (forall u, u <> EmptyString ->
        let r := mkRequest (VStr u) GET [("Accept", Activities.JSONLDMime)] NoBody in
        sent w (snd (snd (enter (VStr u) (c, w)))) = [r]
        /\ (server (net_log w) r = None ->
            enter (VStr u) (c, w)
            = (Throw TypeError, (c, mkWorld (net_log w ++ [r]) (console w) (arrays w)))))
  /\ (forall dest, (forall u, dest <> VStr u) -> localImmer c = None ->
        snd (snd (enter dest (c, w))) = w).
Proof.
  intros Hconn.
  assert (Hplaced : forall dest c' w', truthy dest = true ->
            setPlaceFromDestination dest (c, w) = (Ok tt, (c', w')) ->
            enter dest (c, w)
            = (Throw (Error "Immers login required to udpate location"), (c', w'))).
  { intros dest c' w' Htruthy Hplace.
    destruct (setPlaceFromDestination_frame _ _ _ _ _ _ Hplace) as (Hconn' & _).
    unfold enter, bind, this. rewrite Htruthy, Hplace. simpl.
    rewrite Hconn', Hconn. reflexivity. }
  assert (Hfailed : forall dest e s, truthy dest = true ->
            setPlaceFromDestination dest (c, w) = (Throw e, s) ->
            enter dest (c, w) = (Throw e, s)).
  { intros dest e s Htruthy Hplace. unfold enter. unfold bind at 1.
    rewrite Htruthy, Hplace. reflexivity. }
  split; [|split; [|split; [|split; [|split]]]].
  - unfold exit, bind, this. simpl. rewrite Hconn. reflexivity.
  - intros dest. unfold move, bind, this. simpl. rewrite Hconn. reflexivity.
  - intros dest Hfalsy. unfold enter, bind, this. rewrite Hfalsy. simpl.
    rewrite Hconn. reflexivity.
  - intros dest Htruthy. split; eauto.
  - intros u Hu r.
    assert (Htruthy : truthy (VStr u) = true)
      by (simpl; apply negb_true_iff, String.eqb_neq, Hu).
    assert (Hplace : setPlaceFromDestination (VStr u) (c, w)
              = match server (net_log w) r with
                | Some res =>
                    match json res with
                    | Some v =>
                        (Ok tt, (set_place v c,
                                 mkWorld (net_log w ++ [r]) (console w) (arrays w)))
                    | None =>
                        (Throw SyntaxError,
                         (c, mkWorld (net_log w ++ [r]) (console w) (arrays w)))
                    end
                | None =>
                    (Throw TypeError,
                     (c, mkWorld (net_log w ++ [r]) (console w) (arrays w)))
                end).
    { unfold setPlaceFromDestination, fetch_json, res_json, fetch, bind, this, io,
        update, ret, throw. cbn [fst snd]. fold r.
      destruct (server (net_log w) r) as [res|]; [|reflexivity].
      destruct (json res); reflexivity. }
    destruct (server (net_log w) r) as [res|] eqn:Hserver; [destruct (json res)|].
    + rewrite (Hplaced _ _ _ Htruthy Hplace). cbn [snd]. split; [apply sent_one|].
      discriminate.
    + rewrite (Hfailed _ _ _ Htruthy Hplace). cbn [snd]. split; [apply sent_one|].
      discriminate.
    + rewrite (Hfailed _ _ _ Htruthy Hplace). cbn [snd]. split; [apply sent_one|].
      reflexivity.
  - intros dest Hobj Hlocal.
    destruct (truthy dest) eqn:Htruthy.
    + assert (Hplace : snd (snd (setPlaceFromDestination dest (c, w))) = w).
      { unfold setPlaceFromDestination, bind, this, lift, update, ret. cbn [fst snd].
        rewrite Hlocal.
        destruct dest; try (exfalso; eapply Hobj; reflexivity);
          match goal with |- context [assign ?b ?s] => destruct (assign b s) end;
          reflexivity. }
      destruct (setPlaceFromDestination dest (c, w)) as [[[]|e] [c' w']] eqn:Hrun.
      * rewrite (Hplaced _ _ _ Htruthy Hrun). exact Hplace.
      * rewrite (Hfailed _ _ _ Htruthy Hrun). exact Hplace.
    + unfold enter, bind, this. rewrite Htruthy. simpl. rewrite Hconn. reflexivity.
Qed.

Lemma authorized_yes (c : ImmersClient.t) (cred : Credential) (s : World) :
  credential c = Some cred ->
  existsb (String.eqb postLocation) (authorizedScopes cred) = true ->
  authorized c (c, s) = (Ok true, (c, s)).
Proof.
  intros Hcred Hscope. unfold authorized, bind, defined, ret.
  rewrite Hcred. simpl. rewrite Hscope. reflexivity.
Qed.

Lemma arrive_returns (acts : Activities.t) (p loc : value) (w w' : World) :
  Activities.arrive acts p w = (Ok loc, w') ->
  exists r, w' = mkWorld (net_log w ++ [r]) (console w) (arrays w)
    /\ announced r = Some (VStr "Arrive", Activities.or_default p (Activities.place acts)).
Proof.
  unfold Activities.arrive. rewrite !bind_lift.
  destruct (get (Activities.actor acts) "id"); [|discriminate]. rewrite bind_lift.
  destruct (get (Activities.actor acts) "followers"); [|discriminate]. rewrite bind_lift.
  destruct (get _ "url"); [|discriminate]. rewrite bind_lift.
  destruct (ToString _); [|discriminate]. rewrite bind_lift.
  destruct (get _ "name"); [|discriminate]. rewrite bind_lift.
  destruct (ToString _); [|discriminate].
  intros Hpost. destruct (postActivity_returns _ _ _ _ _ Hpost) as (outbox & _ & _ & ->).
  eexists. split; reflexivity.
Qed.

Lemma leave_returns (acts : Activities.t) (p loc : value) (w w' : World) :
  Activities.leave acts p w = (Ok loc, w') ->
  exists r, w' = mkWorld (net_log w ++ [r]) (console w) (arrays w)
    /\ announced r = Some (VStr "Leave", Activities.or_default p (Activities.place acts)).
Proof.
  unfold Activities.leave. rewrite !bind_lift.
  destruct (get (Activities.actor acts) "id"); [|discriminate]. rewrite bind_lift.
  destruct (get (Activities.actor acts) "followers"); [|discriminate]. rewrite bind_lift.
  destruct (get _ "url"); [|discriminate]. rewrite bind_lift.
  destruct (ToString _); [|discriminate]. rewrite bind_lift.
  destruct (get _ "name"); [|discriminate]. rewrite bind_lift.
  destruct (ToString _); [|discriminate].
  intros Hpost. destruct (postActivity_returns _ _ _ _ _ Hpost) as (outbox & _ & _ & ->).
  eexists. split; reflexivity.
Qed.

(** X16.  Logged in with the location scope, [enter] without a
    destination sends nothing while the socket is down, and with the
    socket up sends exactly one activity, an Arrive whose target is the
    session's place; if that post throws, so does [enter], the client
    being left as it was. *)
Theorem enter_announces_once
    (c : ImmersClient.t) (cred : Credential) (acts : Activities.t) (sock : Socket)
    (dest : value) (w : World) :
  connected c = true ->
  credential c = Some cred ->
  existsb (String.eqb postLocation) (authorizedScopes cred) = true ->
  activities c = Some acts ->
  streaming c = Some sock ->
  truthy dest = false ->
  (sock_connected sock = false ->
   exists c', enter dest (c, w) = (Ok tt, (c', w)))
  /\ (sock_connected sock = true ->
      (forall loc w', Activities.arrive acts VUndef w = (Ok loc, w') ->
         (exists c', enter dest (c, w) = (Ok tt, (c', w')))
         /\ map announced (sent w w') = [Some (VStr "Arrive", Activities.place acts)])
      /\ (forall e w', Activities.arrive acts VUndef w = (Throw e, w') ->
            enter dest (c, w) = (Throw e, (c, w')))).
Proof.
  intros Hconn Hcred Hscope Hacts Hsock Hfalsy.
  assert (Hstart : enter dest (c, w)
            = bind (this : CM ImmersClient.t) (fun c =>
                let actor := Activities.actor acts in
                bind (if sock_connected sock
                      then bind (io (Activities.arrive acts VUndef)) (fun _ =>
                             ret (mkSocket (sock_connected sock) (Some (actor, place c))
                                    (onConnect sock)))
                      else ret sock)
                  (fun sock => update (set_streaming
                                 (mkSocket (sock_connected sock) (leaveOnDisconnect sock)
                                    true)))) (c, w)).
  { unfold enter, bind, this. rewrite Hfalsy. simpl. rewrite Hconn. simpl.
    rewrite (authorized_yes c cred w Hcred Hscope). simpl.
    rewrite Hacts, Hsock. reflexivity. }
  rewrite Hstart. unfold bind, this, io, update, ret. cbn [fst snd]. split.
  - intros ->. eexists. reflexivity.
  - intros ->. cbn beta iota delta [fst snd]. split.
    + intros loc w' Harrive. rewrite Harrive. split; [eexists; reflexivity|].
      destruct (arrive_returns _ _ _ _ _ Harrive) as (r & -> & Hr).
      rewrite sent_one. cbn [map]. rewrite Hr. reflexivity.
    + intros e w' Harrive. rewrite Harrive. reflexivity.
Qed.

(** X17.  Logged in with the location scope and the socket up, [exit]
    sends exactly one activity, a Leave whose target is the session's
    place; if that post throws, [exit] throws and the client is left as
    it was. *)
Theorem exit_retracts_once
    (c : ImmersClient.t) (cred : Credential) (acts : Activities.t) (sock : Socket)
    (w : World) :
  connected c = true ->
  credential c = Some cred ->
  existsb (String.eqb postLocation) (authorizedScopes cred) = true ->
  activities c = Some acts ->
  streaming c = Some sock ->
  (forall loc w', Activities.leave acts VUndef w = (Ok loc, w') ->
     (exists c', exit (c, w) = (Ok tt, (c', w'))
        /\ activities c' = activities c /\ place c' = place c /\ connected c' = true)
     /\ map announced (sent w w') = [Some (VStr "Leave", Activities.place acts)])
  /\ (forall e w', Activities.leave acts VUndef w = (Throw e, w') ->
        exit (c, w) = (Throw e, (c, w'))).
Proof.
  intros Hconn Hcred Hscope Hacts Hsock.
  assert (Hstart : exit (c, w)
            = bind (io (Activities.leave acts VUndef)) (fun _ =>
                update (set_streaming (mkSocket (sock_connected sock) None false)))
                (c, w)).
  { unfold exit, bind, this. simpl. rewrite Hconn. simpl.
    rewrite (authorized_yes c cred w Hcred Hscope). simpl.
    rewrite Hacts. simpl.
    destruct (io (Activities.leave acts VUndef) (c, w)) as [[?|?] [c1 w1]] eqn:Hio;
      [|reflexivity].
    assert (c1 = c) as ->.
    { unfold io in Hio. simpl in Hio.
      destruct (Activities.leave acts VUndef w); simplify_eq. reflexivity. }
    rewrite Hsock. reflexivity. }
  rewrite Hstart. unfold bind, io, update. cbn [fst snd]. split.
  - intros loc w' Hleave. rewrite Hleave. split.
    + eexists. split; [reflexivity|]. cbn. auto.
    + destruct (leave_returns _ _ _ _ _ Hleave) as (r & -> & Hr).
      rewrite sent_one. cbn [map]. rewrite Hr. reflexivity.
  - intros e w' Hleave. rewrite Hleave. reflexivity.
Qed.


End PresenceLifecycle.

Lemma presence_requires_login_witness :
  @ImmersClient.exit Example.offline (Example2.stranger, Example.empty)
  = (Throw (Error "Immers login required to update location"),
     (Example2.stranger, Example.empty)).
Proof.
  apply (proj1 (@presence_requires_login Example.offline Example2.stranger Example.empty
                  eq_refl)).
Defined.

Lemma enter_announces_once_witness :
  map Sequence.announced
    (sent Example.empty
       (snd (@Activities.arrive Example.accepting Example.session VUndef Example.empty)))
  = [Some (VStr "Arrive", Example.venue)].
Proof.
  refine (proj2 (proj1 (proj2 (@enter_announces_once Example.accepting Example2.resident
                                 _ Example.session _ VUndef Example.empty
                                 eq_refl eq_refl eq_refl eq_refl eq_refl eq_refl)
                          eq_refl)
                   (VStr "https://home.example/s/99") _ _)).
  vm_compute. reflexivity.
Defined.

Lemma exit_retracts_once_witness :
  map Sequence.announced
    (sent Example.empty
       (snd (@Activities.leave Example.accepting Example.session VUndef Example.empty)))
  = [Some (VStr "Leave", Example.venue)].
Proof.
  refine (proj2 (proj1 (@exit_retracts_once Example.accepting Example2.resident
                          _ Example.session _ Example.empty
                          eq_refl eq_refl eq_refl eq_refl eq_refl)
                   (VStr "https://home.example/s/99") _ _)).
  vm_compute. reflexivity.
Defined.


(** * Properties of the blocklist *)

Section BlocklistProperties.

Context `{Platform}.
Import Activities Calls Blocklist.

Lemma home_is_trusted (this : Activities.t) (suffix : string) :
  trustedIRI this (VStr (homeImmer this +:+ suffix)) = Ok true.
Proof.
  assert (Hhome : String.prefix (homeImmer this) (homeImmer this +:+ suffix) = true)
    by (apply prefix_starts_with; exists suffix; reflexivity).
  unfold trustedIRI, rbind. simpl.
  destruct (localImmer this) as [l|]; [|rewrite Hhome; reflexivity].
  destruct (negb (l =? EmptyString)%string); [|rewrite Hhome; reflexivity].
  destruct (String.prefix l _); [reflexivity|rewrite Hhome; reflexivity].
Qed.

(** The address [blockList] fetches first. *)
Lemma blockList_start (fuel : nat) (this : Activities.t) (streams : value)
    (username : string) (w : World) :
  get (actor this) "streams" = Ok streams ->
  (truthy (get_opt streams "blocked") = false ->
   ToString (get_opt (actor this) "preferredUsername") = Ok username) ->
  let address :=
    if truthy (get_opt streams "blocked") then get_opt streams "blocked"
    else VStr (homeImmer this +:+ "/blocked/" +:+ username) in
  blockList fuel this w
  = match getObject this address w with
    | (Throw _, w') => (Ok (Some []), mkWorld (net_log w') (console w' ++ [warning])
                                        (arrays w'))
    | (Ok col, w') =>
        (let+ orderedItems := get col "orderedItems" in
         let* page :=
           if truthy (length_opt orderedItems)
           then
             let+ items := spread orderedItems in
             ret (col, items)
           else
             let+ first := get col "first" in
             let* col := getObject this first in
             let+ orderedItems := get col "orderedItems" in
             let+ items := spread orderedItems in
             ret (col, items) in
         let* drained := drain fuel this (fst page) (snd page) in
         match drained with
         | None => ret None
         | Some blocked =>
             let+ ids := mapR blockee blocked in
             ret (Some ids)
         end) w'
    end.
Proof.
  intros Hstreams Hname address. unfold blockList. rewrite bind_lift, Hstreams, bind_lift.
  rewrite (get_defined _ _ "preferredUsername" _ Hstreams).
  unfold rbind. subst address.
  destruct (truthy (get_opt streams "blocked")); [reflexivity|].
  rewrite (Hname eq_refl). reflexivity.
Qed.

(** X19.  A blocklist that cannot be fetched is an empty blocklist:
    once the address is built, which for the default address takes a
    username that can be printed, when the first fetch throws, for
    whatever reason, [blockList] returns no entries and writes a
    warning.  A failure one step later, in fetching the first page of a
    root without inline items, is not caught and is thrown on; nor is
    the failure to print the username for the default address, which
    is thrown before anything is sent. *)
Theorem blockList_first_fetch_soft (fuel : nat) (this : Activities.t) (streams : value)
    (w : World) :
  get (actor this) "streams" = Ok streams ->
  (forall username,
      (truthy (get_opt streams "blocked") = false ->
       ToString (get_opt (actor this) "preferredUsername") = Ok username) ->
      let address :=
        if truthy (get_opt streams "blocked") then get_opt streams "blocked"
        else VStr (homeImmer this +:+ "/blocked/" +:+ username) in
      (forall e w1,
          getObject this address w = (Throw e, w1) ->
          blockList fuel this w
          = (Ok (Some []), mkWorld (net_log w1) (console w1 ++ [warning]) (arrays w1)))
      /\ (forall col first e w1 w2,
            getObject this address w = (Ok col, w1) ->
            get col "first" = Ok first ->
            truthy (length_opt (get_opt col "orderedItems")) = false ->
            getObject this first w1 = (Throw e, w2) ->
            blockList fuel this w = (Throw e, w2)))
  /\ (truthy (get_opt streams "blocked") = false ->
      forall e, ToString (get_opt (actor this) "preferredUsername") = Throw e ->
      blockList fuel this w = (Throw e, w)).
Proof.
  intros Hstreams. split.
  - intros username Hname address. split.
    + intros e w1 Hfetch. rewrite (blockList_start _ _ _ _ _ Hstreams Hname).
      fold address. rewrite Hfetch. reflexivity.
    + intros col first e w1 w2 Hfetch Hfirst Hempty Hpage.
      rewrite (blockList_start _ _ _ _ _ Hstreams Hname). fold address. rewrite Hfetch.
      rewrite bind_lift, (get_defined _ _ "orderedItems" _ Hfirst), Hempty.
      rewrite !bind_assoc, bind_lift, Hfirst, bind_assoc.
      unfold bind at 1. rewrite Hpage. reflexivity.
  - intros Hnone e Hname. unfold blockList. rewrite bind_lift, Hstreams, bind_lift.
    rewrite Hnone, (get_defined _ _ "preferredUsername" _ Hstreams).
    unfold rbind. rewrite Hname. reflexivity.
Qed.

Lemma effect_drain (fuel : nat) (this : Activities.t) (col : value) (blocked : list value) :
  effect (fun _ => True) (drain fuel this col blocked).
Proof.
  revert col blocked. induction fuel as [|fuel IH]; intros col blocked; simpl.
  - apply effect_bind_pure; intros next _.
    destruct (truthy next); apply effect_ret.
  - apply effect_bind_pure; intros next _.
    destruct (truthy next); [|apply effect_ret].
    apply effect_bind; [apply effect_getObject|]. intros col'.
    apply effect_bind_pure; intros orderedItems _.
    destruct (negb (truthy (length_opt orderedItems))); [apply effect_ret|].
    apply effect_bind_pure; intros more _. apply IH.
Qed.

(** X20.  Without a blocklist of its own among the actor's streams,
    and with a username that can be printed, [blockList] asks the home
    server: its first request is a direct GET of [/blocked/] and the
    username under the home server, which is always a trusted address,
    never a proxied one.  That is so when the token, if there is one,
    can be printed; a token that cannot makes the fetch throw before
    any request, which [blockList] takes for an empty blocklist. *)
Theorem blockList_default_is_direct (fuel : nat) (this : Activities.t) (streams : value)
    (username : string) (w : World) :
  get (actor this) "streams" = Ok streams ->
  truthy (get_opt streams "blocked") = false ->
  ToString (get_opt (actor this) "preferredUsername") = Ok username ->
  (token_prints this ->
   exists rest,
     sent w (snd (blockList fuel this w))
     = mkRequest
         (VStr (homeImmer this +:+ "/blocked/" +:+ username))
         GET
         (("Accept", JSONLDMime) :: (if truthy (token this) then [auth_header this] else []))
         NoBody :: rest)
  /\ (forall e, truthy (token this) = true -> ToString (token this) = Throw e ->
      blockList fuel this w
      = (Ok (Some []), mkWorld (net_log w) (console w ++ [warning]) (arrays w))).
Proof.
  intros Hstreams Hnone Hname. split; cycle 1.
  { intros e Htruthy Htoken.
    rewrite (blockList_start _ _ _ username _ Hstreams (fun _ => Hname)), Hnone.
    unfold getObject. rewrite bind_lift, Htruthy. unfold bearer, rbind.
    rewrite Htoken. reflexivity. }
  intros Hprints.
  rewrite (blockList_start _ _ _ username _ Hstreams (fun _ => Hname)), Hnone.
  set (address := VStr _).
  set (q := mkRequest address GET _ NoBody).
  assert (Hget : getObject this address w
                 = bind (fetch q)
                     (fun result => if negb (ok result)
                                    then throw (Error "Object fetch error undefined")
                                    else res_json result) w).
  { unfold getObject. rewrite bind_lift, (authorization_prints this Hprints).
    cbv zeta. rewrite bind_lift. unfold address.
    rewrite home_is_trusted. reflexivity. }
  assert (Hworld : snd (getObject this address w)
                   = mkWorld (net_log w ++ [q]) (console w) (arrays w)).
  { rewrite Hget. apply after_fetch. intros res w'. unfold res_json, throw, ret.
    destruct (negb (ok res)); [|destruct (json res)]; reflexivity. }
  destruct (getObject this address w) as [[col|e] w1]; simpl in Hworld; subst w1.
  - match goal with
    | |- context [sent w (snd (?k ?w1))] =>
        assert (Heff : effect (fun _ => True) k)
    end.
    { apply effect_bind_pure; intros orderedItems _.
      apply effect_bind.
      - destruct (truthy (length_opt orderedItems)).
        + apply effect_bind_pure; intros items _. apply effect_ret.
        + apply effect_bind_pure; intros first _.
          apply effect_bind; [apply effect_getObject|]. intros col'.
          apply effect_bind_pure; intros orderedItems' _.
          apply effect_bind_pure; intros items _. apply effect_ret.
      - intros page. apply effect_bind; [apply effect_drain|].
        intros [blocked|]; [|apply effect_ret].
        apply effect_bind_pure; intros ids _. apply effect_ret. }
    match goal with
    | |- context [sent w (snd (?k ?w1))] =>
        destruct (Heff w1) as ((rs & Hlog & _) & _)
    end.
    exists rs. unfold sent. rewrite Hlog. simpl.
    rewrite <- app_assoc. apply drop_app_length.
  - exists []. unfold sent. simpl. apply drop_app_length.
Qed.

(** X21.  A blocklist served inline in one page, at the address
    listed among the streams or else at the default address built from
    a username that can be printed, is returned after that one fetch,
    entry by entry in the order of the collection: a
    string entry as it is, an object entry by its id.  An entry that is
    [null] makes the call throw. *)
Theorem blockList_single_page (fuel : nat) (this : Activities.t) (streams col : value)
    (username : string) (entries : list value) (w w1 : World) :
  get (actor this) "streams" = Ok streams ->
  (truthy (get_opt streams "blocked") = false ->
   ToString (get_opt (actor this) "preferredUsername") = Ok username) ->
  getObject this
    (if truthy (get_opt streams "blocked") then get_opt streams "blocked"
     else VStr (homeImmer this +:+ "/blocked/" +:+ username)) w
  = (Ok col, w1) ->
  get col "orderedItems" = Ok (VArr entries) ->
  entries <> [] ->
  truthy (get_opt col "next") = false ->
  (Forall (fun b => (exists s, b = VStr s) \/ (exists fields, b = VObj fields)) entries ->
   blockList fuel this w
   = (Ok (Some (map (fun b => match b with VObj _ => get_opt b "id" | _ => b end) entries)),
      w1))
  /\ (In VNull entries -> blockList fuel this w = (Throw TypeError, w1)).
Proof.
  intros Hstreams Hname Hfetch Hitems Hne Hlast.
  assert (Hrun : blockList fuel this w
                 = (match mapR blockee entries with
                    | Ok ids => Ok (Some ids)
                    | Throw e => Throw e
                    end, w1)).
  { rewrite (blockList_start _ _ _ _ _ Hstreams Hname), Hfetch.
    rewrite bind_lift, Hitems.
    assert (Hlen : truthy (length_opt (VArr entries)) = true)
      by (destruct entries; [contradiction|reflexivity]).
    rewrite Hlen. rewrite bind_assoc, bind_lift. simpl spread. cbv beta iota.
    unfold ret at 1. unfold bind at 1. cbn [fst snd].
    assert (Hdrain : drain fuel this col entries w1 = (Ok (Some entries), w1)).
    { destruct fuel; simpl; rewrite bind_lift, (get_defined _ _ "next" _ Hitems), Hlast;
        reflexivity. }
    unfold bind at 1. rewrite Hdrain. rewrite bind_lift.
    destruct (mapR blockee entries); reflexivity. }
  rewrite Hrun. split.
  - intros Hshape. f_equal.
    assert (Hids : mapR blockee entries
                   = Ok (map (fun b => match b with VObj _ => get_opt b "id" | _ => b end)
                           entries)).
    { clear -Hshape. induction Hshape as [|b bs Hb _ IH]; [reflexivity|].
      simpl. rewrite IH.
      destruct Hb as [(s & ->)|(fields & ->)]; reflexivity. }
    rewrite Hids. reflexivity.
  - intros Hnull. f_equal.
    assert (Hthrow : forall bs, In VNull bs -> mapR blockee bs = Throw TypeError).
    { clear. induction bs as [|b bs IH]; intros Hin; [contradiction|].
      simpl. destruct Hin as [->|Hin]; [reflexivity|].
      destruct (blockee b) as [y|e] eqn:Hb.
      - rewrite (IH Hin). reflexivity.
      - destruct b; simpl in Hb; try discriminate; injection Hb as <-; reflexivity. }
    rewrite (Hthrow entries Hnull). reflexivity.
Qed.

End BlocklistProperties.

Lemma blockList_first_fetch_soft_witness :
  @Blocklist.blockList Example.offline 0 Example.session Example.empty
  = (Ok (Some []),
     mkWorld [mkRequest (VStr "https://home.example/blocked/alice") GET
                [("Accept", Activities.JSONLDMime); ("Authorization", "Bearer t0k3n")]
                NoBody]
       ["Unable to fetch blocklist: "] []).
Proof.
  apply (proj1 (proj1 (@blockList_first_fetch_soft Example.offline 0 Example.session
                         VUndef Example.empty eq_refl)
                  "alice" (fun _ => eq_refl)) TypeError
           (mkWorld [mkRequest (VStr "https://home.example/blocked/alice") GET
                       [("Accept", Activities.JSONLDMime);
                        ("Authorization", "Bearer t0k3n")]
                       NoBody] [] [])).
  reflexivity.
Defined.

Lemma blockList_default_is_direct_witness :
  exists rest,
    sent Example.empty (snd (@Blocklist.blockList Example2.blocking 5 Example.session
                               Example.empty))
    = mkRequest (VStr "https://home.example/blocked/alice") GET
        [("Accept", Activities.JSONLDMime); ("Authorization", "Bearer t0k3n")]
        NoBody :: rest.
Proof.
  apply (proj1 (@blockList_default_is_direct Example2.blocking 5 Example.session VUndef
                  "alice" Example.empty eq_refl eq_refl eq_refl)).
  intros _. exists "t0k3n". reflexivity.
Defined.

Lemma blockList_single_page_witness :
  @Blocklist.blockList Example2.blocking 0 Example.session Example.empty
  = (Ok (Some [VStr "https://spam.example/u/x"; VStr "https://spam.example/u/y"]),
     snd (@Activities.getObject Example2.blocking Example.session
            (VStr "https://home.example/blocked/alice") Example.empty)).
Proof.
  refine (proj1 (@blockList_single_page Example2.blocking 0 Example.session VUndef
                   Example2.blocked_page "alice" _ Example.empty _ eq_refl
                   (fun _ => eq_refl) _ eq_refl _ eq_refl) _).
  - vm_compute. reflexivity.
  - discriminate.
  - apply List.Forall_cons; [left; eexists; reflexivity|].
    apply List.Forall_cons; [right; eexists; reflexivity|]. apply List.Forall_nil.
Defined.

(** * Properties of the client's messages, updates and lookups *)

Lemma append_assoc (a b c : string) : (a +:+ b) +:+ c = a +:+ b +:+ c.
Proof.
  induction a as [|x a IH]; [reflexivity|].
  rewrite !append_String, IH. reflexivity.
Qed.

Section ClientProperties.

Context `{Platform}.
Import ImmersClient Client Calls.

Ltac effect_walk :=
  repeat match goal with
         | |- effect _ (bind (lift _) _) => apply effect_bind_pure; intros ? ?
         | |- effect _ (bind _ _) => apply effect_bind; [|intros ?]
         | |- effect _ (throw _) => apply effect_throw
         | |- effect _ (ret _) => apply effect_ret
         | |- effect _ (Activities.addressees _ _ _) => apply effect_addressees
         | |- effect _ (if ?b then _ else _) => destruct b eqn:?
         | |- effect _ (Activities.postActivity _ _) =>
             apply effect_postActivity; intros ? ?
         end.

Lemma effect_sent {A} (P : request -> Prop) (m : M A) (w : World) (r : request) :
  effect P m -> In r (sent w (snd (m w))) -> P r.
Proof.
  intros Heff Hin. destruct (Heff w) as ((rs & Hlog & HP) & _).
  rewrite (sent_app _ _ _ Hlog) in Hin. rewrite List.Forall_forall in HP. auto.
Qed.

Lemma effect_log (P : request -> Prop) (line : string) : effect P (log line).
Proof.
  intros w. simpl. split; [exists []; rewrite app_nil_r; auto|]. auto.
Qed.

Lemma effect_alloc (P : request -> Prop) (xs : list value) : effect P (alloc xs).
Proof.
  intros w. unfold alloc. simpl. split; [exists []; rewrite app_nil_r; auto|].
  split; [rewrite length_app; lia|]. intros l Hl. apply lookup_app_l. exact Hl.
Qed.


(** X23.  With a local server every address is fetched from that
    server: an address that already starts with it directly, any other
    through its [/proxy/] path.  An address that is not a string throws
    before anything is sent. *)
Theorem corsProxyFetch_with_local (c : ImmersClient.t) (l : string) (url : value)
    (headers : list (string * string)) (w : World) :
  localImmer c = Some l -> l <> EmptyString ->
  (forall u, url = VStr u ->
     exists target,
       sent w (snd (corsProxyFetch c url headers w))
       = [mkRequest (VStr target) GET headers NoBody]
       /\ starts_with ("https://" +:+ l) target
       /\ (target = u \/ target = "https://" +:+ l +:+ "/proxy/" +:+ u))
  /\ ((forall u, url <> VStr u) ->
      corsProxyFetch c url headers w = (Throw TypeError, w)).
Proof.
  intros Hlocal Hne.
  assert (Htruthy : truthy (VStr l) = true)
    by (simpl; destruct (String.eqb_spec l EmptyString); [contradiction|reflexivity]).
  unfold corsProxyFetch. rewrite Hlocal. cbn [default from_option]. unfold Datatypes.id.
  rewrite Htruthy. split.
  - intros u ->.
    destruct (String.prefix ("https://" +:+ l) u) eqn:Hp.
    + exists u. rewrite fetch_world, sent_one. split; [reflexivity|].
      split; [apply prefix_starts_with; exact Hp|auto].
    + eexists. rewrite fetch_world, sent_one. split; [reflexivity|].
      split; [|right; reflexivity].
      exists ("/proxy/" +:+ u). symmetry. apply append_assoc.
  - intros Hns. destruct url; try reflexivity. exfalso. eapply Hns. reflexivity.
Qed.

(** X24.  What [sendChatMessage] posts is a Note whose content is
    what the sanitizer returned for the content it was given, without a
    summary: the content never leaves as it came, and nothing is posted
    unless the sanitizer has returned. *)
Theorem sendChatMessage_sanitizes (c : ImmersClient.t) (content privacy : value)
    (to : option nat) (w : World) (r : request) :
  In r (sent w (snd (sendChatMessage c content privacy to w))) ->
  exists clean fields,
    sanitize content = Ok clean
    /\ carried r = Some (VObj fields)
    /\ assoc "type" fields = Some (VStr "Note")
    /\ assoc "content" fields = Some (VStr clean)
    /\ assoc "summary" fields = None.
Proof.
  intros Hin. pattern r. eapply effect_sent; [|exact Hin]. unfold sendChatMessage.
  apply effect_bind; [destruct to; [apply effect_ret|apply effect_alloc]|].
  intros l. apply effect_bind_pure; intros acts _.
  apply effect_bind_pure; intros clean Hclean.
  unfold Activities.note. effect_walk.
  exists clean. eexists. split; [exact Hclean|]. split; [reflexivity|]. simpl. auto.
Qed.

Lemma effect_updateProfile (P : request -> Prop) (acts : Activities.t)
    (props : list (string * value)) :
  (forall u h id followers,
      get (Activities.actor acts) "id" = Ok id ->
      P (mkRequest u POST h
           (JSONBody (VObj [("type", VStr "Update"); ("actor", id);
                            ("object", VObj (assoc_set "id" id props));
                            ("to", followers)])))) ->
  effect P (Activities.updateProfile acts (VObj props)).
Proof.
  intros HP. unfold Activities.updateProfile.
  apply effect_bind_pure; intros id Hid.
  apply effect_bind_pure; intros update' Hset.
  apply effect_bind_pure; intros id' Hid'.
  apply effect_bind_pure; intros followers _.
  apply effect_postActivity. intros u h.
  simpl in Hset. injection Hset as <-.
  assert (id' = id) as -> by congruence. apply HP. exact Hid.
Qed.

(** X25.  [updateProfileInfo] with neither a display name nor a bio
    does nothing and returns [undefined], logged in or not.  Otherwise
    what it posts is an Update whose object has the actor's id, the
    display name as [name] if one was given and the bio as [summary] if
    one was given. *)
Theorem updateProfileInfo_posts_what_is_given (c : ImmersClient.t)
    (info displayName bio : value) (w : World) :
  get info "displayName" = Ok displayName ->
  get info "bio" = Ok bio ->
  (truthy displayName = false -> truthy bio = false ->
   updateProfileInfo c info w = (Ok VUndef, w))
  /\ (forall r, In r (sent w (snd (updateProfileInfo c info w))) ->
      exists fields props id acts,
        activities c = Some acts
        /\ get (Activities.actor acts) "id" = Ok id
        /\ carried r = Some (VObj fields)
        /\ assoc "type" fields = Some (VStr "Update")
        /\ assoc "object" fields = Some (VObj props)
        /\ assoc "id" props = Some id
        /\ assoc "name" props = (if truthy displayName then Some displayName else None)
        /\ assoc "summary" props = (if truthy bio then Some bio else None)).
Proof.
  intros Hname Hbio. split.
  - intros Hn Hb. unfold updateProfileInfo.
    rewrite bind_lift, Hname, bind_lift, Hbio, Hn, Hb. reflexivity.
  - intros r Hin. pattern r. eapply effect_sent; [|exact Hin]. unfold updateProfileInfo.
    apply effect_bind_pure; intros dn Hdn.
    apply effect_bind_pure; intros b Hb.
    assert (dn = displayName) as -> by congruence.
    assert (b = bio) as -> by congruence.
    destruct (truthy displayName || truthy bio); [|apply effect_ret].
    apply effect_bind_pure; intros acts Hacts.
    assert (Hsome : activities c = Some acts)
      by (unfold activities_of in Hacts; destruct (activities c); congruence).
    apply effect_updateProfile. intros u h id followers Hid.
    eexists _, _, id, acts. repeat split; try eassumption; try reflexivity.
    + apply assoc_set_same.
    + rewrite assoc_set_other by discriminate.
      destruct (truthy displayName); destruct (truthy bio); reflexivity.
    + rewrite assoc_set_other by discriminate.
      destruct (truthy displayName); destruct (truthy bio); reflexivity.
Qed.

(** X26.  [useAvatar] takes a model or an activity that wraps one.
    If the model, once unwrapped, has no url, it throws its
    invalid-avatar error and sends nothing; otherwise what it posts is
    an Update whose object has the actor's id and, as [avatar], the
    unwrapped model. *)
Theorem useAvatar_unwraps_and_checks (c : ImmersClient.t) (avatar inner : value) (w : World) :
  (forall s, avatar <> VStr s) ->
  get avatar "object" = Ok inner ->
  let model := if truthy inner then inner else avatar in
  (truthy (URLFromProperty (get_opt model "url")) = false ->
   useAvatar c avatar w = (Throw (Error "Invalid avatar"), w))
  /\ (forall r, In r (sent w (snd (useAvatar c avatar w))) ->
      exists fields props id acts,
        activities c = Some acts
        /\ get (Activities.actor acts) "id" = Ok id
        /\ carried r = Some (VObj fields)
        /\ assoc "type" fields = Some (VStr "Update")
        /\ assoc "object" fields = Some (VObj props)
        /\ assoc "id" props = Some id
        /\ assoc "avatar" props = Some model).
Proof.
  intros Hns Hinner model.
  assert (Hstart : useAvatar c avatar
            = bind (lift (get avatar "object")) (fun inner =>
                let avatar := if truthy inner then inner else avatar in
                if negb (truthy (URLFromProperty (get_opt avatar "url")))
                then throw (Error "Invalid avatar")
                else
                  bind (lift (get avatar "icon")) (fun avatarIcon =>
                    let icon := URLFromProperty avatarIcon in
                    let profileUpdate :=
                      ("avatar", avatar) :: (if truthy icon then [("icon", icon)] else []) in
                    bind (lift (activities_of c)) (fun acts =>
                      Activities.updateProfile acts (VObj profileUpdate))))).
  { unfold useAvatar. destruct avatar; try reflexivity. exfalso. eapply Hns. reflexivity. }
  rewrite Hstart. split.
  - intros Hbad. rewrite bind_lift, Hinner. cbn beta iota zeta. fold model.
    rewrite Hbad. reflexivity.
  - intros r Hin. pattern r. eapply effect_sent; [|exact Hin].
    apply effect_bind_pure; intros inner' Hinner'.
    assert (inner' = inner) as -> by congruence. cbn beta iota zeta. fold model.
    destruct (negb (truthy (URLFromProperty (get_opt model "url"))));
      [apply effect_throw|].
    apply effect_bind_pure; intros avatarIcon _.
    apply effect_bind_pure; intros acts Hacts.
    assert (Hsome : activities c = Some acts)
      by (unfold activities_of in Hacts; destruct (activities c); congruence).
    apply effect_updateProfile. intros u h id followers Hid.
    eexists _, _, id, acts. repeat split; try eassumption; try reflexivity.
    apply assoc_set_same.
Qed.

Lemma corsProxyFetch_plain (c : ImmersClient.t) (url : value)
    (headers : list (string * string)) (w : World) :
  localImmer c = None ->
  exists lines,
    corsProxyFetch c url headers w
    = fetch (mkRequest url GET headers NoBody)
        (mkWorld (net_log w) (console w ++ lines) (arrays w)).
Proof.
  intros Hlocal. unfold corsProxyFetch. rewrite Hlocal. simpl.
  match goal with
  | |- context [if truthy ?p then log proxy_failed else ret tt] => destruct (truthy p)
  end.
  - exists [proxy_failed; no_proxy]. unfold bind, log, ret. simpl.
    rewrite <- app_assoc. reflexivity.
  - exists [no_proxy]. reflexivity.
Qed.

Lemma user_of_direct (parseHandle : value -> Result (value * value))
    (c : ImmersClient.t) (h : string) (s : option (list (string * value)) * World) :
  String.prefix "https://" h = true ->
  user_of parseHandle c (VStr h) s = (Ok (VStr h), s).
Proof.
  intros Hp. unfold user_of. rewrite bind_lift. cbn [startsWith]. rewrite Hp. reflexivity.
Qed.

Lemma world_sent {A} (P : request -> Prop) (m : M A)
    (s : option (list (string * value)) * World) (r : request) :
  effect P m -> In r (sent (snd s) (snd (snd (world m s)))) -> P r.
Proof.
  intros Heff Hin. unfold world in Hin. destruct s as [cache w]. cbn [fst snd] in Hin.
  pose proof (effect_sent P m w r Heff) as Hs.
  destruct (m w) as [res w']. cbn [fst snd] in *. auto.
Qed.

Lemma world_cache {A} (m : M A) (s : option (list (string * value)) * World) :
  fst (snd (world m s)) = fst s.
Proof. unfold world. destruct (m (snd s)). reflexivity. Qed.

Section HandleProperties.

Variable parseHandle : value -> Result (value * value).

(** X27.  [addFriend] answers or asks.  With [userId] the address it
    takes the handle for (the handle itself when it is an address,
    otherwise whatever the lookup gave, [undefined] included): if the
    friends list holds a request received from [userId], what is posted
    is an Accept of that request's id, sent to its actor; if not, a
    Follow of [userId], sent to [userId].  The cache of lookups is left
    as the lookup left it. *)
Theorem addFriend_accepts_or_follows (c : ImmersClient.t) (acts : Activities.t)
    (handle userId : value) (s s1 : option (list (string * value)) * World) :
  user_of parseHandle c handle s = (Ok userId, s1) ->
  activities c = Some acts ->
  fst (snd (addFriend parseHandle c handle s)) = fst s1
  /\ forall r, In r (sent (snd s1) (snd (snd (addFriend parseHandle c handle s)))) ->
       Sequence.directed r
       = match pending c userId request_received with
         | Some st => Some (VStr "Accept", get_opt (_activity st) "id",
                            get_opt (_activity st) "actor")
         | None => Some (VStr "Follow", userId, userId)
         end.
Proof.
  intros Huser Hacts.
  assert (Heq : addFriend parseHandle c handle s
                = match pending c userId request_received with
                  | Some st => world (Activities.accept acts (_activity st))
                  | None => world (Activities.follow acts userId)
                  end s1).
  { unfold addFriend, bind. rewrite Huser. unfold activities_of. rewrite Hacts.
    destruct (pending c userId request_received); reflexivity. }
  rewrite Heq. clear Heq.
  destruct (pending c userId request_received) as [st|].
  - split; [apply world_cache|]. intros r Hin. pattern r.
    eapply world_sent; [|exact Hin]. unfold Activities.accept. effect_walk.
    unfold Sequence.directed. simpl.
    repeat match goal with
           | Hg : get _ _ = Ok _ |- _ => apply get_get_opt in Hg; subst
           end.
    reflexivity.
  - split; [apply world_cache|]. intros r Hin. pattern r.
    eapply world_sent; [|exact Hin]. unfold Activities.follow. effect_walk.
    reflexivity.
Qed.

(** X28.  [removeFriend] picks one of three answers, in this order: a
    request received from [userId] is rejected by its id; failing that,
    a request sent to [userId] is undone, the Undo going to whom the
    request went; failing both, what is posted is a Reject of [userId]
    itself.  Each Reject goes to [userId]. *)
Theorem removeFriend_rejects_or_undoes (c : ImmersClient.t) (acts : Activities.t)
    (handle userId : value) (s s1 : option (list (string * value)) * World) (r : request) :
  user_of parseHandle c handle s = (Ok userId, s1) ->
  activities c = Some acts ->
  In r (sent (snd s1) (snd (snd (removeFriend parseHandle c handle s)))) ->
  Sequence.directed r
  = match pending c userId request_received, pending c userId request_sent with
    | Some st, _ => Some (VStr "Reject", get_opt (_activity st) "id", userId)
    | None, Some st => Some (VStr "Undo", get_opt (_activity st) "id",
                             get_opt (_activity st) "to")
    | None, None => Some (VStr "Reject", userId, userId)
    end.
Proof.
  intros Huser Hacts.
  assert (Heq : removeFriend parseHandle c handle s
                = match pending c userId request_received,
                        pending c userId request_sent with
                  | Some st, _ =>
                      bind (lift (get (_activity st) "id")) (fun requestId =>
                        world (Activities.reject acts requestId userId))
                  | None, Some st => world (Activities.undo acts (_activity st))
                  | None, None => world (Activities.reject acts userId userId)
                  end s1).
  { unfold removeFriend, bind at 1. rewrite Huser. unfold activities_of. rewrite Hacts.
    destruct (pending c userId request_received);
      [|destruct (pending c userId request_sent)]; reflexivity. }
  rewrite Heq. clear Heq.
  destruct (pending c userId request_received) as [st|];
    [|destruct (pending c userId request_sent) as [st|]].
  - rewrite bind_lift. destruct (get (_activity st) "id") as [requestId|e] eqn:Hid.
    + intros Hin. pattern r. eapply world_sent; [|exact Hin].
      unfold Activities.reject. effect_walk.
      apply get_get_opt in Hid. subst. reflexivity.
    + unfold throw, sent. cbn [snd]. rewrite drop_all. intros [].
  - intros Hin. pattern r. eapply world_sent; [|exact Hin].
    unfold Activities.undo. effect_walk.
    unfold Sequence.directed. simpl.
    repeat match goal with
           | Hg : get _ _ = Ok _ |- _ => apply get_get_opt in Hg; subst
           end.
    reflexivity.
  - intros Hin. pattern r. eapply world_sent; [|exact Hin].
    unfold Activities.reject. effect_walk. reflexivity.
Qed.

(** X29.  A lookup that gave an address remembers it: looking the same
    handle up again right away gives the same address and changes
    nothing, so nothing is sent.  A lookup that gave no address leaves
    the cache as it was. *)
Theorem resolveProfileIRI_remembers (c : ImmersClient.t) (handle iri : value)
    (s s1 : option (list (string * value)) * World) :
  resolveProfileIRI parseHandle c handle s = (Ok iri, s1) ->
  if truthy iri
  then resolveProfileIRI parseHandle c handle s1 = (Ok iri, s1)
  else fst s1 = fst s.
Proof.
  unfold resolveProfileIRI.
  destruct (cached (fst s) handle) as [known|e] eqn:Hc; [|discriminate].
  destruct (truthy known) eqn:Hk.
  - intros Hres. injection Hres as <- <-. rewrite Hk, Hc, Hk. reflexivity.
  - rewrite bind_lift. destruct (parseHandle handle) as [[username immer]|e];
      [|discriminate].
    cbn [fst snd]. rewrite bind_lift. destruct (ToString username); [|discriminate].
    rewrite bind_lift. destruct (ToString immer); [|discriminate].
    unfold bind at 1.
    match goal with
    | |- context [world ?m s] =>
        pose proof (world_cache m s) as Hcache; destruct (world m s) as [[finger|e] s2]
    end; [|discriminate].
    cbn [fst snd] in Hcache. rewrite bind_lift.
    destruct (self_link finger) as [found|e]; [|discriminate].
    destruct (truthy found) eqn:Hfound.
    + rewrite bind_lift. destruct (ToString handle) as [key|e] eqn:Hkey; [|discriminate].
      intros Hres. injection Hres as <- <-. rewrite Hfound. cbn [fst snd].
      unfold cached, rbind. rewrite Hkey, assoc_set_same. cbn [default from_option].
      unfold Datatypes.id. rewrite Hfound. reflexivity.
    + intros Hres. injection Hres as <- <-. rewrite Hfound. exact Hcache.
Qed.

(** X30.  What a lookup sends.  With nothing truthy cached for the
    handle, a user name and a server that can be printed, and no local
    server, [resolveProfileIRI] makes exactly one request: a GET of the
    webfinger address of the handle's server, naming the user.  The
    request carries a header called [headers] and no [Accept] header.
    When the request fails, or its answer is not JSON, the lookup
    returns [undefined] instead of throwing, and caches nothing.  A
    user name or a server that cannot be printed makes the lookup
    throw before anything is sent. *)
Theorem resolveProfileIRI_lookup (c : ImmersClient.t)
    (handle known username immer : value)
    (s : option (list (string * value)) * World) :
  cached (fst s) handle = Ok known ->
  truthy known = false ->
  parseHandle handle = Ok (username, immer) ->
  localImmer c = None ->
  (forall user host,
      ToString username = Ok user ->
      ToString immer = Ok host ->
      let q := mkRequest
                 (VStr ("https://" +:+ host
                          +:+ "/.well-known/webfinger?resource=acct:"
                          +:+ user +:+ "@" +:+ host))
                 GET [("headers", "[object Object]")] NoBody in
      sent (snd s) (snd (snd (resolveProfileIRI parseHandle c handle s))) = [q]
      /\ (match server (net_log (snd s)) q with
          | Some res => json res = None
          | None => True
          end ->
          fst (resolveProfileIRI parseHandle c handle s) = Ok VUndef
          /\ fst (snd (resolveProfileIRI parseHandle c handle s)) = fst s))
  /\ (forall e,
        ToString username = Throw e
        \/ ((exists user, ToString username = Ok user) /\ ToString immer = Throw e) ->
        resolveProfileIRI parseHandle c handle s = (Throw e, s)).
Proof.
  intros Hmiss Hfalsy Hparse Hlocal. split; cycle 1.
  { intros e Hfail. unfold resolveProfileIRI. rewrite Hmiss, Hfalsy.
    rewrite bind_lift, Hparse. cbn [fst snd]. rewrite bind_lift.
    destruct Hfail as [Huser | ((user & Huser) & Hhost)]; rewrite Huser;
      [reflexivity|].
    rewrite bind_lift, Hhost. reflexivity. }
  intros user host Huser Hhost q.
  destruct s as [cache w]. cbn [fst snd] in *.
  destruct (corsProxyFetch_plain c (Env.url q) (Env.headers q) w Hlocal) as (lines & Hcors).
  unfold resolveProfileIRI, world, bind, lift. cbn [fst snd].
  rewrite Hmiss, Hfalsy, Hparse. cbn [fst snd]. rewrite Huser, Hhost.
  change (corsProxyFetch c _ _ w) with (corsProxyFetch c (Env.url q) (Env.headers q) w).
  rewrite Hcors. unfold fetch. cbn [net_log console arrays].
  change (mkRequest (Env.url q) GET (Env.headers q) NoBody) with q.
  destruct (server (net_log w) q) as [res|].
  - unfold res_json. destruct (json res) as [v|].
    + split; [|discriminate]. unfold ret.
      destruct (self_link v) as [iri|e];
        [destruct (truthy iri); [destruct (ToString handle)|]|];
        apply sent_app; reflexivity.
    + split; [apply sent_app; reflexivity|]. intros _. cbn. auto.
  - split; [apply sent_app; reflexivity|]. intros _. cbn. auto.
Qed.

End HandleProperties.

End ClientProperties.



Lemma corsProxyFetch_with_local_witness :
  exists target,
    sent Example.empty
      (snd (@Client.corsProxyFetch Example.offline Example2.hosted
              (VStr "https://other.example/x") [] Example.empty))
    = [mkRequest (VStr target) GET [] NoBody]
    /\ starts_with "https://venue.example" target
    /\ (target = "https://other.example/x"
        \/ target = "https://venue.example/proxy/https://other.example/x").
Proof.
  refine (proj1 (@corsProxyFetch_with_local Example.offline Example2.hosted "venue.example"
                   (VStr "https://other.example/x") [] Example.empty eq_refl _)
            "https://other.example/x" eq_refl).
  discriminate.
Defined.

Lemma sendChatMessage_sanitizes_witness :
  exists fields,
    carried (mkRequest (VStr "https://home.example/outbox/alice") POST
               [("Content-Type", Activities.JSONLDMime); ("Authorization", "Bearer t0k3n")]
               (JSONBody
                  (VObj [("content", VStr "hi"); ("type", VStr "Note");
                         ("attributedTo", VStr "https://home.example/u/alice");
                         ("context", Example.venue);
                         ("to", VArr [])])))
    = Some (VObj fields)
    /\ assoc "type" fields = Some (VStr "Note")
    /\ assoc "content" fields = Some (VStr "hi")
    /\ assoc "summary" fields = None.
Proof.
  destruct (@sendChatMessage_sanitizes Example.accepting Example2.resident
              (VStr "hi") (VStr "direct") None Example.empty _ (or_introl eq_refl))
    as (clean & fields & Hclean & Hfields).
  injection Hclean as <-. exists fields. exact Hfields.
Defined.

Lemma updateProfileInfo_posts_what_is_given_witness :
  @Client.updateProfileInfo Example.accepting Example2.stranger
    (VObj [("displayName", VStr EmptyString)]) Example.empty
  = (Ok VUndef, Example.empty).
Proof.
  refine (proj1 (@updateProfileInfo_posts_what_is_given Example.accepting Example2.stranger
                   (VObj [("displayName", VStr EmptyString)]) (VStr EmptyString) VUndef
                   Example.empty eq_refl eq_refl) eq_refl eq_refl).
Defined.

Lemma useAvatar_unwraps_and_checks_witness :
  exists fields props id acts,
    ImmersClient.activities Example2.resident = Some acts
    /\ get (Activities.actor acts) "id" = Ok id
    /\ carried (mkRequest (VStr "https://home.example/outbox/alice") POST
                  [("Content-Type", Activities.JSONLDMime);
                   ("Authorization", "Bearer t0k3n")]
                  (JSONBody
                     (VObj [("type", VStr "Update");
                            ("actor", VStr "https://home.example/u/alice");
                            ("object",
                             VObj [("avatar", Example2.robot);
                                   ("id", VStr "https://home.example/u/alice")]);
                            ("to", VStr "https://home.example/followers/alice")])))
       = Some (VObj fields)
    /\ assoc "type" fields = Some (VStr "Update")
    /\ assoc "object" fields = Some (VObj props)
    /\ assoc "id" props = Some id
    /\ assoc "avatar" props = Some Example2.robot.
Proof.
  refine (proj2 (@useAvatar_unwraps_and_checks Example.accepting Example2.resident
                   Example2.robot_created Example2.robot Example.empty _ eq_refl) _ _).
  - discriminate.
  - left. reflexivity.
Defined.

Lemma addFriend_accepts_or_follows_witness :
  Sequence.directed
    (mkRequest (VStr "https://home.example/outbox/alice") POST
       [("Content-Type", Activities.JSONLDMime); ("Authorization", "Bearer t0k3n")]
       (JSONBody
          (VObj [("type", VStr "Accept");
                 ("actor", VStr "https://home.example/u/alice");
                 ("object", VStr "https://other.example/s/20");
                 ("to", Example.carol);
                 ("summary", VStr "<span>Accepted your a friend request</span>")])))
  = Some (VStr "Accept", VStr "https://other.example/s/20", Example.carol).
Proof.
  refine (proj2 (@addFriend_accepts_or_follows Example.accepting Example2.carol_handle
                   Example2.asked Example.session
                   (VStr "https://other.example/u/carol")
                   (VStr "https://other.example/u/carol")
                   (None, Example.empty) (None, Example.empty) eq_refl eq_refl) _ _).
  left. reflexivity.
Defined.

Lemma removeFriend_rejects_or_undoes_witness :
  Sequence.directed
    (mkRequest (VStr "https://home.example/outbox/alice") POST
       [("Content-Type", Activities.JSONLDMime); ("Authorization", "Bearer t0k3n")]
       (JSONBody
          (VObj [("type", VStr "Undo");
                 ("actor", VStr "https://home.example/u/alice");
                 ("object", VStr "https://home.example/s/30");
                 ("to", VStr "https://other.example/u/carol")])))
  = Some (VStr "Undo", VStr "https://home.example/s/30",
          VStr "https://other.example/u/carol").
Proof.
  refine (@removeFriend_rejects_or_undoes Example.accepting Example2.carol_handle
            Example2.asking Example.session
            (VStr "https://other.example/u/carol")
            (VStr "https://other.example/u/carol")
            (None, Example.empty) (None, Example.empty) _ eq_refl eq_refl _).
  left. reflexivity.
Defined.

Lemma resolveProfileIRI_remembers_witness :
  @Client.resolveProfileIRI Example2.carol_handle Example2.fingering Example2.stranger
    (VStr "carol[other.example]")
    (snd (@Client.resolveProfileIRI Example2.carol_handle Example2.fingering
            Example2.stranger (VStr "carol[other.example]") (None, Example.empty)))
  = (Ok (VStr "https://other.example/u/carol"),
     snd (@Client.resolveProfileIRI Example2.carol_handle Example2.fingering
            Example2.stranger (VStr "carol[other.example]") (None, Example.empty))).
Proof.
  exact (@resolveProfileIRI_remembers Example2.fingering Example2.carol_handle
           Example2.stranger (VStr "carol[other.example]")
           (VStr "https://other.example/u/carol") (None, Example.empty) _ eq_refl).
Defined.

Lemma resolveProfileIRI_lookup_witness :
  sent Example.empty
    (snd (snd (@Client.resolveProfileIRI Example2.carol_handle Example.offline
                 Example2.stranger (VStr "carol[other.example]") (None, Example.empty))))
  = [mkRequest
       (VStr "https://other.example/.well-known/webfinger?resource=acct:carol@other.example")
       GET [("headers", "[object Object]")] NoBody]
  /\ fst (@Client.resolveProfileIRI Example2.carol_handle Example.offline
            Example2.stranger (VStr "carol[other.example]") (None, Example.empty))
     = Ok VUndef
  /\ fst (snd (@Client.resolveProfileIRI Example2.carol_handle Example.offline
                 Example2.stranger (VStr "carol[other.example]") (None, Example.empty)))
     = None.
Proof.
  refine (let looked :=
            proj1 (@resolveProfileIRI_lookup Example.offline Example2.carol_handle
                     Example2.stranger (VStr "carol[other.example]") VUndef
                     (VStr "carol") (VStr "other.example") (None, Example.empty)
                     eq_refl eq_refl eq_refl eq_refl)
              "carol" "other.example" eq_refl eq_refl in
          conj (proj1 looked) (proj2 looked I)).
Defined.
